(** * Nightblade-Runner: the gameplay core, embedded and verified

    A shallow embedding of [entities/player.py], [entities/enemy.py],
    [utils/particle_system.py], [utils/helpers.py] and
    [scenes/game_scene.py].

    Conventions of the embedding.
    - Python floats are exact rationals ([Q]); Python ints are [Z].
      Where the code counts a timer down over several frames and tests
      it against 0 (the player's attack and dash timers, a particle's
      lifetime), the product and the difference are rounded to the
      nearest binary64 float as Python does ([Float.mul], [Float.sub]);
      elsewhere the arithmetic is exact.
    - The fields of a [pygame.Rect] are C ints: the rectangles are
      meant within that range ([CInt.in_range], [fits]), where pygame
      neither wraps nor raises.
    - Objects are records; a method that mutates [self] is a function
      returning the new record.
    - [random] is a tape of unit-interval draws, one draw per call.
    - The save file lives on a small model of the disk.
    - Presentation (sprites, fonts, drawing, audio) is left out. *)

From Stdlib Require Import ZArith QArith Qabs Qround Qpower List String Bool
  Lia Lqa.
Import ListNotations.
Open Scope Q_scope.
Set Warnings "-register-all".

(** ** Python numerics *)

Module Py.

(** [a < b] and [a <= b] on floats, as booleans. *)
Definition ltb (a b : Q) : bool := negb (Qle_bool b a).
Definition leb (a b : Q) : bool := Qle_bool a b.
Definition eqb (a b : Q) : bool := Qeq_bool a b.

(** The builtins [min(a, b)] and [max(a, b)]: the first argument wins
    a tie. *)
Definition min (a b : Q) : Q := if ltb b a then b else a.
Definition max (a b : Q) : Q := if ltb a b then b else a.

(** [int(x)] on a float truncates toward zero. *)
Definition int (x : Q) : Z := Z.quot (Qnum x) (Zpos (Qden x)).

(** [float(n)] on an int. *)
Definition float (n : Z) : Q := inject_Z n.

(** [abs(x)]. *)
Definition abs (x : Q) : Q := Qabs x.

End Py.

(** ** Python floats: rounding to binary64

    A Python float is an IEEE 754 binary64 number, and [a * b] and
    [a - b] are the exact results rounded to the nearest float, ties
    to the even significand.  [fl] is that rounding on the exact
    value: 53 bits of significand, gradual underflow below [2 ^ -1022].
    Results of magnitude [2 ^ 1024] and more, infinities in Python,
    are out of its range; the delta times of [main.py] (at most 2) keep
    every timer far below. *)

Module Float.

Definition pow2 (k : Z) : Q := 2 ^ k.

(** The binary exponent of [q <> 0]: [pow2 e <= |q| < pow2 (e + 1)]. *)
Definition ilog2 (q : Q) : Z :=
  let c := (Z.log2 (Z.abs (Qnum q)) - Z.log2 (Zpos (Qden q)))%Z in
  if Qle_bool (pow2 c) (Qabs q) then c else (c - 1)%Z.

(** The nearest integer, ties to even. *)
Definition nearest_even (x : Q) : Z :=
  let f := Qfloor x in
  match Qcompare (x - inject_Z f) (1 # 2) with
  | Lt => f
  | Gt => (f + 1)%Z
  | Eq => if Z.even f then f else (f + 1)%Z
  end.

(** The spacing of the floats around [q]. *)
Definition quantum (q : Q) : Q := pow2 (Z.max (ilog2 q) (-1022) - 52).

(** Rounding to the nearest float. *)
Definition fl (q : Q) : Q :=
  if Qeq_bool q 0 then 0
  else inject_Z (nearest_even (q / quantum q)) * quantum q.

(** [a * b] and [a - b] on floats. *)
Definition mul (a b : Q) : Q := fl (a * b).
Definition sub (a b : Q) : Q := fl (a - b).

(** A bound on one rounding of a value of magnitude at most 4096, and
    on the two roundings of a timer's tick: [2 ^ -41] and [2 ^ -40]. *)
Definition half_ulp : Q := 1 # 2199023255552.
Definition tick_error : Q := 1 # 1099511627776.

End Float.

Arguments Float.fl : simpl never.
Arguments Float.mul : simpl never.
Arguments Float.sub : simpl never.

(** ** C ints: the range of the fields of a [pygame.Rect] *)

Module CInt.

Definition in_range (n : Z) : Prop := (-2147483648 <= n <= 2147483647)%Z.

End CInt.

(** ** utils/constants.py *)

Module Constants.

Definition WINDOW_WIDTH : Z := 1024.
Definition WINDOW_HEIGHT : Z := 768.

Definition Color : Type := (Z * Z * Z)%type.
Definition WHITE : Color := (255, 255, 255)%Z.
Definition RED : Color := (255, 0, 0)%Z.
Definition GREEN : Color := (0, 255, 0)%Z.

Definition PLAYER_WIDTH : Z := 96.
Definition PLAYER_HEIGHT : Z := 96.
Definition PLAYER_SPEED : Q := 5.
Definition PLAYER_JUMP_STRENGTH : Q := -15.
Definition PLAYER_GRAVITY : Q := 8 # 10.
Definition PLAYER_GROUND_Y : Z := WINDOW_HEIGHT - PLAYER_HEIGHT - 50.

Definition ENEMY_WIDTH : Z := 96.
Definition ENEMY_HEIGHT : Z := 96.
Definition ENEMY_BASE_SPEED : Q := 1.

Definition ATTACK_RANGE : Z := 10.
Definition ATTACK_COOLDOWN : Q := 800.
Definition PLAYER_HEALTH : Z := 100.

Definition SAVEGAME_PATH : string := "data/savegame.json".

End Constants.
Import Constants.

(** ** pygame.Rect and utils/helpers.py: check_collision *)

Record Rect : Type := mkRect
  { r_x : Z; r_y : Z; r_width : Z; r_height : Z }.

(** A rectangle as pygame can hold it and compare it: the four fields
    and the two far edges are C ints.  Outside this range pygame wraps
    a constructed value, refuses an assigned one ([TypeError]) and
    overflows on [x + w]. *)
Definition fits (r : Rect) : Prop :=
  CInt.in_range (r_x r) /\ CInt.in_range (r_y r) /\
  CInt.in_range (r_width r) /\ CInt.in_range (r_height r) /\
  CInt.in_range (r_x r + r_width r) /\
  CInt.in_range (r_y r + r_height r).

(** [Rect.colliderect], on rectangles that fit: rectangles of zero
    size never collide; the edges are normalised with min/max so that
    negative sizes work. *)
Definition colliderect (a b : Rect) : bool :=
  if ((r_width a =? 0) || (r_height a =? 0) ||
      (r_width b =? 0) || (r_height b =? 0))%Z
  then false
  else
    ((Z.min (r_x a) (r_x a + r_width a) <? Z.max (r_x b) (r_x b + r_width b)) &&
     (Z.min (r_y a) (r_y a + r_height a) <? Z.max (r_y b) (r_y b + r_height b)) &&
     (Z.min (r_x b) (r_x b + r_width b) <? Z.max (r_x a) (r_x a + r_width a)) &&
     (Z.min (r_y b) (r_y b + r_height b) <? Z.max (r_y a) (r_y a + r_height a)))%Z.

Definition check_collision (rect1 rect2 : Rect) : bool :=
  colliderect rect1 rect2.

(** The animation state, a string in the source. *)
Inductive AnimState : Type := Idle | Run | Jump.

(** The keys the game polls each frame ([pygame.key.get_pressed]). *)
Record Keys : Type := mkKeys
  { K_LEFT : bool; K_a : bool; K_RIGHT : bool; K_d : bool;
    K_UP : bool; K_w : bool; K_LSHIFT : bool; K_RSHIFT : bool;
    K_SPACE : bool; K_x : bool }.

Definition no_keys : Keys :=
  mkKeys false false false false false false false false false false.

(** ** entities/player.py *)

Module Player.

Record t : Type := mk
  { x : Q; y : Q;
    velocity_x : Q; velocity_y : Q;
    on_ground : bool;
    state : AnimState;
    facing_right : bool;
    health : Z; max_health : Z;
    attack_cooldown : Q;
    dash_cooldown : Q; dash_time : Q;
    is_dashing : bool;
    dash_speed : Q;
    rect : Rect;
    animation_frame : Q }.

(** [Player.__init__]. *)
Definition init (x0 y0 : Z) : t :=
  {| x := Py.float x0; y := Py.float y0;
     velocity_x := 0; velocity_y := 0;
     on_ground := false;
     state := Idle;
     facing_right := true;
     health := PLAYER_HEALTH; max_health := PLAYER_HEALTH;
     attack_cooldown := 0;
     dash_cooldown := 0; dash_time := 0;
     is_dashing := false;
     dash_speed := PLAYER_SPEED * (25 # 10);
     rect := mkRect (Py.int (Py.float x0)) (Py.int (Py.float y0))
               PLAYER_WIDTH PLAYER_HEIGHT;
     animation_frame := 0 |}.

Definition set_health (h : Z) (p : t) : t :=
  mk (x p) (y p) (velocity_x p) (velocity_y p) (on_ground p) (state p)
     (facing_right p) h (max_health p) (attack_cooldown p)
     (dash_cooldown p) (dash_time p) (is_dashing p) (dash_speed p)
     (rect p) (animation_frame p).

Definition set_attack_cooldown (c : Q) (p : t) : t :=
  mk (x p) (y p) (velocity_x p) (velocity_y p) (on_ground p) (state p)
     (facing_right p) (health p) (max_health p) c
     (dash_cooldown p) (dash_time p) (is_dashing p) (dash_speed p)
     (rect p) (animation_frame p).

Definition set_dash_cooldown (c : Q) (p : t) : t :=
  mk (x p) (y p) (velocity_x p) (velocity_y p) (on_ground p) (state p)
     (facing_right p) (health p) (max_health p) (attack_cooldown p)
     c (dash_time p) (is_dashing p) (dash_speed p)
     (rect p) (animation_frame p).

Definition set_dash_time (c : Q) (p : t) : t :=
  mk (x p) (y p) (velocity_x p) (velocity_y p) (on_ground p) (state p)
     (facing_right p) (health p) (max_health p) (attack_cooldown p)
     (dash_cooldown p) c (is_dashing p) (dash_speed p)
     (rect p) (animation_frame p).

Definition set_is_dashing (b : bool) (p : t) : t :=
  mk (x p) (y p) (velocity_x p) (velocity_y p) (on_ground p) (state p)
     (facing_right p) (health p) (max_health p) (attack_cooldown p)
     (dash_cooldown p) (dash_time p) b (dash_speed p)
     (rect p) (animation_frame p).

Definition set_velocity_x (v : Q) (p : t) : t :=
  mk (x p) (y p) v (velocity_y p) (on_ground p) (state p)
     (facing_right p) (health p) (max_health p) (attack_cooldown p)
     (dash_cooldown p) (dash_time p) (is_dashing p) (dash_speed p)
     (rect p) (animation_frame p).

Definition set_velocity_y (v : Q) (p : t) : t :=
  mk (x p) (y p) (velocity_x p) v (on_ground p) (state p)
     (facing_right p) (health p) (max_health p) (attack_cooldown p)
     (dash_cooldown p) (dash_time p) (is_dashing p) (dash_speed p)
     (rect p) (animation_frame p).

Definition set_x (v : Q) (p : t) : t :=
  mk v (y p) (velocity_x p) (velocity_y p) (on_ground p) (state p)
     (facing_right p) (health p) (max_health p) (attack_cooldown p)
     (dash_cooldown p) (dash_time p) (is_dashing p) (dash_speed p)
     (rect p) (animation_frame p).

Definition set_y (v : Q) (p : t) : t :=
  mk (x p) v (velocity_x p) (velocity_y p) (on_ground p) (state p)
     (facing_right p) (health p) (max_health p) (attack_cooldown p)
     (dash_cooldown p) (dash_time p) (is_dashing p) (dash_speed p)
     (rect p) (animation_frame p).

Definition set_on_ground (b : bool) (p : t) : t :=
  mk (x p) (y p) (velocity_x p) (velocity_y p) b (state p)
     (facing_right p) (health p) (max_health p) (attack_cooldown p)
     (dash_cooldown p) (dash_time p) (is_dashing p) (dash_speed p)
     (rect p) (animation_frame p).

Definition set_state (s : AnimState) (p : t) : t :=
  mk (x p) (y p) (velocity_x p) (velocity_y p) (on_ground p) s
     (facing_right p) (health p) (max_health p) (attack_cooldown p)
     (dash_cooldown p) (dash_time p) (is_dashing p) (dash_speed p)
     (rect p) (animation_frame p).

Definition set_facing_right (b : bool) (p : t) : t :=
  mk (x p) (y p) (velocity_x p) (velocity_y p) (on_ground p) (state p)
     b (health p) (max_health p) (attack_cooldown p)
     (dash_cooldown p) (dash_time p) (is_dashing p) (dash_speed p)
     (rect p) (animation_frame p).

Definition set_animation_frame (v : Q) (p : t) : t :=
  mk (x p) (y p) (velocity_x p) (velocity_y p) (on_ground p) (state p)
     (facing_right p) (health p) (max_health p) (attack_cooldown p)
     (dash_cooldown p) (dash_time p) (is_dashing p) (dash_speed p)
     (rect p) v.

(** [self.rect.x = int(self.x); self.rect.y = int(self.y)], for a
    position whose truncation is a C int; pygame raises [TypeError] on
    any other. *)
Definition sync_rect (p : t) : t :=
  mk (x p) (y p) (velocity_x p) (velocity_y p) (on_ground p) (state p)
     (facing_right p) (health p) (max_health p) (attack_cooldown p)
     (dash_cooldown p) (dash_time p) (is_dashing p) (dash_speed p)
     (mkRect (Py.int (x p)) (Py.int (y p))
             (r_width (rect p)) (r_height (rect p)))
     (animation_frame p).

(** [self.x = max(0, min(self.x, WINDOW_WIDTH - PLAYER_WIDTH))]. *)
Definition clamp_x (p : t) : t :=
  set_x (Py.max 0 (Py.min (x p) (inject_Z (WINDOW_WIDTH - PLAYER_WIDTH)))) p.

(** Lines 82-90 of [update]: the two dash timers, in float
    arithmetic. *)
Definition tick_dash_timers (dt : Q) (p : t) : t :=
  let p1 :=
    if Py.ltb 0 (dash_cooldown p)
    then set_dash_cooldown
           (Float.sub (dash_cooldown p) (Float.mul dt 1000)) p
    else p in
  if is_dashing p1 then
    let p2 := set_dash_time
                (Float.sub (dash_time p1) (Float.mul dt 1000)) p1 in
    if Py.leb (dash_time p2) 0
    then set_velocity_x 0 (set_is_dashing false p2)
    else p2
  else p1.

(** The condition of line 93. *)
Definition dash_triggered (keys : Keys) (p : t) : bool :=
  (K_LSHIFT keys || K_RSHIFT keys)
  && Py.leb (dash_cooldown p) 0
  && negb (is_dashing p).

(** [start_dash]. *)
Definition start_dash (p : t) : t :=
  set_dash_cooldown 1000 (set_dash_time 200 (set_is_dashing true p)).

(** Lines 97-110 of [update]: the dash overrides movement and returns
    early. *)
Definition dash_move (dt : Q) (p : t) : t :=
  let p1 := set_velocity_x
              (if facing_right p then dash_speed p else - dash_speed p) p in
  let p2 := set_velocity_y 0 p1 in
  let p3 := set_x (x p2 + velocity_x p2 * dt) p2 in
  sync_rect (clamp_x p3).

(** Lines 114-130: horizontal input. *)
Definition horizontal_input (keys : Keys) (p : t) : t :=
  let p0 := set_velocity_x 0 p in
  if K_LEFT keys || K_a keys then
    let p1 := set_facing_right false (set_velocity_x (- PLAYER_SPEED) p0) in
    if on_ground p1 then set_state Run p1 else p1
  else if K_RIGHT keys || K_d keys then
    let p1 := set_facing_right true (set_velocity_x PLAYER_SPEED p0) in
    if on_ground p1 then set_state Run p1 else p1
  else
    if on_ground p0 then set_state Idle p0 else p0.

(** Lines 132-136: jumping. *)
Definition jump_input (keys : Keys) (p : t) : t :=
  if (K_UP keys || K_w keys) && on_ground p
  then set_state Jump (set_on_ground false
                         (set_velocity_y PLAYER_JUMP_STRENGTH p))
  else p.

(** Lines 138-141: gravity. *)
Definition apply_gravity (p : t) : t :=
  if negb (on_ground p)
  then set_state Jump (set_velocity_y (velocity_y p + PLAYER_GRAVITY) p)
  else p.

(** Lines 143-145: forward Euler. *)
Definition integrate (dt : Q) (p : t) : t :=
  let p1 := set_x (x p + velocity_x p * dt) p in
  set_y (y p1 + velocity_y p1 * dt) p1.

(** Lines 147-153: ground collision. *)
Definition ground_collision (p : t) : t :=
  if Py.leb (inject_Z PLAYER_GROUND_Y) (y p) then
    let p1 := set_on_ground true
                (set_velocity_y 0 (set_y (inject_Z PLAYER_GROUND_Y) p)) in
    match state p1 with
    | Jump => set_state Idle p1
    | _ => p1
    end
  else p.

(** Lines 162-164: the attack cooldown counts down, in float
    arithmetic. *)
Definition tick_attack_cooldown (dt : Q) (p : t) : t :=
  if Py.ltb 0 (attack_cooldown p)
  then set_attack_cooldown
         (Float.sub (attack_cooldown p) (Float.mul dt 1000)) p
  else p.

(** Lines 112-167: the normal movement path. *)
Definition normal_move (keys : Keys) (dt : Q) (p : t) : t :=
  let p1 := horizontal_input keys p in
  let p2 := jump_input keys p1 in
  let p3 := apply_gravity p2 in
  let p4 := integrate dt p3 in
  let p5 := ground_collision p4 in
  let p6 := sync_rect (clamp_x p5) in
  let p7 := tick_attack_cooldown dt p6 in
  set_animation_frame (animation_frame p7 + dt * 10) p7.

(** The player as the movement code finds it: timers ticked, dash
    started if asked for. *)
Definition before_move (keys : Keys) (dt : Q) (p : t) : t :=
  let p1 := tick_dash_timers dt p in
  if dash_triggered keys p1 then start_dash p1 else p1.

(** [Player.update]. *)
Definition update (keys : Keys) (dt : Q) (p : t) : t :=
  let p2 := before_move keys dt p in
  if is_dashing p2 then dash_move dt p2 else normal_move keys dt p2.

(** [Player.attack]: the new player and the returned flag. *)
Definition attack (p : t) : t * bool :=
  if Py.leb (attack_cooldown p) 0
  then (set_attack_cooldown ATTACK_COOLDOWN p, true)
  else (p, false).

(** [Player.get_attack_rect]. *)
Definition get_attack_rect (p : t) : Rect :=
  let attack_x :=
    if facing_right p then x p + inject_Z PLAYER_WIDTH
    else x p - inject_Z ATTACK_RANGE in
  mkRect (Py.int attack_x) (Py.int (y p)) ATTACK_RANGE PLAYER_HEIGHT.

(** [Player.take_damage]. *)
Definition take_damage (amount : Z) (p : t) : t :=
  if is_dashing p then p
  else
    let h := (health p - amount)%Z in
    set_health (if (h <? 0)%Z then 0%Z else h) p.

(** [Player.is_alive]. *)
Definition is_alive (p : t) : bool := (0 <? health p)%Z.

End Player.

(** ** entities/enemy.py *)

Module Enemy.

Record t : Type := mk
  { x : Q; y : Q;
    velocity_x : Q; velocity_y : Q;
    on_ground : bool;
    speed : Q;
    detection_range : Q;
    attack_range : Q;
    state : AnimState;
    facing_right : bool;
    health : Z;
    attack_cooldown : Q;
    rect : Rect;
    animation_frame : Q }.

(** [Enemy.__init__]; [speed] is [None] or a float. *)
Definition init (x0 y0 : Z) (speed0 : option Q) : t :=
  {| x := Py.float x0; y := Py.float y0;
     velocity_x := 0; velocity_y := 0;
     on_ground := false;
     speed := match speed0 with Some v => v | None => ENEMY_BASE_SPEED end;
     detection_range := 3000;
     attack_range := 60;
     state := Idle;
     facing_right := true;
     health := 1;
     attack_cooldown := 0;
     rect := mkRect (Py.int (Py.float x0)) (Py.int (Py.float y0))
               ENEMY_WIDTH ENEMY_HEIGHT;
     animation_frame := 0 |}.

(** The pursuit decision of [update], lines 86-111: the horizontal
    velocity, the facing and the animation state. *)
Definition pursue (player_x : Q) (e : t) : Q * bool * AnimState :=
  let distance_to_player := Py.abs (x e - player_x) in
  if Py.ltb distance_to_player (detection_range e) then
    if Py.ltb (x e) player_x then
      (speed e, true, if on_ground e then Run else state e)
    else if Py.ltb player_x (x e) then
      (- speed e, false, if on_ground e then Run else state e)
    else
      (0, facing_right e, if on_ground e then Idle else state e)
  else
    (0, facing_right e, if on_ground e then Idle else state e).

(** [Enemy.update]. *)
Definition update (player_pos : Q * Q) (dt : Q) (e : t) : t :=
  let player_x := fst player_pos in
  let '(vx, facing, st) := pursue player_x e in
  let x1 := x e + vx * dt in
  let y1 := inject_Z PLAYER_GROUND_Y in
  let x2 := Py.max 0 (Py.min x1 (inject_Z (WINDOW_WIDTH - ENEMY_WIDTH))) in
  {| x := x2; y := y1;
     velocity_x := vx; velocity_y := 0;
     on_ground := true;
     speed := speed e;
     detection_range := detection_range e;
     attack_range := attack_range e;
     state := st;
     facing_right := facing;
     health := health e;
     attack_cooldown := attack_cooldown e;
     rect := mkRect (Py.int x2) (Py.int y1)
               (r_width (rect e)) (r_height (rect e));
     animation_frame := animation_frame e + dt * 10 |}.

Definition set_health (h : Z) (e : t) : t :=
  mk (x e) (y e) (velocity_x e) (velocity_y e) (on_ground e) (speed e)
     (detection_range e) (attack_range e) (state e) (facing_right e)
     h (attack_cooldown e) (rect e) (animation_frame e).

(** [Enemy.take_damage]. *)
Definition take_damage (amount : Z) (e : t) : t :=
  let h := (health e - amount)%Z in
  set_health (if (h <? 0)%Z then 0%Z else h) e.

(** [Enemy.is_alive]. *)
Definition is_alive (e : t) : bool := (0 <? health e)%Z.

End Enemy.

(** ** The [random] module, as a tape of draws *)

Module Random.

(** The generator: an endless tape of draws from the unit interval
    and the position of the next one. *)
Record t : Type := mk { draws : nat -> Q; cursor : nat }.

(** [random.random()]. *)
Definition random (g : t) : Q * t :=
  (draws g (cursor g), mk (draws g) (S (cursor g))).

(** [random.uniform(a, b)] is [a + (b - a) * random()]. *)
Definition uniform (a b : Q) (g : t) : Q * t :=
  let (u, g') := random g in (a + (b - a) * u, g').

(** [random.randint(a, b)]: one of the [b - a + 1] integers from [a]. *)
Definition randint (a b : Z) (g : t) : Z * t :=
  let (u, g') := random g in
  ((a + Qfloor (u * inject_Z (b - a + 1)))%Z, g').

(** [random.choice([0, 1])]. *)
Definition choice01 (g : t) : Z * t :=
  let (u, g') := random g in
  ((if (Qfloor (u * 2) =? 0)%Z then 0 else 1)%Z, g').

End Random.

(** ** utils/particle_system.py *)

Module Particles.

(** The [type] argument of [emit], a string in the source; anything
    but "blood" and "dust" takes the last branch. *)
Inductive Kind : Type := Explosion | Blood | Dust.

Record Particle : Type := mkParticle
  { x : Q; y : Q;
    color : Color;
    velocity_x : Q; velocity_y : Q;
    lifetime : Q; max_lifetime : Q;
    size : Z;
    gravity : Q }.

(** [Particle.__init__]. *)
Definition init (x0 y0 : Q) (c : Color) (velocity : Q * Q)
    (lifetime0 : Q) (size0 : Z) : Particle :=
  mkParticle x0 y0 c (fst velocity) (snd velocity)
             lifetime0 lifetime0 size0 (2 # 10).

(** [Particle.update]; the lifetime counts down in float
    arithmetic. *)
Definition update_particle (dt : Q) (p : Particle) : Particle :=
  let x1 := x p + velocity_x p * dt in
  let y1 := y p + velocity_y p * dt in
  let vy1 := velocity_y p + gravity p * dt in
  mkParticle x1 y1 (color p) (velocity_x p) vy1
             (Float.sub (lifetime p) (Float.mul dt 10))
             (max_lifetime p) (size p) (gravity p).

(** The particle system is its list of particles. *)
Definition System : Type := list Particle.

(** One turn of the loop of [emit]: six draws, two of them unused. *)
Definition emit_one (x0 y0 : Q) (c : Color) (speed : Q) (kind : Kind)
    (g : Random.t) : Particle * Random.t :=
  let '(_, g1) := Random.uniform 0 ((314159 # 100000) * 2) g in
  let '(_, g2) := Random.uniform 1 speed g1 in
  let '(vx, vy, g4) :=
    match kind with
    | Blood =>
        let '(vx, g3) := Random.uniform (- speed) speed g2 in
        let '(vy, g4) := Random.uniform (- speed) (-1) g3 in
        (vx, vy, g4)
    | Dust =>
        let '(vx, g3) := Random.uniform (-1) 1 g2 in
        let '(vy, g4) := Random.uniform (- (1 # 2)) (1 # 2) g3 in
        (vx, vy, g4)
    | Explosion =>
        let '(vx, g3) := Random.uniform (- speed) speed g2 in
        let '(vy, g4) := Random.uniform (- speed) speed g3 in
        (vx, vy, g4)
    end in
  let '(lifetime0, g5) := Random.uniform 20 40 g4 in
  let '(size0, g6) := Random.randint 2 4 g5 in
  (init x0 y0 c (vx, vy) lifetime0 size0, g6).

(** [ParticleSystem.emit]. *)
Fixpoint emit (x0 y0 : Q) (count : nat) (c : Color) (speed : Q)
    (kind : Kind) (ps : System) (g : Random.t) : System * Random.t :=
  match count with
  | O => (ps, g)
  | S n =>
      let '(p, g1) := emit_one x0 y0 c speed kind g in
      emit x0 y0 n c speed kind (ps ++ [p]) g1
  end.

(** [ParticleSystem.update]. *)
Definition update (dt : Q) (ps : System) : System :=
  filter (fun p => Py.ltb 0 (lifetime p)) (map (update_particle dt) ps).

End Particles.

(** ** utils/helpers.py: the save file *)

Module Save.

(** The Python values [json.load] can return. *)
Inductive PyValue : Type :=
| PyNone
| PyBool (b : bool)
| PyInt (n : Z)
| PyFloat (q : Q)
| PyStr (s : string)
| PyList (items : list PyValue)
| PyDict (items : list (string * PyValue)).

(** The exceptions that matter around the save file.  [IOError] is
    [OSError]; [JSONDecodeError] and [UnicodeDecodeError] are two
    unrelated subclasses of [ValueError]. *)
Inductive PyExn : Type :=
| IOError
| JSONDecodeError
| UnicodeDecodeError
| AttributeError.

(** The outcome of a call: a value or a raised exception. *)
Inductive Result (A : Type) : Type :=
| Returns (a : A)
| Raises (e : PyExn).
Arguments Returns {A} a.
Arguments Raises {A} e.

(** What [json.load] makes of the bytes of a file opened in text
    mode: a value, text that is not JSON, or bytes that are not text
    in the encoding of [open]. *)
Inductive Content : Type :=
| Json (v : PyValue)
| NotJson
| NotText.

(** A path that exists is something [open] refuses (a directory, a
    file without read permission) or a file with a content. *)
Inductive File : Type :=
| Unopenable
| Bytes (c : Content).

(** The disk: the paths that exist, and whether a write fails for a
    reason of the disk: a directory that cannot be made, a file that
    cannot be opened for writing, a medium that is read-only. *)
Record Disk : Type := mkDisk
  { files : list (string * File); read_only : bool }.

Fixpoint lookup (path : string) (fs : list (string * File)) : option File :=
  match fs with
  | [] => None
  | (p, f) :: rest => if String.eqb p path then Some f else lookup path rest
  end.

(** [os.path.exists]. *)
Definition exists_ (d : Disk) (path : string) : bool :=
  match lookup path (files d) with Some _ => true | None => false end.

(** [open(filepath, 'r')] followed by [json.load(f)]. *)
Definition open_and_load (d : Disk) (path : string) : Result PyValue :=
  match lookup path (files d) with
  | None => Raises IOError
  | Some Unopenable => Raises IOError
  | Some (Bytes (Json v)) => Returns v
  | Some (Bytes NotJson) => Raises JSONDecodeError
  | Some (Bytes NotText) => Raises UnicodeDecodeError
  end.

(** The dictionary [default_save] of [load_savegame]. *)
Definition default_save : PyValue :=
  PyDict [("level"%string, PyInt 0);
          ("player_health"%string, PyInt 100);
          ("enemies_defeated"%string, PyInt 0)].

(** [load_savegame]: the [except] clause names [JSONDecodeError] and
    [IOError] and lets every other exception through. *)
Definition load_savegame (d : Disk) (filepath : string) : Result PyValue :=
  if negb (exists_ d filepath) then Returns default_save
  else
    match open_and_load d filepath with
    | Returns data => Returns data
    | Raises JSONDecodeError => Returns default_save
    | Raises IOError => Returns default_save
    | Raises e => Raises e
    end.

(** Whether [os.path.dirname(filepath)] is not empty: the path holds
    a slash. *)
Definition has_directory (filepath : string) : bool :=
  match String.index 0 "/" filepath with
  | Some _ => true
  | None => false
  end.

(** [save_savegame]: the new disk and the returned flag.
    [os.makedirs] raises [FileNotFoundError], an [IOError], on the
    empty directory name of a path without a slash; it and [open] raise
    an [IOError] where the disk refuses the write. *)
Definition save_savegame (d : Disk) (filepath : string)
    (level player_health enemies_defeated : Z) : Disk * bool :=
  let save_data :=
    PyDict [("level"%string, PyInt level);
            ("player_health"%string, PyInt player_health);
            ("enemies_defeated"%string, PyInt enemies_defeated)] in
  if read_only d || negb (has_directory filepath) then (d, false)
  else (mkDisk ((filepath, Bytes (Json save_data)) :: files d) false, true).

(** [d.get(key, default)] on a value: only a dictionary has [get]. *)
Fixpoint assoc (key : string) (items : list (string * PyValue))
    : option PyValue :=
  match items with
  | [] => None
  | (k, v) :: rest => if String.eqb k key then Some v else assoc key rest
  end.

Definition get (v : PyValue) (key : string) (default : PyValue)
    : Result PyValue :=
  match v with
  | PyDict items =>
      Returns (match assoc key items with Some x => x | None => default end)
  | _ => Raises AttributeError
  end.

(** [v == 0] in Python: true of the int 0, the float 0.0 and [False]. *)
Definition eq_zero (v : PyValue) : bool :=
  match v with
  | PyInt n => (n =? 0)%Z
  | PyFloat q => Qeq_bool q 0
  | PyBool b => negb b
  | _ => false
  end.

(** Lines 84-88 of [GameScene.start], the "continue" branch: the
    value the scene takes as its score from the loaded save. *)
Definition continue_score (d : Disk) : Result PyValue :=
  match load_savegame d SAVEGAME_PATH with
  | Raises e => Raises e
  | Returns save_data =>
      match get save_data "score" (PyInt 0) with
      | Raises e => Raises e
      | Returns score =>
          if eq_zero score
          then get save_data "enemies_defeated" (PyInt 0)
          else Returns score
      end
  end.

End Save.

(** ** scenes/game_scene.py *)

Module GameScene.

(** A ghost log of the calls the scene makes to its helpers, in
    order: it makes "a spawn was requested" and "a burst was emitted"
    observable. *)
Inductive Call : Type :=
| CallMaintain
| CallSpawn
| CallEmit (x y : Q) (count : nat) (color : Color) (speed : Q)
           (kind : Particles.Kind)
| CallSave (level player_health enemies_defeated : Z).

(** The fields of the scene, then the world around it: the random
    generator, the disk and the call log. *)
Record t : Type := mk
  { player : option Player.t;
    enemies : list Enemy.t;
    score : Z;
    max_enemies_on_screen : Z;
    spawn_timer : Q;
    spawn_interval : Q;
    particle_system : Particles.System;
    screen_shake : Q;
    hit_stop_duration : Z;
    combo_count : Z;
    combo_timer : Q;
    combo_timeout : Q;
    paused : bool;
    game_over : bool;
    rng : Random.t;
    disk : Save.Disk;
    log : list Call }.

Definition set_player (v : option Player.t) (s : t) : t :=
  mk v (enemies s) (score s) (max_enemies_on_screen s) (spawn_timer s)
     (spawn_interval s) (particle_system s) (screen_shake s)
     (hit_stop_duration s) (combo_count s) (combo_timer s)
     (combo_timeout s) (paused s) (game_over s) (rng s) (disk s) (log s).

Definition set_enemies (v : list Enemy.t) (s : t) : t :=
  mk (player s) v (score s) (max_enemies_on_screen s) (spawn_timer s)
     (spawn_interval s) (particle_system s) (screen_shake s)
     (hit_stop_duration s) (combo_count s) (combo_timer s)
     (combo_timeout s) (paused s) (game_over s) (rng s) (disk s) (log s).

Definition set_score (v : Z) (s : t) : t :=
  mk (player s) (enemies s) v (max_enemies_on_screen s) (spawn_timer s)
     (spawn_interval s) (particle_system s) (screen_shake s)
     (hit_stop_duration s) (combo_count s) (combo_timer s)
     (combo_timeout s) (paused s) (game_over s) (rng s) (disk s) (log s).

Definition set_max_enemies_on_screen (v : Z) (s : t) : t :=
  mk (player s) (enemies s) (score s) v (spawn_timer s) (spawn_interval s)
     (particle_system s) (screen_shake s) (hit_stop_duration s)
     (combo_count s) (combo_timer s) (combo_timeout s) (paused s)
     (game_over s) (rng s) (disk s) (log s).

Definition set_spawn_timer (v : Q) (s : t) : t :=
  mk (player s) (enemies s) (score s) (max_enemies_on_screen s) v
     (spawn_interval s) (particle_system s) (screen_shake s)
     (hit_stop_duration s) (combo_count s) (combo_timer s)
     (combo_timeout s) (paused s) (game_over s) (rng s) (disk s) (log s).

Definition set_particle_system (v : Particles.System) (s : t) : t :=
  mk (player s) (enemies s) (score s) (max_enemies_on_screen s)
     (spawn_timer s) (spawn_interval s) v (screen_shake s)
     (hit_stop_duration s) (combo_count s) (combo_timer s)
     (combo_timeout s) (paused s) (game_over s) (rng s) (disk s) (log s).

Definition set_screen_shake (v : Q) (s : t) : t :=
  mk (player s) (enemies s) (score s) (max_enemies_on_screen s)
     (spawn_timer s) (spawn_interval s) (particle_system s) v
     (hit_stop_duration s) (combo_count s) (combo_timer s)
     (combo_timeout s) (paused s) (game_over s) (rng s) (disk s) (log s).

Definition set_hit_stop_duration (v : Z) (s : t) : t :=
  mk (player s) (enemies s) (score s) (max_enemies_on_screen s)
     (spawn_timer s) (spawn_interval s) (particle_system s)
     (screen_shake s) v (combo_count s) (combo_timer s) (combo_timeout s)
     (paused s) (game_over s) (rng s) (disk s) (log s).

Definition set_combo_count (v : Z) (s : t) : t :=
  mk (player s) (enemies s) (score s) (max_enemies_on_screen s)
     (spawn_timer s) (spawn_interval s) (particle_system s)
     (screen_shake s) (hit_stop_duration s) v (combo_timer s)
     (combo_timeout s) (paused s) (game_over s) (rng s) (disk s) (log s).

Definition set_combo_timer (v : Q) (s : t) : t :=
  mk (player s) (enemies s) (score s) (max_enemies_on_screen s)
     (spawn_timer s) (spawn_interval s) (particle_system s)
     (screen_shake s) (hit_stop_duration s) (combo_count s) v
     (combo_timeout s) (paused s) (game_over s) (rng s) (disk s) (log s).

Definition set_paused (v : bool) (s : t) : t :=
  mk (player s) (enemies s) (score s) (max_enemies_on_screen s)
     (spawn_timer s) (spawn_interval s) (particle_system s)
     (screen_shake s) (hit_stop_duration s) (combo_count s)
     (combo_timer s) (combo_timeout s) v (game_over s) (rng s) (disk s)
     (log s).

Definition set_game_over (v : bool) (s : t) : t :=
  mk (player s) (enemies s) (score s) (max_enemies_on_screen s)
     (spawn_timer s) (spawn_interval s) (particle_system s)
     (screen_shake s) (hit_stop_duration s) (combo_count s)
     (combo_timer s) (combo_timeout s) (paused s) v (rng s) (disk s)
     (log s).

Definition set_rng (v : Random.t) (s : t) : t :=
  mk (player s) (enemies s) (score s) (max_enemies_on_screen s)
     (spawn_timer s) (spawn_interval s) (particle_system s)
     (screen_shake s) (hit_stop_duration s) (combo_count s)
     (combo_timer s) (combo_timeout s) (paused s) (game_over s) v (disk s)
     (log s).

Definition set_disk (v : Save.Disk) (s : t) : t :=
  mk (player s) (enemies s) (score s) (max_enemies_on_screen s)
     (spawn_timer s) (spawn_interval s) (particle_system s)
     (screen_shake s) (hit_stop_duration s) (combo_count s)
     (combo_timer s) (combo_timeout s) (paused s) (game_over s) (rng s) v
     (log s).

Definition set_log (v : list Call) (s : t) : t :=
  mk (player s) (enemies s) (score s) (max_enemies_on_screen s)
     (spawn_timer s) (spawn_interval s) (particle_system s)
     (screen_shake s) (hit_stop_duration s) (combo_count s)
     (combo_timer s) (combo_timeout s) (paused s) (game_over s) (rng s)
     (disk s) v.

(** [GameScene.__init__], in a world with the given generator and
    disk. *)
Definition init (g : Random.t) (d : Save.Disk) : t :=
  {| player := None; enemies := [];
     score := 0; max_enemies_on_screen := 5;
     spawn_timer := 0; spawn_interval := 2000;
     particle_system := [];
     screen_shake := 0; hit_stop_duration := 0;
     combo_count := 0; combo_timer := 0; combo_timeout := 3000;
     paused := false; game_over := false;
     rng := g; disk := d; log := [] |}.

(** [self.particle_system.emit(...)]. *)
Definition emit (x y : Q) (count : nat) (color : Color) (speed : Q)
    (kind : Particles.Kind) (s : t) : t :=
  let '(ps, g) :=
    Particles.emit x y count color speed kind (particle_system s) (rng s) in
  set_log (log s ++ [CallEmit x y count color speed kind])
    (set_rng g (set_particle_system ps s)).

(** [_spawn_single_enemy]. *)
Definition _spawn_single_enemy (s : t) : t :=
  let base_speed_multiplier := 1 + inject_Z (score s / 10) * (1 # 10) in
  let '(speed_variance, g1) := Random.uniform (8 # 10) (13 # 10) (rng s) in
  let enemy_speed :=
    ENEMY_BASE_SPEED * base_speed_multiplier * speed_variance in
  let player_x :=
    match player s with
    | Some p => Py.int (Player.x p)
    | None => (WINDOW_WIDTH / 2)%Z
    end in
  let '(side, g2) := Random.choice01 g1 in
  let '(spawn_distance, g3) := Random.randint 600 1000 g2 in
  let spawn_x :=
    (if side =? 0 then player_x - spawn_distance
     else player_x + spawn_distance)%Z in
  let spawn_y := PLAYER_GROUND_Y in
  let enemy := Enemy.init spawn_x spawn_y (Some enemy_speed) in
  set_log (log s ++ [CallSpawn])
    (set_rng g3 (set_enemies (enemies s ++ [enemy]) s)).

(** [_maintain_enemies]. *)
Definition _maintain_enemies (s : t) : t :=
  let s1 := set_log (log s ++ [CallMaintain]) s in
  if (Z.of_nat (List.length (enemies s1)) <? max_enemies_on_screen s1)%Z
  then _spawn_single_enemy s1
  else s1.

(** [start(level=0, action="new_game")].  The "continue" branch reads
    its score with [Save.continue_score]. *)
Definition start_new_game (s : t) : t :=
  let s1 := set_combo_count 0
              (set_screen_shake 0 (set_game_over false (set_paused false s))) in
  let s2 := set_score 0 s1 in
  let player_start_x := (WINDOW_WIDTH / 2)%Z in
  let player_start_y := PLAYER_GROUND_Y in
  let s3 := set_player (Some (Player.init player_start_x player_start_y)) s2 in
  _maintain_enemies (set_enemies [] s3).

(** Lines 181-184: the screen shake decays. *)
Definition decay_shake (dt : Q) (s : t) : t :=
  if Py.ltb 0 (screen_shake s) then
    let v := screen_shake s - dt * 20 in
    set_screen_shake (if Py.ltb v 0 then 0 else v) s
  else s.

(** Lines 186-190: the combo timer runs down. *)
Definition decay_combo (dt : Q) (s : t) : t :=
  if (0 <? combo_count s)%Z then
    let s1 := set_combo_timer (combo_timer s - dt * 1000) s in
    if Py.leb (combo_timer s1) 0 then set_combo_count 0 s1 else s1
  else s.

(** Lines 202-207: dust behind a dashing player, three times in ten. *)
Definition dash_particles (s : t) : t :=
  match player s with
  | Some p =>
      if Player.is_dashing p then
        let '(u, g) := Random.random (rng s) in
        let s1 := set_rng g s in
        if Py.ltb u (3 # 10)
        then emit (Player.x p + 20) (Player.y p + 40) 2 WHITE 1
                  Particles.Dust s1
        else s1
      else s
  | None => s
  end.

(** The loop of lines 213-239 on the enemy list: the first live enemy
    that the hitbox overlaps takes 1 damage, and the loop breaks.
    Returns the list with that enemy damaged, and the enemy. *)
Fixpoint strike (hitbox : Rect) (es : list Enemy.t)
    : option (list Enemy.t * Enemy.t) :=
  match es with
  | [] => None
  | enemy :: rest =>
      if Enemy.is_alive enemy && check_collision hitbox (Enemy.rect enemy)
      then let enemy' := Enemy.take_damage 1 enemy in
           Some (enemy' :: rest, enemy')
      else match strike hitbox rest with
           | Some (rest', hit) => Some (enemy :: rest', hit)
           | None => None
           end
  end.

(** Lines 229-234: the heal at every tenth kill. *)
Definition heal_on_milestone (s : t) : t :=
  if (0 <? score s)%Z && (score s mod 10 =? 0)%Z then
    match player s with
    | Some p =>
        let p' := Player.set_health
                    (Z.min (Player.max_health p) (Player.health p + 10)) p in
        emit (Player.x p') (Player.y p') 15 GREEN 4 Particles.Dust
             (set_player (Some p') s)
    | None => s
    end
  else s.

(** Lines 218-237: what a kill sets off. *)
Definition on_kill (enemy : Enemy.t) (s : t) : t :=
  let s1 := set_score (score s + 1) s in
  let s2 := set_screen_shake 10 s1 in
  let s3 := emit (Enemy.x enemy + inject_Z (r_width (Enemy.rect enemy) / 2))
                 (Enemy.y enemy + inject_Z (r_height (Enemy.rect enemy) / 2))
                 20 RED 8 Particles.Blood s2 in
  let s4 := set_hit_stop_duration 3 s3 in
  let s5 := set_combo_count (combo_count s4 + 1) s4 in
  let s6 := set_combo_timer (combo_timeout s5) s5 in
  let s7 := heal_on_milestone s6 in
  _spawn_single_enemy s7.

(** Lines 213-239, for a player whose [attack()] returned [True]. *)
Definition resolve_attack (s : t) : t :=
  match player s with
  | Some p =>
      match strike (Player.get_attack_rect p) (enemies s) with
      | Some (es', hit) =>
          let s1 := set_enemies es' s in
          if negb (Enemy.is_alive hit) then on_kill hit s1 else s1
      | None => s
      end
  | None => s
  end.

(** Lines 209-239: the attack keys. *)
Definition attack_phase (keys : Keys) (s : t) : t :=
  if K_SPACE keys || K_x keys then
    match player s with
    | Some p =>
        let '(p', success) := Player.attack p in
        let s1 := set_player (Some p') s in
        if success then resolve_attack s1 else s1
    | None => s
    end
  else s.

(** Lines 198-239. *)
Definition player_phase (keys : Keys) (dt : Q) (s : t) : t :=
  match player s with
  | Some p =>
      if Player.is_alive p then
        let s1 := set_player (Some (Player.update keys dt p)) s in
        attack_phase keys (dash_particles s1)
      else s
  | None => s
  end.

(** Lines 249-259: an enemy touches the player. *)
Definition contact (enemy : Enemy.t) (s : t) : t :=
  match player s with
  | Some p =>
      if check_collision (Enemy.rect enemy) (Player.rect p) then
        if Py.leb (Player.attack_cooldown p) 0 && negb (Player.is_dashing p)
        then
          let p1 := Player.take_damage 1 p in
          let p2 := Player.set_attack_cooldown 1200 p1 in
          let s1 := set_player (Some p2) s in
          let s2 := set_screen_shake 5 s1 in
          let s3 := emit (Player.x p2) (Player.y p2) 5 RED 3
                         Particles.Explosion s2 in
          set_combo_count 0 s3
        else s
      else s
  | None => s
  end.

(** The loop of lines 244-259: the updated enemies and the scene. *)
Fixpoint enemy_loop (player_pos : Q * Q) (dt : Q) (es : list Enemy.t)
    (s : t) : list Enemy.t * t :=
  match es with
  | [] => ([], s)
  | enemy :: rest =>
      let '(enemy', s') :=
        if Enemy.is_alive enemy then
          let e1 := Enemy.update player_pos dt enemy in
          (e1, contact e1 s)
        else (enemy, s) in
      let '(rest', s'') := enemy_loop player_pos dt rest s' in
      (enemy' :: rest', s'')
  end.

(** Lines 241-259. *)
Definition enemy_phase (dt : Q) (s : t) : t :=
  match player s with
  | Some p =>
      if Player.is_alive p then
        let player_pos := (Player.x p, Player.y p) in
        let '(es', s') := enemy_loop player_pos dt (enemies s) s in
        set_enemies es' s'
      else s
  | None => s
  end.

(** Line 262. *)
Definition cull (s : t) : t :=
  set_enemies (filter Enemy.is_alive (enemies s)) s.

(** Lines 264-272: the periodic spawn. *)
Definition periodic_spawn (dt : Q) (s : t) : t :=
  let s1 := set_spawn_timer (spawn_timer s + dt * 10) s in
  if Py.ltb (spawn_interval s1) (spawn_timer s1) then
    let s2 := _maintain_enemies s1 in
    let s3 := set_spawn_timer 0 s2 in
    let target_enemies := (3 + score s3 / 5)%Z in
    set_max_enemies_on_screen (Z.min target_enemies 10) s3
  else s1.

(** Lines 274-278: the player has died. *)
Definition death_check (s : t) : t :=
  match player s with
  | Some p =>
      if negb (Player.is_alive p) then
        let s1 := set_game_over true s in
        let '(d, _) :=
          Save.save_savegame (disk s1) SAVEGAME_PATH 0 100 (score s1) in
        set_log (log s1 ++ [CallSave 0 100 (score s1)]) (set_disk d s1)
      else s
  | None => s
  end.

(** The scene named by the first component of a returned tuple;
    [(None, None)] is [None]. *)
Definition Transition : Type := option string.

(** The body of [update] past the two early returns. *)
Definition simulate (keys : Keys) (dt : Q) (s : t) : t :=
  let s1 := decay_shake dt s in
  let s2 := decay_combo dt s1 in
  let s3 := set_particle_system (Particles.update dt (particle_system s2)) s2 in
  let s4 := player_phase keys dt s3 in
  let s5 := enemy_phase dt s4 in
  let s6 := cull s5 in
  let s7 := periodic_spawn dt s6 in
  death_check s7.

(** [GameScene.update], with the keys that [pygame.key.get_pressed]
    returns that frame. *)
Definition update (keys : Keys) (dt : Q) (s : t) : t * Transition :=
  if paused s || game_over s then (s, None)
  else if (0 <? hit_stop_duration s)%Z
  then (set_hit_stop_duration (hit_stop_duration s - 1) s, None)
  else (simulate keys dt s, None).

(** The events [handle_event] tells apart. *)
Inductive Key : Type := K_ESCAPE | K_r | K_other.
Inductive Event : Type := KEYDOWN (key : Key) | OtherEvent.

Definition key_eqb (a b : Key) : bool :=
  match a, b with
  | K_ESCAPE, K_ESCAPE | K_r, K_r | K_other, K_other => true
  | _, _ => false
  end.

(** [GameScene.handle_event]. *)
Definition handle_event (event : Event) (s : t) : t * Transition :=
  match event with
  | KEYDOWN key =>
      let s1 := if key_eqb key K_ESCAPE
                then set_paused (negb (paused s)) s
                else s in
      if key_eqb key K_ESCAPE && paused s1
      then (s1, Some "main_menu"%string)
      else if game_over s1 && key_eqb key K_r
      then (start_new_game s1, None)
      else (s1, None)
  | OtherEvent => (s, None)
  end.

End GameScene.

(** ** Runs of frames *)

(** A frame: the keys held and the delta time [main.py] passes on. *)
Definition Frame : Type := (Keys * Q)%type.

(** The elapsed time of a frame in the unit of the cooldowns: the code
    subtracts [dt * 1000] from them ("Convert dt to milliseconds"). *)
Definition ms (dt : Q) : Q := dt * 1000.

Fixpoint elapsed_ms (frames : list Frame) : Q :=
  match frames with
  | [] => 0
  | (_, dt) :: rest => ms dt + elapsed_ms rest
  end.

(** [Player.update] called once per frame. *)
Fixpoint run_updates (frames : list Frame) (p : Player.t) : Player.t :=
  match frames with
  | [] => p
  | (keys, dt) :: rest => run_updates rest (Player.update keys dt p)
  end.

(** The elapsed time of the frames in which [Player.update] took the
    normal path, not the dash. *)
Fixpoint normal_elapsed_ms (frames : list Frame) (p : Player.t) : Q :=
  match frames with
  | [] => 0
  | (keys, dt) :: rest =>
      (if Player.is_dashing (Player.before_move keys dt p) then 0 else ms dt)
      + normal_elapsed_ms rest (Player.update keys dt p)
  end.

(** The horizontal velocity the direction keys ask for. *)
Definition walk_velocity (keys : Keys) : Q :=
  if K_LEFT keys || K_a keys then - PLAYER_SPEED
  else if K_RIGHT keys || K_d keys then PLAYER_SPEED
  else 0.


(** A frame as [main.py] makes it: its delta time is between 0 and
    the cap 2. *)
Definition bounded_dt (f : Frame) : Prop := 0 <= snd f <= 2.

(** The rounding a timer can have gathered over some frames: two
    roundings, [2 ^ -40] in all, per frame. *)
Fixpoint slack (frames : list Frame) : Q :=
  match frames with
  | [] => 0
  | _ :: rest => Float.tick_error + slack rest
  end.

(** A key state with only the left shift held. *)
Definition shift_keys : Keys :=
  mkKeys false false false false false false true false false false.

(** A key state with only the left arrow held. *)
Definition left_keys : Keys :=
  mkKeys true false false false false false false false false false.

(** The part of the player that movement never touches: health and
    the dash state. *)
Definition same_dash_state (p q : Player.t) : Prop :=
  Player.health q = Player.health p /\
  Player.max_health q = Player.max_health p /\
  Player.dash_cooldown q = Player.dash_cooldown p /\
  Player.dash_time q = Player.dash_time p /\
  Player.is_dashing q = Player.is_dashing p /\
  Player.dash_speed q = Player.dash_speed p.

(** The dash state of a player [elapsed] ms-equivalent after a dash was
    triggered, while the dash cooldown runs: the two timers are where
    exact arithmetic would have them, up to the rounding [tol]; a
    dashing player has dash time left, and a dash is not over before
    its 200 ms-equivalent, up to [tol]. *)
Definition dash_inv (elapsed tol : Q) (p : Player.t) : Prop :=
  Qabs (Player.dash_cooldown p - (1000 - elapsed)) <= tol /\
  (Player.is_dashing p = true ->
   Qabs (Player.dash_time p - (200 - elapsed)) <= tol /\
   0 < Player.dash_time p) /\
  (Player.is_dashing p = false -> 200 - tol <= elapsed).

(** The test of line 214 of the scene: a live enemy under the hitbox. *)
Definition struck (hitbox : Rect) (e : Enemy.t) : bool :=
  Enemy.is_alive e && check_collision hitbox (Enemy.rect e).

(** The test of lines 245-249: a live enemy that, once updated, touches
    the player. *)
Definition touches (player_pos : Q * Q) (dt : Q) (player_rect : Rect)
    (e : Enemy.t) : bool :=
  Enemy.is_alive e
  && check_collision (Enemy.rect (Enemy.update player_pos dt e)) player_rect.

Module Scene.
Import GameScene.

(** A frame that [update] simulates: not paused, not over, no
    hit-stop. *)
Definition live (s : t) : Prop :=
  paused s = false /\ game_over s = false /\ (hit_stop_duration s <= 0)%Z.

(** Steps 2 to 4 of the frame: shake, combo timer, particles. *)
Definition tick_effects (dt : Q) (s : t) : t :=
  let s2 := decay_combo dt (decay_shake dt s) in
  set_particle_system (Particles.update dt (particle_system s2)) s2.

(** The scene as the attack keys are polled, for a player [p] that
    was alive at the start of the frame. *)
Definition at_attack (keys : Keys) (dt : Q) (p : Player.t) (s : t) : t :=
  dash_particles
    (set_player (Some (Player.update keys dt p)) (tick_effects dt s)).

(** The scene as the enemy loop starts. *)
Definition at_enemies (keys : Keys) (dt : Q) (s : t) : t :=
  player_phase keys dt (tick_effects dt s).

(** Steps 8 to 10 of the frame. *)
Definition finish (dt : Q) (s : t) : t :=
  death_check (periodic_spawn dt (cull s)).

(** [update] called once per frame. *)
Fixpoint run (frames : list Frame) (s : t) : t :=
  match frames with
  | [] => s
  | (keys, dt) :: rest => run rest (fst (update keys dt s))
  end.




(** The enemy a spawn builds, from the draws it takes. *)
Definition spawned (s : t) : Enemy.t :=
  last (enemies (_spawn_single_enemy s)) (Enemy.init 0 0 None).

(** The player after an enemy's hit: 1 damage, then the cooldown
    field armed as the invincibility window. *)
Definition after_hit (p : Player.t) : Player.t :=
  Player.set_attack_cooldown 1200 (Player.take_damage 1 p).

(** The scene after an enemy's hit on the player [p]: lines 253-259. *)
Definition hit_scene (p : Player.t) (s : t) : t :=
  let s1 := set_player (Some (after_hit p)) s in
  let s2 := set_screen_shake 5 s1 in
  let s3 := emit (Player.x (after_hit p)) (Player.y (after_hit p)) 5 RED 3
              Particles.Explosion s2 in
  set_combo_count 0 s3.

(** What the enemy loop does to one enemy: lines 245-246. *)
Definition step_enemy (player_pos : Q * Q) (dt : Q) (e : Enemy.t) : Enemy.t :=
  if Enemy.is_alive e then Enemy.update player_pos dt e else e.

(** All the particles of a burst have the colour and the position
    [emit] was called with. *)
Definition burst_of (c : Color) (x y : Q) (n : nat)
    (burst : list Particles.Particle) : Prop :=
  List.length burst = n /\
  Forall (fun q => Particles.color q = c /\
                   Particles.x q = x /\ Particles.y q = y) burst.




(** Enemies whose health is at most 1, as [Enemy.__init__] makes them. *)
Definition bounded (es : list Enemy.t) : Prop :=
  Forall (fun e => (Enemy.health e <= 1)%Z) es.

(** A world to run examples in: every draw is 0, the disk is empty. *)
Definition tape0 : Random.t := Random.mk (fun _ => 0) 0.
Definition disk0 : Save.Disk := Save.mkDisk [] false.
Definition fresh : t := start_new_game (init tape0 disk0).

(** Two enemies within reach of the fresh player: both overlap the
    attack hitbox, and the first also touches the player. *)
Definition melee : t :=
  set_enemies [Enemy.init 520 622 None; Enemy.init 600 622 None] fresh.

(** The same with nine kills on the board and the player at half
    health. *)
Definition milestone : t :=
  set_score 9
    (set_player (Some (Player.set_health 50 (Player.init 512 622))) melee).

(** A key state with only the space bar held. *)
Definition attack_keys : Keys :=
  mkKeys false false false false false false false false true false.

End Scene.

(** ** utils/helpers.py: clamp *)

Module Helpers.

(** [clamp]. *)
Definition clamp (value min_value max_value : Q) : Q :=
  Py.max min_value (Py.min value max_value).

End Helpers.

(** ** main.py: the delta time of a frame *)

Module Game.

(** Lines 70-72 of [Game.run]: the ticks since the last frame in units
    of 16.67 ms, capped at 2. *)
Definition frame_dt (current_time last_time : Z) : Q :=
  let dt := inject_Z (current_time - last_time) / (1667 # 100) in
  Py.min dt 2.

End Game.

(** ** scenes/splash_screen.py *)

Module SplashScreen.

Definition SPLASH_DURATION : Z := 3000.

Record t : Type := mk
  { start_time : option Z; alpha : Z; fade_speed : Z }.

(** [SplashScreen.__init__]. *)
Definition init : t := mk None 0 3.

(** [start], at the tick count [pygame.time.get_ticks] returns. *)
Definition start (ticks : Z) (s : t) : t :=
  mk (Some ticks) 0 (fade_speed s).

(** [update], at the tick count [current_time].  The elapsed time is
    taken as 0 when [start_time] is falsy: [None], or the int 0. *)
Definition update (current_time : Z) (s : t) : t * GameScene.Transition :=
  let elapsed :=
    match start_time s with
    | Some t0 => if (t0 =? 0)%Z then 0%Z else (current_time - t0)%Z
    | None => 0%Z
    end in
  let s1 :=
    if (alpha s <? 255)%Z
    then mk (start_time s) (Z.min 255 (alpha s + fade_speed s)) (fade_speed s)
    else s in
  if (SPLASH_DURATION <=? elapsed)%Z
  then (s1, Some "main_menu"%string)
  else (s1, None).

Inductive Event : Type := KEYDOWN | MOUSEBUTTONDOWN | OtherEvent.

(** [handle_event]. *)
Definition handle_event (event : Event) (s : t) : t * GameScene.Transition :=
  match event with
  | KEYDOWN | MOUSEBUTTONDOWN => (s, Some "main_menu"%string)
  | OtherEvent => (s, None)
  end.

(** [update] called once per tick count of the list. *)
Fixpoint updates (ticks : list Z) (s : t) : t :=
  match ticks with
  | [] => s
  | now :: rest => updates rest (fst (update now s))
  end.

End SplashScreen.

(** ** scenes/main_menu.py *)

Module MainMenu.

(** The exceptions the menu can meet: those of the save file, a
    comparison of a non-number with 0, an index out of range. *)
Inductive Exn : Type :=
| FromSave (e : Save.PyExn)
| TypeError
| IndexError.

Inductive Result (A : Type) : Type :=
| Ok (a : A)
| Error (e : Exn).
Arguments Ok {A} a.
Arguments Error {A} e.

Record t : Type := mk { selected_option : Z; save_exists : bool }.

Definition menu_options : list string :=
  ["New Game"%string; "Continue"%string; "Exit"%string].

(** [v > 0] in Python: defined on ints, floats and bools only. *)
Definition gt_zero (v : Save.PyValue) : Result bool :=
  match v with
  | Save.PyInt n => Ok (0 <? n)%Z
  | Save.PyFloat q => Ok (Py.ltb 0 q)
  | Save.PyBool b => Ok b
  | _ => Error TypeError
  end.

(** [check_save_file]. *)
Definition check_save_file (d : Save.Disk) (m : t) : Result t :=
  match Save.load_savegame d SAVEGAME_PATH with
  | Save.Raises e => Error (FromSave e)
  | Save.Returns save_data =>
      match Save.get save_data "level" (Save.PyInt 0) with
      | Save.Raises e => Error (FromSave e)
      | Save.Returns level =>
          match gt_zero level with
          | Ok b => Ok (mk (selected_option m) b)
          | Error e => Error e
          end
      end
  end.

(** [MainMenu.__init__]. *)
Definition init (d : Save.Disk) : Result t :=
  check_save_file d (mk 0 false).

(** [start]. *)
Definition start (d : Save.Disk) (m : t) : Result t :=
  check_save_file d (mk 0 (save_exists m)).

(** [self.menu_options[i]]: indices from -3 to 2 are in range. *)
Definition option_at (i : Z) : Result string :=
  if ((-3 <=? i) && (i <? 3))%Z
  then Ok (nth (Z.to_nat (i mod 3)) menu_options ""%string)
  else Error IndexError.

(** What a returned tuple asks for: [(None, None)], the game scene
    with its data, or ["exit"]. *)
Inductive Transition : Type :=
| Stay
| ToGame (action : string) (level : Save.PyValue)
| ExitGame.

(** [_select_option]. *)
Definition _select_option (d : Save.Disk) (m : t) : Result Transition :=
  match option_at (selected_option m) with
  | Error e => Error e
  | Ok option =>
      if String.eqb option "New Game" then
        Ok (ToGame "new_game" (Save.PyInt 0))
      else if String.eqb option "Continue" then
        if save_exists m then
          match Save.load_savegame d SAVEGAME_PATH with
          | Save.Raises e => Error (FromSave e)
          | Save.Returns save_data =>
              match Save.get save_data "level" (Save.PyInt 0) with
              | Save.Raises e => Error (FromSave e)
              | Save.Returns level => Ok (ToGame "continue" level)
              end
          end
        else Ok Stay
      else if String.eqb option "Exit" then Ok ExitGame
      else Ok Stay
  end.

Inductive Key : Type :=
| K_UP | K_w | K_DOWN | K_s | K_RETURN | K_SPACE | K_other.
Inductive Event : Type := KEYDOWN (key : Key) | OtherEvent.

(** Lines 79-84: the selection moves up, past "Continue" when there is
    no save. *)
Definition move_up (m : t) : t :=
  let sel := ((selected_option m - 1) mod 3)%Z in
  let sel' :=
    if (sel =? 1)%Z && negb (save_exists m) then ((sel - 1) mod 3)%Z
    else sel in
  mk sel' (save_exists m).

(** Lines 86-91: the selection moves down. *)
Definition move_down (m : t) : t :=
  let sel := ((selected_option m + 1) mod 3)%Z in
  let sel' :=
    if (sel =? 1)%Z && negb (save_exists m) then ((sel + 1) mod 3)%Z
    else sel in
  mk sel' (save_exists m).

(** [handle_event]. *)
Definition handle_event (d : Save.Disk) (event : Event) (m : t)
    : Result (t * Transition) :=
  match event with
  | KEYDOWN K_UP | KEYDOWN K_w => Ok (move_up m, Stay)
  | KEYDOWN K_DOWN | KEYDOWN K_s => Ok (move_down m, Stay)
  | KEYDOWN K_RETURN | KEYDOWN K_SPACE =>
      match _select_option d m with
      | Ok tr => Ok (m, tr)
      | Error e => Error e
      end
  | KEYDOWN K_other | OtherEvent => Ok (m, Stay)
  end.

(** A menu whose selection is one it can show: in range, and not on
    "Continue" when there is no save. *)
Definition valid (m : t) : Prop :=
  (0 <= selected_option m < 3)%Z /\
  (save_exists m = false -> selected_option m <> 1%Z).

End MainMenu.

(** ** scenes/game_scene.py: the "continue" branch of start, health *)

Module Start.


End Start.

(** ** Notions for the properties of the rest of the code *)

Module More.
Import GameScene.

(** [take_damage] called once per amount. *)
Fixpoint take_hits (amounts : list Z) (p : Player.t) : Player.t :=
  match amounts with
  | [] => p
  | a :: rest => take_hits rest (Player.take_damage a p)
  end.

(** The keys with the two jump keys released. *)
Definition without_jump (keys : Keys) : Keys :=
  mkKeys (K_LEFT keys) (K_a keys) (K_RIGHT keys) (K_d keys) false false
         (K_LSHIFT keys) (K_RSHIFT keys) (K_SPACE keys) (K_x keys).

(** [ParticleSystem.update] called [n] times with the same [dt]. *)
Fixpoint age (n : nat) (dt : Q) (ps : Particles.System) : Particles.System :=
  match n with
  | O => ps
  | S k => age k dt (Particles.update dt ps)
  end.

(** Whether [ParticleSystem.update] keeps a particle: its lifetime
    after [Particle.update] is above 0. *)
Definition survives (dt : Q) (q : Particles.Particle) : bool :=
  Py.ltb 0 (Particles.lifetime (Particles.update_particle dt q)).

(** A tape all of whose draws are in the unit interval, as those of
    [random.random] are. *)
Definition unit_draws (g : Random.t) : Prop :=
  forall n, 0 <= Random.draws g n /\ Random.draws g n < 1.

(** A particle as [emit] makes it: of the colour and at the place asked
    for, its lifetime between 20 and 40 and equal to [max_lifetime],
    its size from 2 to 4, its gravity 0.2. *)
Definition fresh_particle (c : Color) (x0 y0 : Q) (q : Particles.Particle)
    : Prop :=
  Particles.color q = c /\ Particles.x q = x0 /\ Particles.y q = y0 /\
  20 <= Particles.lifetime q <= 40 /\
  Particles.max_lifetime q = Particles.lifetime q /\
  (2 <= Particles.size q <= 4)%Z /\
  Particles.gravity q == 2 # 10.

(** The player's health moved by at most [lo] down and [hi] up, its
    maximum unchanged. *)
Definition drift (lo hi : Z) (o o' : option Player.t) : Prop :=
  match o, o' with
  | Some p, Some q =>
      Player.max_health q = Player.max_health p /\
      (Player.health p - lo <= Player.health q <= Player.health p + hi)%Z
  | None, None => True
  | _, _ => False
  end.

(** A player, if there is one, whose health is between 0 and its
    maximum. *)
Definition in_range (o : option Player.t) : Prop :=
  match o with
  | Some p => (0 <= Player.health p <= Player.max_health p)%Z
  | None => True
  end.

(** The game feel is sane: the shake is not negative, the combo count
    is not negative, and a running combo has time left. *)
Definition effects_ok (s : t) : Prop :=
  0 <= screen_shake s /\
  (0 <= combo_count s)%Z /\
  0 < combo_timeout s /\
  ((0 < combo_count s)%Z -> 0 < combo_timer s).




(** The player's health is between 0 and its maximum. *)
Definition health_ok (s : t) : Prop :=
  match player s with
  | Some p => (0 <= Player.health p <= Player.max_health p)%Z
  | None => True
  end.



End More.

(** * Properties of the player and the enemies *)

Section Comparisons.

Lemma ltb_true (a b : Q) : Py.ltb a b = true <-> a < b.
Proof.
  unfold Py.ltb. rewrite negb_true_iff.
  split; intro H.
  - apply Qnot_le_lt. intro Hle.
    apply Qle_bool_iff in Hle. congruence.
  - destruct (Qle_bool b a) eqn:E; [|reflexivity].
    apply Qle_bool_iff in E. exfalso. apply (Qlt_not_le _ _ H E).
Qed.

Lemma ltb_false (a b : Q) : Py.ltb a b = false <-> b <= a.
Proof.
  unfold Py.ltb. rewrite negb_false_iff. apply Qle_bool_iff.
Qed.

Lemma leb_true (a b : Q) : Py.leb a b = true <-> a <= b.
Proof. apply Qle_bool_iff. Qed.

Lemma leb_false (a b : Q) : Py.leb a b = false <-> b < a.
Proof.
  unfold Py.leb. split; intro H.
  - apply Qnot_le_lt. intro Hle. apply Qle_bool_iff in Hle. congruence.
  - destruct (Qle_bool a b) eqn:E; [|reflexivity].
    apply Qle_bool_iff in E. exfalso. apply (Qlt_not_le _ _ H E).
Qed.

(** The clamp idiom [max(0, min(v, hi))] lands in [[0, hi]]. *)
Lemma clamp_range (v hi : Q) :
  0 <= hi -> 0 <= Py.max 0 (Py.min v hi) <= hi.
Proof.
  intro Hhi. unfold Py.max, Py.min.
  destruct (Py.ltb hi v) eqn:E1.
  - destruct (Py.ltb 0 hi) eqn:E2.
    + split; [assumption | apply Qle_refl].
    + split; [apply Qle_refl | assumption].
  - apply ltb_false in E1.
    destruct (Py.ltb 0 v) eqn:E2.
    + apply ltb_true in E2. split; [apply Qlt_le_weak; assumption | assumption].
    + split; [apply Qle_refl | assumption].
Qed.

End Comparisons.

(** Case analysis on a float comparison, with the fact it decides. *)
Ltac case_cmp c :=
  let E := fresh "E" in
  destruct c eqn:E;
  [ first [apply ltb_true in E | apply leb_true in E]
  | first [apply ltb_false in E | apply leb_false in E] ].

(** * Float rounding

    One rounding of [Float.fl] is off by at most half the spacing of
    the floats; for the timers of the game, which stay below 4096 in
    magnitude, that is at most [2 ^ -41]. *)

Section FloatRounding.
Import Float.

Lemma pow2_pos k : 0 < pow2 k.
Proof. apply Qpower_0_lt. reflexivity. Qed.

Lemma pow2_mono a b : (a <= b)%Z -> pow2 a <= pow2 b.
Proof. intro H. apply Qpower_le_compat_l; [exact H | discriminate]. Qed.

Lemma nearest_even_error x :
  - (1 # 2) <= inject_Z (nearest_even x) - x <= 1 # 2.
Proof.
  unfold nearest_even.
  pose proof (Qfloor_le x) as H1. pose proof (Qlt_floor x) as H2.
  rewrite inject_Z_plus in H2. change (inject_Z 1) with 1 in H2.
  destruct (Qcompare_spec (x - inject_Z (Qfloor x)) (1 # 2)) as [E | E | E].
  - destruct (Z.even (Qfloor x)).
    + split; lra.
    + rewrite inject_Z_plus. change (inject_Z 1) with 1. split; lra.
  - split; lra.
  - rewrite inject_Z_plus. change (inject_Z 1) with 1. split; lra.
Qed.

(** The exponent [ilog2] finds is not above the true one. *)
Lemma ilog2_upper q B :
  ~ q == 0 -> Qabs q < pow2 (B + 1) -> (ilog2 q <= B)%Z.
Proof.
  intros Hq Hlt. unfold ilog2.
  set (a := Z.log2 (Z.abs (Qnum q))). set (b := Z.log2 (Z.pos (Qden q))).
  assert (Hn : (0 < Z.abs (Qnum q))%Z).
  { destruct q as [n d]. unfold Qeq in Hq. cbn in Hq |- *. lia. }
  destruct (Z.log2_spec _ Hn) as [Ha _]. fold a in Ha.
  destruct (Z.log2_spec (Z.pos (Qden q)) eq_refl) as [_ Hb]. fold b in Hb.
  assert (Ha0 : (0 <= a)%Z) by apply Z.log2_nonneg.
  assert (Hb0 : (0 <= b)%Z) by apply Z.log2_nonneg.
  assert (Hlow : pow2 (a - b - 1) < Qabs q).
  { replace (a - b - 1)%Z with (a - (b + 1))%Z by lia.
    unfold pow2. rewrite Qpower_minus by discriminate.
    change 2 with (inject_Z 2).
    rewrite <- !Zpower_Qpower by lia.
    apply Qlt_shift_div_r.
    - change 0 with (inject_Z 0). rewrite <- Zlt_Qlt.
      apply Z.pow_pos_nonneg; lia.
    - destruct q as [n d]. unfold Qlt. cbn in *.
      rewrite Z.mul_1_r.
      replace (Z.succ b) with (b + 1)%Z in Hb by lia.
      assert (H2a : (0 < 2 ^ a)%Z) by (apply Z.pow_pos_nonneg; lia).
      nia. }
  assert (H12 : 1 < 2) by reflexivity.
  destruct (Qle_bool (pow2 (a - b)) (Qabs q)) eqn:E.
  - apply Qle_bool_iff in E.
    assert (Hc : pow2 (a - b) < pow2 (B + 1)) by lra.
    apply Qpower_lt_compat_l_inv in Hc; [lia | exact H12].
  - assert (Hc : pow2 (a - b - 1) < pow2 (B + 1)) by lra.
    apply Qpower_lt_compat_l_inv in Hc; [lia | exact H12].
Qed.

(** One rounding of a value of magnitude at most 4096 is off by at
    most [2 ^ -41]. *)
Lemma fl_error q :
  Qabs q <= 4096 -> Qabs (fl q - q) <= half_ulp.
Proof.
  intro Hq. unfold fl.
  destruct (Qeq_bool q 0) eqn:E.
  - apply Qeq_bool_iff in E. apply Qabs_Qle_condition.
    unfold half_ulp. split; lra.
  - assert (Hnz : ~ q == 0).
    { intro H. apply Qeq_bool_iff in H. congruence. }
    assert (He : (ilog2 q <= 12)%Z).
    { apply ilog2_upper; [exact Hnz|].
      eapply Qle_lt_trans; [exact Hq | reflexivity]. }
    pose proof (pow2_pos (Z.max (ilog2 q) (-1022) - 52)) as Hu.
    assert (HU : quantum q <= tick_error).
    { unfold quantum.
      eapply Qle_trans; [apply (pow2_mono _ (-40)); lia|].
      vm_compute. discriminate. }
    fold (quantum q) in Hu.
    pose proof (nearest_even_error (q / quantum q)) as Hr.
    assert (Hy : q / quantum q * quantum q == q).
    { field. lra. }
    revert Hr Hy. generalize (q / quantum q). intros y Hr Hy.
    revert Hu HU Hr Hy.
    generalize (inject_Z (nearest_even y)). generalize (quantum q).
    intros u n Hu HU Hr Hy.
    unfold tick_error in HU.
    apply Qabs_Qle_condition. unfold half_ulp. split; nra.
Qed.

(** One tick of a timer, [t -= dt * c] in float arithmetic, is within
    [2 ^ -40] of the exact difference. *)
Lemma tick_close c t dt :
  0 <= c <= 1000 -> 0 <= dt <= 2 -> Qabs t <= 2000 ->
  Qabs (sub t (mul dt c) - (t - dt * c)) <= tick_error.
Proof.
  intros Hc Hdt Ht. unfold sub, mul.
  assert (Hm : 0 <= dt * c <= 2000) by nra.
  revert Hm. generalize (dt * c). intros m Hm.
  assert (E1 : Qabs (fl m - m) <= half_ulp).
  { apply fl_error. apply Qabs_Qle_condition. lra. }
  apply Qabs_Qle_condition in E1. apply Qabs_Qle_condition in Ht.
  unfold half_ulp in E1.
  revert E1. generalize (fl m). intros m' E1.
  assert (E2 : Qabs (fl (t - m') - (t - m')) <= half_ulp).
  { apply fl_error. apply Qabs_Qle_condition. lra. }
  apply Qabs_Qle_condition in E2. unfold half_ulp in E2.
  apply Qabs_Qle_condition. unfold tick_error. lra.
Qed.

End FloatRounding.

(** Turns the bounds on absolute values into pairs of inequalities. *)
Ltac qabs :=
  repeat match goal with
    | H : Qabs _ <= _ |- _ => apply Qabs_Qle_condition in H; destruct H
    end;
  try apply Qabs_Qle_condition.

(** C7. Horizontal clamp: after any update of the player, on the dash
    path as on the normal path, and after any update of an enemy, for
    all keys, positions and delta times, the entity's x coordinate lies
    between 0 and the screen width less the entity's width. *)
Theorem horizontal_clamp :
  (forall keys dt p,
      0 <= Player.x (Player.update keys dt p)
        <= inject_Z (WINDOW_WIDTH - PLAYER_WIDTH)) /\
  (forall keys dt p,
      0 <= Player.x (Player.dash_move dt p)
        <= inject_Z (WINDOW_WIDTH - PLAYER_WIDTH) /\
      0 <= Player.x (Player.normal_move keys dt p)
        <= inject_Z (WINDOW_WIDTH - PLAYER_WIDTH)) /\
  (forall player_pos dt e,
      0 <= Enemy.x (Enemy.update player_pos dt e)
        <= inject_Z (WINDOW_WIDTH - ENEMY_WIDTH)).
Proof.
  assert (Hw : 0 <= inject_Z (WINDOW_WIDTH - PLAYER_WIDTH)) by (vm_compute; discriminate).
  assert (Hd : forall dt p,
             0 <= Player.x (Player.dash_move dt p)
               <= inject_Z (WINDOW_WIDTH - PLAYER_WIDTH)).
  { intros dt p. unfold Player.dash_move, Player.clamp_x. cbn.
    apply clamp_range, Hw. }
  assert (Hn : forall keys dt p,
             0 <= Player.x (Player.normal_move keys dt p)
               <= inject_Z (WINDOW_WIDTH - PLAYER_WIDTH)).
  { intros keys dt p. unfold Player.normal_move, Player.tick_attack_cooldown.
    match goal with |- context [Py.ltb 0 ?c] => destruct (Py.ltb 0 c) end;
      cbn; apply clamp_range, Hw. }
  split; [|split].
  - intros keys dt p. unfold Player.update.
    destruct (Player.is_dashing _); [apply Hd | apply Hn].
  - intros keys dt p. split; [apply Hd | apply Hn].
  - intros [px py] dt e. unfold Enemy.update.
    destruct (Enemy.pursue _ e) as [[vx facing] st]. cbn.
    apply clamp_range. vm_compute; discriminate.
Qed.

Section PlayerFields.

(** Splits on every conditional and match of the goal. *)
Ltac split_branches :=
  repeat match goal with
    | |- context [if ?c then _ else _] => destruct c
    | |- context [match ?c with Idle => _ | Run => _ | Jump => _ end] =>
        destruct c
    end.

Lemma horizontal_input_velocity keys p :
  Player.velocity_x (Player.horizontal_input keys p) = walk_velocity keys.
Proof.
  unfold Player.horizontal_input, walk_velocity.
  destruct (K_LEFT keys || K_a keys); [|destruct (K_RIGHT keys || K_d keys)];
    cbn; split_branches; reflexivity.
Qed.

Lemma horizontal_input_keeps keys p :
  same_dash_state p (Player.horizontal_input keys p) /\
  Player.attack_cooldown (Player.horizontal_input keys p)
  = Player.attack_cooldown p.
Proof.
  unfold Player.horizontal_input, same_dash_state.
  split_branches; cbn; repeat split; reflexivity.
Qed.

Lemma after_input_keeps dt p :
  let q := Player.sync_rect
             (Player.clamp_x
                (Player.ground_collision
                   (Player.integrate dt
                      (Player.apply_gravity p)))) in
  same_dash_state p q /\
  Player.attack_cooldown q = Player.attack_cooldown p /\
  Player.velocity_x q = Player.velocity_x p.
Proof.
  unfold Player.ground_collision, Player.integrate, Player.apply_gravity,
    same_dash_state.
  split_branches; cbn; repeat split; reflexivity.
Qed.

Lemma jump_input_keeps keys p :
  same_dash_state p (Player.jump_input keys p) /\
  Player.attack_cooldown (Player.jump_input keys p)
  = Player.attack_cooldown p /\
  Player.velocity_x (Player.jump_input keys p) = Player.velocity_x p.
Proof.
  unfold Player.jump_input, same_dash_state.
  split_branches; cbn; repeat split; reflexivity.
Qed.

Lemma tick_attack_cooldown_keeps dt p :
  same_dash_state p (Player.tick_attack_cooldown dt p) /\
  Player.velocity_x (Player.tick_attack_cooldown dt p) = Player.velocity_x p.
Proof.
  unfold Player.tick_attack_cooldown, same_dash_state.
  split_branches; cbn; repeat split; reflexivity.
Qed.

Lemma same_dash_state_trans p q r :
  same_dash_state p q -> same_dash_state q r -> same_dash_state p r.
Proof.
  unfold same_dash_state. intros (?&?&?&?&?&?) (?&?&?&?&?&?).
  repeat split; congruence.
Qed.

(** The normal path: the dash state is kept, the horizontal velocity
    is the one the keys ask for, the attack cooldown ticks. *)
Lemma normal_move_fields keys dt p :
  same_dash_state p (Player.normal_move keys dt p) /\
  Player.velocity_x (Player.normal_move keys dt p) = walk_velocity keys /\
  Player.attack_cooldown (Player.normal_move keys dt p)
  = (if Py.ltb 0 (Player.attack_cooldown p)
     then Float.sub (Player.attack_cooldown p) (Float.mul dt 1000)
     else Player.attack_cooldown p).
Proof.
  unfold Player.normal_move.
  destruct (horizontal_input_keeps keys p) as [H1 C1].
  pose proof (horizontal_input_velocity keys p) as V1.
  set (p1 := Player.horizontal_input keys p) in *.
  destruct (jump_input_keeps keys p1) as (H2 & C2 & V2).
  set (p2 := Player.jump_input keys p1) in *.
  destruct (after_input_keeps dt p2) as (H3 & C3 & V3). cbv zeta in H3, C3, V3.
  set (p6 := Player.sync_rect _) in *.
  destruct (tick_attack_cooldown_keeps dt p6) as (H4 & V4).
  split; [|split].
  - cbn. eapply same_dash_state_trans; [|exact H4].
    eapply same_dash_state_trans; [|exact H3].
    eapply same_dash_state_trans; [exact H1|exact H2].
  - cbn. change (Player.velocity_x (Player.tick_attack_cooldown dt p6)
                 = walk_velocity keys). congruence.
  - cbn. change (Player.attack_cooldown (Player.tick_attack_cooldown dt p6) = 
      if Py.ltb 0 (Player.attack_cooldown p)
      then Float.sub (Player.attack_cooldown p) (Float.mul dt 1000)
      else Player.attack_cooldown p).
    unfold Player.tick_attack_cooldown.
    replace (Player.attack_cooldown p6) with (Player.attack_cooldown p)
      by congruence.
    destruct (Py.ltb 0 (Player.attack_cooldown p)); [reflexivity | congruence].
Qed.

(** The dash path: nothing but position and velocity moves. *)
Lemma dash_move_fields dt p :
  same_dash_state p (Player.dash_move dt p) /\
  Player.attack_cooldown (Player.dash_move dt p) = Player.attack_cooldown p.
Proof.
  unfold Player.dash_move, same_dash_state. cbn. repeat split; reflexivity.
Qed.

End PlayerFields.

Section AttackCooldown.

Lemma before_move_attack_cooldown keys dt p :
  Player.attack_cooldown (Player.before_move keys dt p)
  = Player.attack_cooldown p.
Proof.
  unfold Player.before_move, Player.tick_dash_timers, Player.start_dash.
  repeat match goal with
    | |- context [if ?c then _ else _] => destruct c
    end; reflexivity.
Qed.

(** What one update does to the attack cooldown: nothing on the dash
    path, one tick on the normal path while it is positive. *)
Lemma update_attack_cooldown keys dt p :
  Player.attack_cooldown (Player.update keys dt p)
  = (if Player.is_dashing (Player.before_move keys dt p)
     then Player.attack_cooldown p
     else if Py.ltb 0 (Player.attack_cooldown p)
          then Float.sub (Player.attack_cooldown p) (Float.mul dt 1000)
          else Player.attack_cooldown p).
Proof.
  unfold Player.update.
  pose proof (before_move_attack_cooldown keys dt p) as Hb.
  destruct (Player.is_dashing (Player.before_move keys dt p)).
  - destruct (dash_move_fields dt (Player.before_move keys dt p)) as [_ Hc].
    congruence.
  - destruct (normal_move_fields keys dt (Player.before_move keys dt p))
      as (_ & _ & Hc).
    rewrite Hc, Hb. reflexivity.
Qed.

Lemma normal_elapsed_nonneg frames :
  Forall bounded_dt frames -> forall p, 0 <= normal_elapsed_ms frames p.
Proof.
  induction 1 as [|[keys dt] rest Hdt _ IH]; intro p; cbn.
  - apply Qle_refl.
  - unfold bounded_dt in Hdt; cbn in Hdt. specialize (IH (Player.update keys dt p)).
    destruct (Player.is_dashing _); unfold ms; lra.
Qed.

Lemma normal_elapsed_le_elapsed frames :
  Forall bounded_dt frames ->
  forall p, normal_elapsed_ms frames p <= elapsed_ms frames.
Proof.
  induction 1 as [|[keys dt] rest Hdt _ IH]; intro p; cbn.
  - apply Qle_refl.
  - unfold bounded_dt in Hdt; cbn in Hdt. specialize (IH (Player.update keys dt p)).
    destruct (Player.is_dashing _); unfold ms; lra.
Qed.

Lemma slack_nonneg frames : 0 <= slack frames.
Proof.
  induction frames as [|f rest IH]; cbn; [apply Qle_refl|].
  unfold Float.tick_error. lra.
Qed.

(** A cooldown that has run out stays run out. *)
Lemma cooldown_stays_expired frames :
  forall p, Player.attack_cooldown p <= 0 ->
            Player.attack_cooldown (run_updates frames p) <= 0.
Proof.
  induction frames as [|[keys dt] rest IH]; intros p Hp; cbn; [exact Hp|].
  apply IH. rewrite update_attack_cooldown.
  destruct (Player.is_dashing _); [exact Hp|].
  case_cmp (Py.ltb 0 (Player.attack_cooldown p)); [lra | exact Hp].
Qed.

(** A running cooldown follows the time spent on the normal path, up
    to the rounding of its ticks: while it runs it is the exact
    difference within the slack, and it has not run out before the
    time reaches it, within the slack. *)
Lemma cooldown_run frames :
  Forall bounded_dt frames ->
  forall p,
    0 < Player.attack_cooldown p ->
    Player.attack_cooldown p + slack frames <= 2000 ->
    (Player.attack_cooldown (run_updates frames p) <= 0 ->
     Player.attack_cooldown p - normal_elapsed_ms frames p <= slack frames) /\
    (0 < Player.attack_cooldown (run_updates frames p) ->
     Qabs (Player.attack_cooldown (run_updates frames p)
           - (Player.attack_cooldown p - normal_elapsed_ms frames p))
     <= slack frames).
Proof.
  induction 1 as [|[keys dt] rest Hdt Hrest IH]; intros p Hp Hcap;
    cbn [run_updates normal_elapsed_ms slack] in *.
  - split; intro H; [lra | qabs; split; lra].
  - unfold bounded_dt in Hdt; cbn in Hdt.
    pose proof (update_attack_cooldown keys dt p) as Hu.
    pose proof (normal_elapsed_nonneg rest Hrest (Player.update keys dt p))
      as Hn.
    pose proof (slack_nonneg rest) as Hs.
    assert (He : 0 < Float.tick_error) by reflexivity.
    destruct (Player.is_dashing (Player.before_move keys dt p)).
    + destruct (IH (Player.update keys dt p)) as [A B];
        [rewrite Hu; exact Hp | rewrite Hu; lra |].
      rewrite Hu in A, B.
      split; intro H; [specialize (A H); lra | specialize (B H)].
      qabs. split; lra.
    + assert (E : Py.ltb 0 (Player.attack_cooldown p) = true)
        by (apply ltb_true; exact Hp).
      rewrite E in Hu.
      assert (Ht : Qabs (Player.attack_cooldown (Player.update keys dt p)
                         - (Player.attack_cooldown p - dt * 1000))
                   <= Float.tick_error).
      { rewrite Hu. apply tick_close; [lra | exact Hdt |].
        apply Qabs_Qle_condition. lra. }
      clear Hu. apply Qabs_Qle_condition in Ht. destruct Ht as [Ht1 Ht2].
      unfold ms.
      destruct (Qlt_le_dec 0 (Player.attack_cooldown (Player.update keys dt p)))
        as [Hpos | Hexp].
      * destruct (IH (Player.update keys dt p) Hpos) as [A B]; [lra|].
        split; intro H; [specialize (A H); lra | specialize (B H)].
        qabs. split; lra.
      * pose proof (cooldown_stays_expired rest _ Hexp) as Hstay.
        split; intro H; lra.
Qed.

End AttackCooldown.

(** C8, amended. [attack] succeeds exactly when the cooldown is at most
    0, and then sets it to 800; otherwise it fails and changes nothing.
    After a successful attack and a run of [Player.update] calls with
    delta times between 0 and 2, the next attack succeeds when at
    least 800 ms-equivalent have elapsed in the updates that took the
    normal path (the dash path returns before the cooldown is ticked),
    and fails when less than 800 have; both up to the rounding of the
    float subtractions, at most [2 ^ -40] per frame.  In particular it
    fails when less than 800 ms-equivalent have elapsed in all.  The
    timing is that of [Player.update] alone: an enemy's hit in the
    scene sets the same field to 1200, and the next attack is then
    refused whatever time has passed since the last one. *)
Theorem attack_cooldown_gate (p : Player.t) (frames : list Frame) :
  Forall bounded_dt frames ->
  slack frames <= 1 ->
  Player.attack_cooldown p <= 0 ->
  let p1 := fst (Player.attack p) in
  let p2 := run_updates frames p1 in
  Player.attack p = (Player.set_attack_cooldown 800 p, true) /\
  (forall q, 0 < Player.attack_cooldown q -> Player.attack q = (q, false)) /\
  (forall q, snd (Player.attack q) = true <-> Player.attack_cooldown q <= 0) /\
  (800 + slack frames <= normal_elapsed_ms frames p1 ->
   Player.attack p2 = (Player.set_attack_cooldown 800 p2, true)) /\
  (normal_elapsed_ms frames p1 < 800 - slack frames ->
   Player.attack p2 = (p2, false)) /\
  (elapsed_ms frames < 800 - slack frames ->
   Player.attack p2 = (p2, false)) /\
  (forall q, Player.attack (Scene.after_hit q) = (Scene.after_hit q, false)).
Proof.
  intros Hdt Hslack Hp p1 p2.
  assert (Ha : Player.attack p = (Player.set_attack_cooldown 800 p, true)).
  { unfold Player.attack. apply leb_true in Hp. rewrite Hp. reflexivity. }
  assert (Hfail : forall q, 0 < Player.attack_cooldown q ->
                            Player.attack q = (q, false)).
  { intros q Hq. unfold Player.attack. apply leb_false in Hq.
    rewrite Hq. reflexivity. }
  assert (Hiff : forall q, snd (Player.attack q) = true
                           <-> Player.attack_cooldown q <= 0).
  { intro q. unfold Player.attack.
    case_cmp (Py.leb (Player.attack_cooldown q) 0); cbn.
    - split; [intros _; exact E | reflexivity].
    - split; [discriminate | intro; lra]. }
  assert (Hp1 : Player.attack_cooldown p1 = 800).
  { unfold p1. rewrite Ha. reflexivity. }
  destruct (cooldown_run frames Hdt p1) as [A B];
    [rewrite Hp1; reflexivity | rewrite Hp1; lra |].
  fold p2 in A, B. rewrite Hp1 in A, B.
  pose proof (slack_nonneg frames) as Hs.
  assert (Hlate : 800 + slack frames <= normal_elapsed_ms frames p1 ->
                  Player.attack_cooldown p2 <= 0).
  { intro H. destruct (Qlt_le_dec 0 (Player.attack_cooldown p2)) as [Hc|Hc];
      [|exact Hc].
    specialize (B Hc). qabs. lra. }
  assert (Hearly : normal_elapsed_ms frames p1 < 800 - slack frames ->
                   0 < Player.attack_cooldown p2).
  { intro H. apply Qnot_le_lt. intro Hc. specialize (A Hc). lra. }
  split; [exact Ha|]. split; [exact Hfail|]. split; [exact Hiff|].
  split; [|split; [|split]].
  - intro H. apply Hlate, leb_true in H.
    unfold Player.attack. rewrite H. reflexivity.
  - intro H. apply Hfail, Hearly, H.
  - intro H. apply Hfail, Hearly.
    pose proof (normal_elapsed_le_elapsed frames Hdt p1) as Hle. lra.
  - intro q. apply Hfail. reflexivity.
Qed.

(** A witness of [attack_cooldown_gate]: the fresh player, then one
    frame of standing still. *)
Lemma attack_cooldown_gate_witness :
  let p := Player.init 512 622 in
  let frames := [(no_keys, 1)] in
  let p1 := fst (Player.attack p) in
  let p2 := run_updates frames p1 in
  Player.attack p = (Player.set_attack_cooldown 800 p, true) /\
  (forall q, 0 < Player.attack_cooldown q -> Player.attack q = (q, false)) /\
  (forall q, snd (Player.attack q) = true <-> Player.attack_cooldown q <= 0) /\
  (800 + slack frames <= normal_elapsed_ms frames p1 ->
   Player.attack p2 = (Player.set_attack_cooldown 800 p2, true)) /\
  (normal_elapsed_ms frames p1 < 800 - slack frames ->
   Player.attack p2 = (p2, false)) /\
  (elapsed_ms frames < 800 - slack frames ->
   Player.attack p2 = (p2, false)) /\
  (forall q, Player.attack (Scene.after_hit q) = (Scene.after_hit q, false)).
Proof.
  apply (attack_cooldown_gate (Player.init 512 622) [(no_keys, 1)]).
  - repeat constructor; vm_compute; discriminate.
  - vm_compute. discriminate.
  - vm_compute. discriminate.
Defined.

(** C8 as stated fails: the fresh player attacks, then dashes through
    one frame of 1000 ms-equivalent, and the second attack is refused
    although 800 ms-equivalent have passed. *)
Lemma attack_cooldown_gate_counterexample :
  let p1 := fst (Player.attack (Player.init 512 622)) in
  let frames := [(shift_keys, 1)] in
  snd (Player.attack (Player.init 512 622)) = true /\
  800 <= elapsed_ms frames /\
  snd (Player.attack (run_updates frames p1)) = false.
Proof.
  cbv zeta. split; [reflexivity|]. split; [vm_compute; discriminate|].
  vm_compute. reflexivity.
Qed.

Section Dash.

Lemma dash_inv_equiv E E' tol tol' p :
  E == E' -> tol == tol' -> dash_inv E tol p -> dash_inv E' tol' p.
Proof.
  intros HE Ht (Hc & Hd & Hi). unfold dash_inv.
  split; [qabs; split; lra|]. split.
  - intro H. destruct (Hd H) as [H1 H2]. split; [qabs; split; lra | exact H2].
  - intro H. specialize (Hi H). lra.
Qed.

(** Starting a dash arms the two timers. *)
Lemma dash_start keys dt p :
  Player.dash_triggered keys (Player.tick_dash_timers dt p) = true ->
  Player.is_dashing (Player.update keys dt p) = true /\
  dash_inv 0 0 (Player.update keys dt p).
Proof.
  intro Ht. unfold Player.update, Player.before_move. rewrite Ht.
  set (q := Player.start_dash (Player.tick_dash_timers dt p)).
  assert (Hq : Player.is_dashing q = true) by reflexivity.
  rewrite Hq.
  destruct (dash_move_fields dt q) as [(_ & _ & Hc & Ht' & Hd & _) _].
  split; [congruence|]. unfold dash_inv. rewrite Hc, Ht', Hd.
  change (Player.dash_cooldown q) with 1000.
  change (Player.dash_time q) with 200.
  split; [qabs; split; lra|]. split.
  - intros _. split; [qabs; split; lra | reflexivity].
  - intro H. rewrite Hq in H. discriminate H.
Qed.

(** One frame while the dash cooldown runs: no dash can start, the
    timers advance by the frame's time up to one more rounding, and
    the update that ends the dash zeroes the velocity before the
    movement code sets it from the keys. *)
Lemma dash_step E tol keys dt p :
  0 <= dt <= 2 -> 0 <= E -> 0 <= tol ->
  E + ms dt + tol + Float.tick_error < 1000 ->
  dash_inv E tol p ->
  Player.dash_triggered keys (Player.tick_dash_timers dt p) = false /\
  (Player.is_dashing (Player.tick_dash_timers dt p) = false ->
   Player.velocity_x (Player.update keys dt p) = walk_velocity keys) /\
  (Player.is_dashing p = true ->
   Player.is_dashing (Player.tick_dash_timers dt p) = false ->
   Player.velocity_x (Player.tick_dash_timers dt p) = 0) /\
  dash_inv (E + ms dt) (tol + Float.tick_error) (Player.update keys dt p) /\
  Player.is_dashing (Player.update keys dt p)
  = Player.is_dashing (Player.tick_dash_timers dt p).
Proof.
  unfold ms. intros Hdt HE Htol Hlt (Hc & Hdash & Hidle).
  assert (He : 0 < Float.tick_error) by reflexivity.
  set (q := Player.tick_dash_timers dt p).
  assert (Hq : Qabs (Player.dash_cooldown q - (1000 - (E + dt * 1000)))
               <= tol + Float.tick_error /\
               (Player.is_dashing q = true ->
                Qabs (Player.dash_time q - (200 - (E + dt * 1000)))
                <= tol + Float.tick_error /\
                0 < Player.dash_time q) /\
               (Player.is_dashing q = false ->
                200 - (tol + Float.tick_error) <= E + dt * 1000) /\
               (Player.is_dashing p = true -> Player.is_dashing q = false ->
                Player.velocity_x q = 0)).
  { unfold q, Player.tick_dash_timers.
    apply Qabs_Qle_condition in Hc. destruct Hc as [Hc1 Hc2].
    assert (E1 : Py.ltb 0 (Player.dash_cooldown p) = true)
      by (apply ltb_true; lra).
    rewrite E1.
    pose proof (tick_close 1000 (Player.dash_cooldown p) dt
                  ltac:(lra) Hdt ltac:(apply Qabs_Qle_condition; lra)) as Tc.
    apply Qabs_Qle_condition in Tc. destruct Tc as [Tc1 Tc2].
    cbn [Player.is_dashing Player.dash_time Player.dash_cooldown
         Player.set_dash_cooldown Player.velocity_x].
    destruct (Player.is_dashing p) eqn:Hd.
    - destruct (Hdash eq_refl) as [Ht Hpos].
      apply Qabs_Qle_condition in Ht. destruct Ht as [Ht1 Ht2].
      pose proof (tick_close 1000 (Player.dash_time p) dt
                    ltac:(lra) Hdt ltac:(apply Qabs_Qle_condition; lra)) as Tt.
      apply Qabs_Qle_condition in Tt. destruct Tt as [Tt1 Tt2].
      cbv zeta.
      cbn [Player.is_dashing Player.dash_time Player.dash_cooldown
           Player.set_dash_cooldown Player.set_dash_time Player.velocity_x].
      case_cmp (Py.leb (Float.sub (Player.dash_time p) (Float.mul dt 1000)) 0);
        cbn [Player.is_dashing Player.dash_time Player.dash_cooldown
             Player.set_dash_cooldown Player.set_dash_time
             Player.set_is_dashing Player.set_velocity_x Player.velocity_x].
      + split; [qabs; split; lra|]. split; [intro H; discriminate H|].
        split; [intros _; lra | intros _ _; reflexivity].
      + split; [qabs; split; lra|]. split.
        * intros _. split; [qabs; split; lra | exact E0].
        * split; [intro H; rewrite Hd in H; discriminate H
                 | intros _ H; rewrite Hd in H; discriminate H].
    - cbn [Player.is_dashing Player.dash_time Player.dash_cooldown
           Player.set_dash_cooldown Player.velocity_x].
      rewrite Hd.
      split; [qabs; split; lra|]. split; [intro H; discriminate H|].
      split; [intros _; specialize (Hidle eq_refl); lra
             | intro H; discriminate H]. }
  destruct Hq as (Hqc & Hqd & Hqi & Hqv).
  assert (Hno : Player.dash_triggered keys q = false).
  { unfold Player.dash_triggered.
    apply Qabs_Qle_condition in Hqc. destruct Hqc as [Hq1 Hq2].
    assert (E2 : Py.leb (Player.dash_cooldown q) 0 = false)
      by (apply leb_false; lra).
    rewrite E2, andb_false_r. reflexivity. }
  split; [exact Hno|].
  unfold Player.update, Player.before_move. fold q. rewrite Hno.
  destruct (Player.is_dashing q) eqn:Hd.
  - destruct (dash_move_fields dt q) as [(_ & _ & Hc' & Ht' & Hd' & _) _].
    split; [intro H; discriminate H|]. split; [exact Hqv|]. split.
    + unfold dash_inv. rewrite Hc', Ht', Hd', Hd.
      split; [exact Hqc|]. split; [exact Hqd | exact Hqi].
    + congruence.
  - destruct (normal_move_fields keys dt q)
      as ((_ & _ & Hc' & Ht' & Hd' & _) & Hv & _).
    split; [intros _; exact Hv|]. split; [exact Hqv|]. split.
    + unfold dash_inv. rewrite Hc', Ht', Hd', Hd.
      split; [exact Hqc|]. split; [exact Hqd | exact Hqi].
    + congruence.
Qed.

Lemma elapsed_nonneg frames :
  Forall bounded_dt frames -> 0 <= elapsed_ms frames.
Proof.
  induction 1 as [|[keys dt] rest Hdt _ IH]; cbn.
  - apply Qle_refl.
  - unfold bounded_dt in Hdt; cbn in Hdt. unfold ms. lra.
Qed.

(** The invariant along a run that stays inside the cooldown. *)
Lemma dash_run frames :
  Forall bounded_dt frames ->
  forall E tol p,
    0 <= E -> 0 <= tol ->
    E + elapsed_ms frames + tol + slack frames < 1000 ->
    dash_inv E tol p ->
    dash_inv (E + elapsed_ms frames) (tol + slack frames)
      (run_updates frames p).
Proof.
  induction 1 as [|[keys dt] rest Hdt Hrest IH]; intros E tol p HE Htol Hlt Hinv;
    cbn [run_updates elapsed_ms slack] in *.
  - apply (dash_inv_equiv E _ tol _ p); [lra | lra | exact Hinv].
  - unfold bounded_dt in Hdt; cbn in Hdt.
    pose proof (elapsed_nonneg rest Hrest) as Hr.
    pose proof (slack_nonneg rest) as Hs.
    assert (He : 0 < Float.tick_error) by reflexivity.
    assert (Hms : 0 <= ms dt) by (unfold ms; lra).
    destruct (dash_step E tol keys dt p Hdt HE Htol) as (_ & _ & _ & Hinv' & _);
      [lra | exact Hinv |].
    apply (dash_inv_equiv (E + ms dt + elapsed_ms rest) _
             (tol + Float.tick_error + slack rest) _); [lra | lra |].
    apply IH; [lra | lra | lra | exact Hinv'].
Qed.

End Dash.

(** C6, amended. Dash lifecycle: once a dash is triggered (shift held,
    dash cooldown at most 0, not dashing), the player is dashing;
    after any later frames with delta times between 0 and 2,
    [is_dashing] is still true while less than 200 ms-equivalent have
    elapsed and false from 200 on, both up to the rounding of the
    float subtractions (at most [2 ^ -40] per frame); in the update
    that ends the dash the timer code sets the horizontal velocity to
    0, and the movement code of the same update then sets it to what
    the direction keys ask for, so that it is 0 after that update only
    with no direction key held; and no frame before 1000
    ms-equivalent have elapsed can start a second dash, whatever keys
    are held. *)
Theorem dash_lifecycle (keys0 : Keys) (dt0 : Q) (p0 : Player.t)
    (frames : list Frame) (keys : Keys) (dt : Q) :
  Player.dash_triggered keys0 (Player.tick_dash_timers dt0 p0) = true ->
  Forall bounded_dt frames ->
  0 <= dt <= 2 ->
  let p1 := Player.update keys0 dt0 p0 in
  let q := run_updates frames p1 in
  let p := Player.update keys dt q in
  let E := elapsed_ms frames + ms dt in
  let tol := slack frames + Float.tick_error in
  Player.is_dashing p1 = true /\
  (E < 200 - tol -> Player.is_dashing p = true) /\
  (200 + tol <= E -> E < 1000 - tol ->
   Player.is_dashing p = false /\
   Player.velocity_x p = walk_velocity keys) /\
  (E < 1000 - tol ->
   Player.is_dashing q = true ->
   Player.is_dashing (Player.tick_dash_timers dt q) = false ->
   Player.velocity_x (Player.tick_dash_timers dt q) = 0 /\
   Player.is_dashing p = false /\
   Player.velocity_x p = walk_velocity keys) /\
  (E < 1000 - tol ->
   Player.dash_triggered keys (Player.tick_dash_timers dt q) = false).
Proof.
  intros Htrig Hframes Hdt p1 q p E tol.
  destruct (dash_start keys0 dt0 p0 Htrig) as [Hd1 Hinv1].
  fold p1 in Hd1, Hinv1.
  pose proof (elapsed_nonneg frames Hframes) as Hel.
  pose proof (slack_nonneg frames) as Hsl.
  assert (He : 0 < Float.tick_error) by reflexivity.
  assert (Hms : 0 <= ms dt) by (unfold ms; lra).
  assert (Hstep : E < 1000 - tol ->
            Player.dash_triggered keys (Player.tick_dash_timers dt q) = false /\
            (Player.is_dashing (Player.tick_dash_timers dt q) = false ->
             Player.velocity_x p = walk_velocity keys) /\
            (Player.is_dashing q = true ->
             Player.is_dashing (Player.tick_dash_timers dt q) = false ->
             Player.velocity_x (Player.tick_dash_timers dt q) = 0) /\
            dash_inv E tol p /\
            Player.is_dashing p
            = Player.is_dashing (Player.tick_dash_timers dt q)).
  { intro HE. unfold E, tol in HE.
    apply (dash_step (elapsed_ms frames) (slack frames) keys dt q Hdt Hel Hsl);
      [lra|].
    apply (dash_inv_equiv (0 + elapsed_ms frames) _ (0 + slack frames) _);
      [lra | lra |].
    apply (dash_run frames Hframes 0 0 p1);
      [lra | lra | lra | exact Hinv1]. }
  split; [exact Hd1|]. split; [|split; [|split]].
  - intro H. destruct Hstep as (_ & _ & _ & (_ & _ & Hi) & _); [lra|].
    destruct (Player.is_dashing p); [reflexivity|].
    specialize (Hi eq_refl). lra.
  - intros Hlo Hhi.
    destruct (Hstep Hhi) as (_ & Hv & _ & (_ & Hd & _) & Heq).
    assert (Hoff : Player.is_dashing p = false).
    { destruct (Player.is_dashing p); [|reflexivity].
      destruct (Hd eq_refl) as [H1 Hpos].
      apply Qabs_Qle_condition in H1. destruct H1 as [H1 H2]. lra. }
    split; [exact Hoff|]. apply Hv. congruence.
  - intros Hhi Hon Hoff.
    destruct (Hstep Hhi) as (_ & Hv & Hz & _ & Heq).
    split; [apply Hz; assumption|].
    split; [congruence | apply Hv; exact Hoff].
  - intro HE. apply (Hstep HE).
Qed.

(** A witness of [dash_lifecycle]: the fresh player dashes, and 125
    ms-equivalent later a frame of 125 more ends the dash. *)
Lemma dash_lifecycle_witness :
  let p1 := Player.update shift_keys 1 (Player.init 512 622) in
  let frames := [(shift_keys, 1 # 8)] in
  let q := run_updates frames p1 in
  let p := Player.update shift_keys (1 # 8) q in
  let E := elapsed_ms frames + ms (1 # 8) in
  let tol := slack frames + Float.tick_error in
  Player.is_dashing p1 = true /\
  (E < 200 - tol -> Player.is_dashing p = true) /\
  (200 + tol <= E -> E < 1000 - tol ->
   Player.is_dashing p = false /\
   Player.velocity_x p = walk_velocity shift_keys) /\
  (E < 1000 - tol ->
   Player.is_dashing q = true ->
   Player.is_dashing (Player.tick_dash_timers (1 # 8) q) = false ->
   Player.velocity_x (Player.tick_dash_timers (1 # 8) q) = 0 /\
   Player.is_dashing p = false /\
   Player.velocity_x p = walk_velocity shift_keys) /\
  (E < 1000 - tol ->
   Player.dash_triggered shift_keys
     (Player.tick_dash_timers (1 # 8) q) = false).
Proof.
  apply (dash_lifecycle shift_keys 1 (Player.init 512 622)
           [(shift_keys, 1 # 8)] shift_keys (1 # 8)).
  - vm_compute. reflexivity.
  - repeat constructor; vm_compute; discriminate.
  - split; vm_compute; discriminate.
Defined.

(** C6 as stated fails: the fresh player dashes; 250 ms-equivalent
    later, in a frame with the left arrow held, the dash is over and
    the horizontal velocity is that of a walk to the left, not 0: line
    90 zeroes it and lines 115-119 of the same update set it again. *)
Lemma dash_lifecycle_counterexample :
  let p0 := Player.init 512 622 in
  let p1 := Player.update shift_keys 1 p0 in
  let p := Player.update left_keys (1 # 4) p1 in
  Player.dash_triggered shift_keys (Player.tick_dash_timers 1 p0) = true /\
  Player.is_dashing p1 = true /\
  200 <= ms (1 # 4) /\
  Player.is_dashing p = false /\
  Player.velocity_x p = - PLAYER_SPEED /\
  ~ Player.velocity_x p == 0.
Proof.
  cbv zeta. split; [vm_compute; reflexivity|].
  split; [vm_compute; reflexivity|].
  split; [vm_compute; discriminate|].
  split; [vm_compute; reflexivity|].
  split; [vm_compute; reflexivity|].
  vm_compute. discriminate.
Qed.

(** * The save file *)

Section SaveFile.
Import Save.

(** Where [load_savegame] does fall back on the defaults: no file, a
    file that cannot be opened, text that is not JSON. *)
Lemma load_savegame_defaults d path :
  lookup path (files d) = None \/
  lookup path (files d) = Some Unopenable \/
  lookup path (files d) = Some (Bytes NotJson) ->
  load_savegame d path = Returns default_save.
Proof.
  unfold load_savegame, exists_, open_and_load.
  intros [H | [H | H]]; rewrite H; reflexivity.
Qed.

Lemma load_savegame_parsed d path v :
  lookup path (files d) = Some (Bytes (Json v)) ->
  load_savegame d path = Returns v.
Proof.
  unfold load_savegame, exists_, open_and_load.
  intro H. rewrite H. reflexivity.
Qed.

(** What [save_savegame] wrote is what [load_savegame] reads. *)
Lemma load_after_save d path level hp score :
  read_only d = false ->
  has_directory path = true ->
  load_savegame (fst (save_savegame d path level hp score)) path
  = Returns (PyDict [("level"%string, PyInt level);
                     ("player_health"%string, PyInt hp);
                     ("enemies_defeated"%string, PyInt score)]).
Proof.
  intros H Hdir. unfold save_savegame. rewrite H, Hdir. cbn.
  apply load_savegame_parsed. cbn. rewrite String.eqb_refl. reflexivity.
Qed.

End SaveFile.

(** C9. The code at the failing input: a save file whose bytes are not
    text in the encoding of [open] (a lone byte 0xFF under UTF-8) makes
    [json.load] raise [UnicodeDecodeError], which the [except] clause
    of [load_savegame] does not name; the error reaches the caller
    where the claim promises the default record and no error. *)
Theorem load_savegame_undecodable_raises :
  Save.load_savegame
    (Save.mkDisk [(SAVEGAME_PATH, Save.Bytes Save.NotText)] false)
    SAVEGAME_PATH
  = Save.Raises Save.UnicodeDecodeError.
Proof. reflexivity. Qed.

(** C10. Whatever value the file parses to is returned as it is, with
    no check of its shape; the defaults come back only for a missing
    file, a file that cannot be opened, text that is not JSON, or a
    file that holds the defaults themselves.  So a list, or an object
    with none of the documented keys, reaches the caller, and the
    "continue" branch of [GameScene.start] calls [get] on a list and
    fails. *)
Theorem load_savegame_no_validation (d : Save.Disk) (path : string) :
  (forall v,
      Save.lookup path (Save.files d) = Some (Save.Bytes (Save.Json v)) ->
      Save.load_savegame d path = Save.Returns v) /\
  (Save.load_savegame d path = Save.Returns Save.default_save ->
   Save.lookup path (Save.files d) = None \/
   Save.lookup path (Save.files d) = Some Save.Unopenable \/
   Save.lookup path (Save.files d) = Some (Save.Bytes Save.NotJson) \/
   Save.lookup path (Save.files d)
   = Some (Save.Bytes (Save.Json Save.default_save))) /\
  (forall wrong,
      wrong = Save.PyList [Save.PyInt 1; Save.PyInt 2] \/
      wrong = Save.PyDict [] ->
      let d' := Save.mkDisk [(SAVEGAME_PATH, Save.Bytes (Save.Json wrong))]
                  false in
      Save.load_savegame d' SAVEGAME_PATH = Save.Returns wrong) /\
  Save.continue_score
    (Save.mkDisk
       [(SAVEGAME_PATH,
         Save.Bytes (Save.Json (Save.PyList [Save.PyInt 1; Save.PyInt 2])))]
       false)
  = Save.Raises Save.AttributeError.
Proof.
  split; [|split; [|split]].
  - intros v H. apply load_savegame_parsed, H.
  - unfold Save.load_savegame, Save.exists_, Save.open_and_load.
    destruct (Save.lookup path (Save.files d)) as [[|[v| |]]|]; cbn; intro H.
    + right; left; reflexivity.
    + right; right; right. congruence.
    + right; right; left; reflexivity.
    + discriminate.
    + left; reflexivity.
  - intros wrong [-> | ->]; reflexivity.
  - reflexivity.
Qed.

(** A witness of [load_savegame_no_validation]: a save file that holds
    a JSON list. *)
Lemma load_savegame_no_validation_witness :
  let d := Save.mkDisk
             [(SAVEGAME_PATH,
               Save.Bytes (Save.Json (Save.PyList [Save.PyInt 1; Save.PyInt 2])))]
             false in
  Save.lookup SAVEGAME_PATH (Save.files d)
  = Some (Save.Bytes (Save.Json (Save.PyList [Save.PyInt 1; Save.PyInt 2]))) /\
  Save.load_savegame d SAVEGAME_PATH
  = Save.Returns (Save.PyList [Save.PyInt 1; Save.PyInt 2]).
Proof.
  cbv zeta. split; [reflexivity|].
  apply (proj1 (load_savegame_no_validation
                  (Save.mkDisk
                     [(SAVEGAME_PATH,
                       Save.Bytes
                         (Save.Json (Save.PyList [Save.PyInt 1; Save.PyInt 2])))]
                     false)
                  SAVEGAME_PATH)).
  reflexivity.
Defined.

(** * The scene: pause *)

(** C5, amended. The escape key flips the paused flag and nothing else
    of the scene; it asks for the main menu when the flip pauses the
    scene and for no transition when the flip resumes it; a second
    escape key given to the scene undoes the first. *)
Theorem pause_toggle (s : GameScene.t) :
  let esc := GameScene.KEYDOWN GameScene.K_ESCAPE in
  let r := GameScene.handle_event esc s in
  fst r = GameScene.set_paused (negb (GameScene.paused s)) s /\
  snd r = (if GameScene.paused s then None else Some "main_menu"%string) /\
  GameScene.paused (fst r) = negb (GameScene.paused s) /\
  fst (GameScene.handle_event esc (fst r)) = s /\
  snd (GameScene.handle_event esc (fst r))
  = (if GameScene.paused s then Some "main_menu"%string else None).
Proof.
  destruct s as [pl es sc mx st si ps sh hs cc ct cto pa go g d lg].
  unfold GameScene.handle_event; cbn.
  destruct pa; cbn; destruct go; cbn; repeat split; reflexivity.
Qed.

(** C5 as stated fails: on a running scene the escape key asks for a
    transition to the main menu. *)
Lemma pause_toggle_counterexample :
  GameScene.paused Scene.fresh = false /\
  snd (GameScene.handle_event (GameScene.KEYDOWN GameScene.K_ESCAPE)
         Scene.fresh)
  = Some "main_menu"%string.
Proof. split; reflexivity. Qed.

(** * The scene: one frame *)

Section SceneFrame.
Import GameScene Scene.

(** Splits on the pairs, conditionals and options the goal matches on. *)
Ltac break_match :=
  match goal with
  | |- context [match ?e with pair _ _ => _ end] => destruct e eqn:?
  | |- context [if ?c then _ else _] => destruct c eqn:?
  | |- context [match ?e with Some _ => _ | None => _ end] => destruct e eqn:?
  end.

Lemma particles_emit_burst x0 y0 n c speed kind :
  forall ps g,
  exists burst,
    fst (Particles.emit x0 y0 n c speed kind ps g) = ps ++ burst /\
    burst_of c x0 y0 n burst.
Proof.
  induction n as [|n IH]; intros ps g.
  - exists []. cbn. rewrite app_nil_r. repeat split. constructor.
  - change (Particles.emit x0 y0 (S n) c speed kind ps g)
      with (let '(q, g1) := Particles.emit_one x0 y0 c speed kind g in
            Particles.emit x0 y0 n c speed kind (ps ++ [q]) g1).
    destruct (Particles.emit_one x0 y0 c speed kind g) as [q g1] eqn:Eq.
    destruct (IH (ps ++ [q]) g1) as (burst & Hb & Hlen & Hall).
    exists (q :: burst). rewrite Hb, <- app_assoc. split; [reflexivity|].
    split; [cbn; congruence|]. constructor; [|exact Hall].
    unfold Particles.emit_one in Eq.
    repeat match type of Eq with
      | context [match ?e with pair _ _ => _ end] => destruct e
      | context [match ?k with Particles.Explosion => _ | _ => _ end] =>
          destruct k
      end;
      injection Eq as <- _; repeat split; reflexivity.
Qed.

(** [emit] in terms of the setters. *)
Lemma emit_eq x0 y0 n c speed kind s :
  emit x0 y0 n c speed kind s
  = set_log (log s ++ [CallEmit x0 y0 n c speed kind])
      (set_rng (snd (Particles.emit x0 y0 n c speed kind
                       (particle_system s) (rng s)))
         (set_particle_system
            (fst (Particles.emit x0 y0 n c speed kind
                    (particle_system s) (rng s))) s)).
Proof.
  unfold emit. destruct (Particles.emit _ _ _ _ _ _ _ _). reflexivity.
Qed.

(** The updated enemies of the loop do not depend on the scene. *)
Lemma enemy_loop_enemies pos dt es :
  forall s, fst (enemy_loop pos dt es s) = map (step_enemy pos dt) es.
Proof.
  induction es as [|e rest IH]; intro s; cbn; [reflexivity|].
  unfold step_enemy at 1.
  destruct (Enemy.is_alive e); cbn.
  - specialize (IH (contact (Enemy.update pos dt e) s)).
    destruct (enemy_loop pos dt rest _). cbn in *. congruence.
  - specialize (IH s). destruct (enemy_loop pos dt rest s). cbn in *. congruence.
Qed.

(** A player inside the invincibility window, or dashing, is not hit. *)
Lemma contact_invincible e s p :
  player s = Some p ->
  0 < Player.attack_cooldown p \/ Player.is_dashing p = true ->
  contact e s = s.
Proof.
  intros Hp Hinv. unfold contact. rewrite Hp.
  destruct (check_collision _ _); [|reflexivity].
  destruct Hinv as [Hc | Hd].
  - apply leb_false in Hc. rewrite Hc. reflexivity.
  - rewrite Hd, andb_false_r. reflexivity.
Qed.

Lemma enemy_loop_invincible pos dt es :
  forall s p,
    player s = Some p ->
    0 < Player.attack_cooldown p \/ Player.is_dashing p = true ->
    snd (enemy_loop pos dt es s) = s.
Proof.
  induction es as [|e rest IH]; intros s p Hp Hinv; cbn; [reflexivity|].
  destruct (Enemy.is_alive e).
  - rewrite (contact_invincible _ s p Hp Hinv).
    specialize (IH s p Hp Hinv).
    destruct (enemy_loop pos dt rest s). exact IH.
  - specialize (IH s p Hp Hinv).
    destruct (enemy_loop pos dt rest s). exact IH.
Qed.

Lemma hit_scene_player p s : player (hit_scene p s) = Some (after_hit p).
Proof. unfold hit_scene. rewrite emit_eq. reflexivity. Qed.

(** The first enemy that touches a vulnerable player hits, and the
    window it arms protects the player from the others. *)
Lemma enemy_loop_hit dt es :
  forall s p,
    player s = Some p ->
    Player.attack_cooldown p <= 0 -> Player.is_dashing p = false ->
    existsb (touches (Player.x p, Player.y p) dt (Player.rect p)) es = true ->
    snd (enemy_loop (Player.x p, Player.y p) dt es s) = hit_scene p s.
Proof.
  induction es as [|e rest IH]; intros s p Hp Hc Hd Hex; cbn in Hex |- *;
    [discriminate|].
  unfold touches at 1 in Hex.
  destruct (Enemy.is_alive e); cbn in Hex.
  - destruct (check_collision _ (Player.rect p)) eqn:Hcol; cbn in Hex.
    + assert (Hhit : contact (Enemy.update (Player.x p, Player.y p) dt e) s
                     = hit_scene p s).
      { unfold contact. rewrite Hp, Hcol.
        apply leb_true in Hc. rewrite Hc, Hd. reflexivity. }
      rewrite Hhit.
      pose proof (enemy_loop_invincible (Player.x p, Player.y p) dt rest
                    (hit_scene p s) (after_hit p) (hit_scene_player p s)) as Hs.
      destruct (enemy_loop _ dt rest (hit_scene p s)). apply Hs.
      left. reflexivity.
    + assert (Hmiss : contact (Enemy.update (Player.x p, Player.y p) dt e) s = s).
      { unfold contact. rewrite Hp, Hcol. reflexivity. }
      rewrite Hmiss. specialize (IH s p Hp Hc Hd Hex).
      destruct (enemy_loop _ dt rest s). exact IH.
  - specialize (IH s p Hp Hc Hd Hex).
    destruct (enemy_loop _ dt rest s). exact IH.
Qed.

(** [_spawn_single_enemy] in terms of the setters. *)
Lemma spawn_eq s :
  _spawn_single_enemy s
  = set_log (log s ++ [CallSpawn])
      (set_rng (rng (_spawn_single_enemy s))
         (set_enemies (enemies s ++ [spawned s]) s)).
Proof.
  unfold spawned, _spawn_single_enemy. cbn.
  rewrite last_last. reflexivity.
Qed.

Lemma spawned_health s : Enemy.health (spawned s) = 1%Z.
Proof.
  unfold spawned, _spawn_single_enemy. cbn. rewrite last_last. reflexivity.
Qed.

(** The periodic spawn touches the spawn timer, the cap, and through
    [_maintain_enemies] the enemy list, the generator and the log. *)
Lemma periodic_spawn_keeps dt s :
  player (periodic_spawn dt s) = player s /\
  score (periodic_spawn dt s) = score s /\
  screen_shake (periodic_spawn dt s) = screen_shake s /\
  hit_stop_duration (periodic_spawn dt s) = hit_stop_duration s /\
  combo_count (periodic_spawn dt s) = combo_count s /\
  combo_timer (periodic_spawn dt s) = combo_timer s /\
  particle_system (periodic_spawn dt s) = particle_system s /\
  (exists l, log (periodic_spawn dt s) = log s ++ l) /\
  (exists es, enemies (periodic_spawn dt s) = enemies s ++ es /\
              Forall (fun e => Enemy.health e = 1%Z) es).
Proof.
  unfold periodic_spawn, _maintain_enemies.
  destruct (Py.ltb _ _); cbn [spawn_timer set_spawn_timer spawn_interval].
  - destruct (_ <? _)%Z.
    + rewrite spawn_eq. cbn. repeat split; try reflexivity.
      * exists [CallMaintain; CallSpawn]. rewrite <- app_assoc. reflexivity.
      * eexists. split; [reflexivity|]. constructor; [|constructor].
        apply spawned_health.
    + cbn. repeat split; try reflexivity.
      * exists [CallMaintain]. reflexivity.
      * exists []. rewrite app_nil_r. split; [reflexivity | constructor].
  - cbn. repeat split; try reflexivity.
    + exists []. rewrite app_nil_r. reflexivity.
    + exists []. rewrite app_nil_r. split; [reflexivity | constructor].
Qed.

(** The death check touches the game-over flag, the disk and the log. *)
Lemma death_check_keeps s :
  player (death_check s) = player s /\
  score (death_check s) = score s /\
  screen_shake (death_check s) = screen_shake s /\
  hit_stop_duration (death_check s) = hit_stop_duration s /\
  combo_count (death_check s) = combo_count s /\
  combo_timer (death_check s) = combo_timer s /\
  particle_system (death_check s) = particle_system s /\
  enemies (death_check s) = enemies s /\
  (exists l, log (death_check s) = log s ++ l).
Proof.
  unfold death_check.
  destruct (player s) as [p|] eqn:Hp.
  - destruct (negb (Player.is_alive p)).
    + destruct (Save.save_savegame _ _ _ _ _) as [d ok]. cbn.
      repeat split; try reflexivity; try exact Hp.
      eexists. reflexivity.
    + repeat split; try reflexivity; try exact Hp.
      exists []. rewrite app_nil_r. reflexivity.
  - repeat split; try reflexivity; try exact Hp.
    exists []. rewrite app_nil_r. reflexivity.
Qed.

(** Steps 8 to 10 leave the player, the score and the game feel as the
    combat left them. *)
Lemma finish_keeps dt s :
  player (finish dt s) = player s /\
  score (finish dt s) = score s /\
  screen_shake (finish dt s) = screen_shake s /\
  hit_stop_duration (finish dt s) = hit_stop_duration s /\
  combo_count (finish dt s) = combo_count s /\
  combo_timer (finish dt s) = combo_timer s /\
  particle_system (finish dt s) = particle_system s /\
  (exists l, log (finish dt s) = log s ++ l) /\
  (exists es, enemies (finish dt s)
              = filter Enemy.is_alive (enemies s) ++ es /\
              Forall (fun e => Enemy.health e = 1%Z) es).
Proof.
  unfold finish.
  destruct (death_check_keeps (periodic_spawn dt (cull s)))
    as (D1 & D2 & D3 & D4 & D5 & D6 & D7 & D8 & (ld & D9)).
  destruct (periodic_spawn_keeps dt (cull s))
    as (P1 & P2 & P3 & P4 & P5 & P6 & P7 & (lp & P8) & (es & P9 & P10)).
  rewrite D1, D2, D3, D4, D5, D6, D7, D8, D9, P1, P2, P3, P4, P5, P6, P7, P8, P9.
  cbn. repeat split; try reflexivity.
  - exists (lp ++ ld). rewrite app_assoc. reflexivity.
  - exists es. split; [reflexivity | exact P10].
Qed.

Lemma update_live keys dt s :
  live s -> update keys dt s = (simulate keys dt s, None).
Proof.
  intros (Hp & Hg & Hh). unfold update. rewrite Hp, Hg. cbn.
  destruct (0 <? hit_stop_duration s)%Z eqn:E; [|reflexivity].
  apply Z.ltb_lt in E. lia.
Qed.

Lemma simulate_eq keys dt s :
  simulate keys dt s = finish dt (enemy_phase dt (at_enemies keys dt s)).
Proof.
  unfold simulate, finish, at_enemies, tick_effects. cbv zeta. reflexivity.
Qed.

(** The enemy phase for a living player, in terms of the loop. *)
Lemma enemy_phase_alive dt s p :
  player s = Some p -> Player.is_alive p = true ->
  enemy_phase dt s
  = set_enemies (map (step_enemy (Player.x p, Player.y p) dt) (enemies s))
      (snd (enemy_loop (Player.x p, Player.y p) dt (enemies s) s)).
Proof.
  intros Hp Ha. unfold enemy_phase. rewrite Hp, Ha.
  rewrite <- enemy_loop_enemies with (s := s).
  destruct (enemy_loop _ dt (enemies s) s). reflexivity.
Qed.

(** The hit costs a living, vulnerable player exactly one point. *)
Lemma after_hit_fields p :
  Player.is_alive p = true -> Player.is_dashing p = false ->
  Player.health (after_hit p) = (Player.health p - 1)%Z /\
  Player.attack_cooldown (after_hit p) = 1200 /\
  Player.x (after_hit p) = Player.x p /\
  Player.y (after_hit p) = Player.y p.
Proof.
  intros Ha Hd. unfold after_hit, Player.take_damage. rewrite Hd.
  unfold Player.is_alive in Ha. apply Z.ltb_lt in Ha.
  destruct (Player.health p - 1 <? 0)%Z eqn:E.
  - apply Z.ltb_lt in E. lia.
  - repeat split; reflexivity.
Qed.

End SceneFrame.

(** C2. In a simulated frame whose enemy loop finds a living player
    and a live enemy whose box, once updated, overlaps the player's:
    if the player's attack cooldown is at most 0 and the player is not
    dashing, the frame ends with the player's health one lower, the
    attack cooldown at 1200, the screen shake at 5, five red particles
    added at the player's position and the combo count at 0; if the
    cooldown is positive or the player is dashing, the player, and so
    the health, is as the loop found it. *)
Theorem enemy_contact (keys : Keys) (dt : Q) (s : GameScene.t)
    (p : Player.t) :
  Scene.live s ->
  let m := Scene.at_enemies keys dt s in
  GameScene.player m = Some p ->
  Player.is_alive p = true ->
  existsb (touches (Player.x p, Player.y p) dt (Player.rect p))
          (GameScene.enemies m) = true ->
  let s' := fst (GameScene.update keys dt s) in
  (Player.attack_cooldown p <= 0 -> Player.is_dashing p = false ->
   GameScene.player s' = Some (Scene.after_hit p) /\
   Player.health (Scene.after_hit p) = (Player.health p - 1)%Z /\
   Player.attack_cooldown (Scene.after_hit p) = 1200 /\
   GameScene.screen_shake s' = 5 /\
   GameScene.combo_count s' = 0%Z /\
   (exists burst,
       GameScene.particle_system s' = GameScene.particle_system m ++ burst /\
       Scene.burst_of RED (Player.x p) (Player.y p) 5 burst) /\
   (exists l,
       GameScene.log s'
       = GameScene.log m
         ++ GameScene.CallEmit (Player.x p) (Player.y p) 5 RED 3
              Particles.Explosion :: l)) /\
  (0 < Player.attack_cooldown p \/ Player.is_dashing p = true ->
   GameScene.player s' = Some p /\
   GameScene.screen_shake s' = GameScene.screen_shake m /\
   GameScene.combo_count s' = GameScene.combo_count m /\
   GameScene.particle_system s' = GameScene.particle_system m).
Proof.
  intros Hlive m Hp Ha Hex s'.
  assert (Hs' : s' = Scene.finish dt (GameScene.enemy_phase dt m)).
  { unfold s'. rewrite update_live by exact Hlive. apply simulate_eq. }
  rewrite (enemy_phase_alive dt m p Hp Ha) in Hs'.
  destruct (finish_keeps dt
              (GameScene.set_enemies
                 (map (Scene.step_enemy (Player.x p, Player.y p) dt)
                      (GameScene.enemies m))
                 (snd (GameScene.enemy_loop (Player.x p, Player.y p) dt
                         (GameScene.enemies m) m))))
    as (F1 & _ & F3 & _ & F5 & _ & F7 & (lf & F8) & _).
  rewrite <- Hs' in F1, F3, F5, F7, F8. clear Hs'.
  split.
  - intros Hc Hd.
    rewrite (enemy_loop_hit dt (GameScene.enemies m) m p Hp Hc Hd Hex)
      in F1, F3, F5, F7, F8.
    destruct (after_hit_fields p Ha Hd) as (Hh & Hcd & Hx & Hy).
    unfold Scene.hit_scene in F1, F3, F5, F7, F8.
    rewrite emit_eq in F1, F3, F5, F7, F8.
    rewrite Hx, Hy in F7, F8.
    cbn in F1, F3, F5, F7, F8.
    split; [exact F1|]. split; [exact Hh|]. split; [exact Hcd|].
    split; [exact F3|]. split; [exact F5|]. split.
    + destruct (particles_emit_burst (Player.x p) (Player.y p) 5 RED 3
                  Particles.Explosion (GameScene.particle_system m)
                  (GameScene.rng m)) as (burst & Hb & Hburst).
      exists burst. split; [|exact Hburst]. rewrite F7. exact Hb.
    + exists lf. rewrite F8, <- app_assoc. reflexivity.
  - intro Hinv.
    rewrite (enemy_loop_invincible _ dt (GameScene.enemies m) m p Hp Hinv)
      in F1, F3, F5, F7.
    cbn in F1, F3, F5, F7.
    split; [congruence|]. split; [exact F3|]. split; [exact F5 | exact F7].
Qed.

(** A witness of [enemy_contact]: an enemy walks into the fresh player,
    who stands still. *)
Lemma enemy_contact_witness :
  let p := Player.update no_keys 1 (Player.init 512 622) in
  let s' := fst (GameScene.update no_keys 1 Scene.melee) in
  GameScene.player s' = Some (Scene.after_hit p) /\
  Player.health (Scene.after_hit p) = (Player.health p - 1)%Z /\
  GameScene.screen_shake s' = 5 /\
  GameScene.combo_count s' = 0%Z.
Proof.
  cbv zeta.
  destruct (enemy_contact no_keys 1 Scene.melee
              (Player.update no_keys 1 (Player.init 512 622)))
    as [Hhit _].
  - repeat split; vm_compute; congruence.
  - vm_compute. reflexivity.
  - vm_compute. reflexivity.
  - vm_compute. reflexivity.
  - destruct Hhit as (H1 & H2 & _ & H4 & H5 & _).
    + vm_compute. discriminate.
    + vm_compute. reflexivity.
    + split; [exact H1|]. split; [exact H2|]. split; [exact H4 | exact H5].
Defined.

Section Attack.
Import GameScene Scene.

(** Steps 2 to 4 touch the shake, the combo and the particles only. *)
Lemma tick_effects_keeps dt s :
  player (tick_effects dt s) = player s /\
  enemies (tick_effects dt s) = enemies s /\
  score (tick_effects dt s) = score s /\
  combo_timeout (tick_effects dt s) = combo_timeout s /\
  log (tick_effects dt s) = log s.
Proof.
  unfold tick_effects, decay_combo, decay_shake.
  destruct (Py.ltb 0 (screen_shake s)); cbn;
    destruct (0 <? combo_count s)%Z; cbn;
    try destruct (Py.leb _ 0); cbn; repeat split; reflexivity.
Qed.

(** The dash dust adds particles and log entries, nothing else. *)
Lemma dash_particles_keeps s :
  player (dash_particles s) = player s /\
  enemies (dash_particles s) = enemies s /\
  score (dash_particles s) = score s /\
  screen_shake (dash_particles s) = screen_shake s /\
  hit_stop_duration (dash_particles s) = hit_stop_duration s /\
  combo_count (dash_particles s) = combo_count s /\
  combo_timer (dash_particles s) = combo_timer s /\
  combo_timeout (dash_particles s) = combo_timeout s /\
  (exists l, log (dash_particles s) = log s ++ l) /\
  (exists ps, particle_system (dash_particles s) = particle_system s ++ ps).
Proof.
  unfold dash_particles.
  destruct (player s) as [p|] eqn:Hp.
  - destruct (Player.is_dashing p).
    + destruct (Random.random (rng s)) as [u g].
      destruct (Py.ltb _ _).
      * rewrite emit_eq.
        cbn [player enemies score screen_shake hit_stop_duration combo_count
             combo_timer combo_timeout log particle_system rng
             set_log set_rng set_particle_system].
        repeat split; try reflexivity; try exact Hp.
        -- eexists. reflexivity.
        -- match goal with
           | |- context [Particles.emit ?a ?b ?c ?d ?e ?f ?ps ?g0] =>
               destruct (particles_emit_burst a b c d e f ps g0)
                 as (burst & Hb & _)
           end.
           exists burst. exact Hb.
      * cbn. repeat split; try reflexivity; try exact Hp;
          exists []; rewrite app_nil_r; reflexivity.
    + repeat split; try reflexivity; try exact Hp;
        exists []; rewrite app_nil_r; reflexivity.
  - repeat split; try reflexivity; try exact Hp;
      exists []; rewrite app_nil_r; reflexivity.
Qed.

(** The scene as the attack keys are polled. *)
Lemma at_attack_fields keys dt p s :
  player (at_attack keys dt p s) = Some (Player.update keys dt p) /\
  enemies (at_attack keys dt p s) = enemies s /\
  score (at_attack keys dt p s) = score s /\
  combo_count (at_attack keys dt p s) = combo_count (tick_effects dt s) /\
  combo_timeout (at_attack keys dt p s) = combo_timeout s /\
  (exists l, log (at_attack keys dt p s) = log s ++ l).
Proof.
  unfold at_attack.
  destruct (dash_particles_keeps
              (set_player (Some (Player.update keys dt p)) (tick_effects dt s)))
    as (H1 & H2 & H3 & _ & _ & H6 & _ & H8 & H9 & _).
  destruct (tick_effects_keeps dt s) as (T1 & T2 & T3 & T4 & T5).
  rewrite H1, H2, H3, H6, H8.
  cbn [player enemies score combo_count combo_timeout log set_player].
  rewrite T2, T3, T4.
  repeat split; try reflexivity.
  destruct H9 as [l H9]. exists l. rewrite H9.
  cbn [log set_player]. rewrite T5. reflexivity.
Qed.

Lemma at_enemies_alive keys dt s p :
  player s = Some p -> Player.is_alive p = true ->
  at_enemies keys dt s = attack_phase keys (at_attack keys dt p s).
Proof.
  intros Hp Ha. unfold at_enemies, player_phase, at_attack.
  destruct (tick_effects_keeps dt s) as (T1 & _).
  rewrite T1, Hp, Ha. reflexivity.
Qed.

(** A successful attack: the cooldown is armed and the loop runs. *)
Lemma attack_phase_success keys s p :
  K_SPACE keys || K_x keys = true ->
  player s = Some p ->
  Player.attack_cooldown p <= 0 ->
  attack_phase keys s
  = resolve_attack (set_player (Some (Player.set_attack_cooldown 800 p)) s).
Proof.
  intros Hk Hp Hc. unfold attack_phase, Player.attack.
  apply leb_true in Hc. rewrite Hk, Hp, Hc. reflexivity.
Qed.

(** The loop stops at the first live enemy under the hitbox. *)
Lemma strike_first hitbox before target after :
  Forall (fun e => struck hitbox e = false) before ->
  struck hitbox target = true ->
  strike hitbox (before ++ target :: after)
  = Some (before ++ Enemy.take_damage 1 target :: after,
          Enemy.take_damage 1 target).
Proof.
  intros Hb Ht. induction Hb as [|e rest He _ IH]; cbn.
  - unfold struck in Ht. rewrite Ht. reflexivity.
  - unfold struck in He. rewrite He, IH. reflexivity.
Qed.

(** One point of damage kills an enemy of health 1. *)
Lemma take_damage_kills e :
  Enemy.is_alive e = true -> (Enemy.health e <= 1)%Z ->
  Enemy.take_damage 1 e = Enemy.set_health 0 e.
Proof.
  unfold Enemy.is_alive, Enemy.take_damage. intros Ha Hh.
  apply Z.ltb_lt in Ha.
  replace (Enemy.health e - 1)%Z with 0%Z by lia. reflexivity.
Qed.

(** Reads a field through the setters. *)
Ltac scene_cbn :=
  cbn [player enemies score max_enemies_on_screen spawn_timer spawn_interval
       particle_system screen_shake hit_stop_duration combo_count combo_timer
       combo_timeout paused game_over rng disk log
       set_player set_enemies set_score set_max_enemies_on_screen
       set_spawn_timer set_particle_system set_screen_shake
       set_hit_stop_duration set_combo_count set_combo_timer set_paused
       set_game_over set_rng set_disk set_log].

Ltac scene_cbn_in H :=
  cbn [player enemies score max_enemies_on_screen spawn_timer spawn_interval
       particle_system screen_shake hit_stop_duration combo_count combo_timer
       combo_timeout paused game_over rng disk log
       set_player set_enemies set_score set_max_enemies_on_screen
       set_spawn_timer set_particle_system set_screen_shake
       set_hit_stop_duration set_combo_count set_combo_timer set_paused
       set_game_over set_rng set_disk set_log] in H.

Lemma resolve_attack_kill s q before target after :
  player s = Some q ->
  enemies s = before ++ target :: after ->
  Forall (fun e => struck (Player.get_attack_rect q) e = false) before ->
  struck (Player.get_attack_rect q) target = true ->
  (Enemy.health target <= 1)%Z ->
  resolve_attack s
  = on_kill (Enemy.set_health 0 target)
      (set_enemies (before ++ Enemy.set_health 0 target :: after) s).
Proof.
  intros Hp He Hb Ht Hh. unfold resolve_attack.
  rewrite Hp, He, (strike_first _ before target after Hb Ht).
  assert (Ha : Enemy.is_alive target = true).
  { unfold struck in Ht. apply andb_true_iff in Ht. apply Ht. }
  rewrite (take_damage_kills target Ha Hh). reflexivity.
Qed.

(** [emit] adds particles, draws from the generator and logs the
    call; it touches nothing else. *)
Lemma emit_keeps x0 y0 n c speed kind s :
  player (emit x0 y0 n c speed kind s) = player s /\
  enemies (emit x0 y0 n c speed kind s) = enemies s /\
  score (emit x0 y0 n c speed kind s) = score s /\
  screen_shake (emit x0 y0 n c speed kind s) = screen_shake s /\
  hit_stop_duration (emit x0 y0 n c speed kind s) = hit_stop_duration s /\
  combo_count (emit x0 y0 n c speed kind s) = combo_count s /\
  combo_timer (emit x0 y0 n c speed kind s) = combo_timer s /\
  combo_timeout (emit x0 y0 n c speed kind s) = combo_timeout s /\
  log (emit x0 y0 n c speed kind s)
  = log s ++ [CallEmit x0 y0 n c speed kind] /\
  (exists burst,
      particle_system (emit x0 y0 n c speed kind s)
      = particle_system s ++ burst /\
      burst_of c x0 y0 n burst).
Proof.
  rewrite emit_eq. scene_cbn. repeat split; try reflexivity.
  apply particles_emit_burst.
Qed.

(** [_spawn_single_enemy] appends one enemy of health 1, draws from
    the generator and logs the call; it touches nothing else. *)
Lemma spawn_keeps s :
  player (_spawn_single_enemy s) = player s /\
  enemies (_spawn_single_enemy s) = enemies s ++ [spawned s] /\
  score (_spawn_single_enemy s) = score s /\
  screen_shake (_spawn_single_enemy s) = screen_shake s /\
  hit_stop_duration (_spawn_single_enemy s) = hit_stop_duration s /\
  combo_count (_spawn_single_enemy s) = combo_count s /\
  combo_timer (_spawn_single_enemy s) = combo_timer s /\
  particle_system (_spawn_single_enemy s) = particle_system s /\
  log (_spawn_single_enemy s) = log s ++ [CallSpawn].
Proof.
  rewrite spawn_eq. scene_cbn. repeat split; reflexivity.
Qed.

Lemma heal_on_milestone_keeps s :
  enemies (heal_on_milestone s) = enemies s /\
  score (heal_on_milestone s) = score s /\
  screen_shake (heal_on_milestone s) = screen_shake s /\
  hit_stop_duration (heal_on_milestone s) = hit_stop_duration s /\
  combo_count (heal_on_milestone s) = combo_count s /\
  combo_timer (heal_on_milestone s) = combo_timer s /\
  (exists l, log (heal_on_milestone s) = log s ++ l).
Proof.
  unfold heal_on_milestone.
  destruct (_ && _);
    [|repeat split; try reflexivity; exists []; rewrite app_nil_r; reflexivity].
  destruct (player s) as [q|];
    [|repeat split; try reflexivity; exists []; rewrite app_nil_r; reflexivity].
  match goal with
  | |- context [emit ?a ?b ?n ?c ?sp ?k ?x] =>
      destruct (emit_keeps a b n c sp k x)
        as (_ & E2 & E3 & E4 & E5 & E6 & E7 & _ & E9 & _)
  end.
  rewrite E2, E3, E4, E5, E6, E7, E9. scene_cbn.
  repeat split; try reflexivity. eexists. reflexivity.
Qed.

(** What every kill sets off. *)
Lemma on_kill_fields e s :
  score (on_kill e s) = (score s + 1)%Z /\
  screen_shake (on_kill e s) = 10 /\
  hit_stop_duration (on_kill e s) = 3%Z /\
  combo_count (on_kill e s) = (combo_count s + 1)%Z /\
  combo_timer (on_kill e s) = combo_timeout s /\
  (exists replacement,
      enemies (on_kill e s) = enemies s ++ [replacement] /\
      Enemy.health replacement = 1%Z) /\
  (exists l, log (on_kill e s) = log s ++ l ++ [CallSpawn]).
Proof.
  unfold on_kill. cbv zeta.
  match goal with
  | |- context [emit ?a ?b ?n ?c ?sp ?k ?x] =>
      pose proof (emit_keeps a b n c sp k x) as E; revert E;
      generalize (emit a b n c sp k x)
  end.
  intros s3 (_ & E2 & E3 & E4 & _ & E6 & _ & E8 & E9 & _).
  scene_cbn_in E2; scene_cbn_in E3; scene_cbn_in E4; scene_cbn_in E6;
    scene_cbn_in E8; scene_cbn_in E9.
  match goal with
  | |- context [heal_on_milestone ?x] =>
      pose proof (heal_on_milestone_keeps x) as H; revert H;
      generalize (heal_on_milestone x)
  end.
  intros s7 (H1 & H2 & H3 & H4 & H5 & H6 & (lh & H7)).
  scene_cbn_in H1; scene_cbn_in H2; scene_cbn_in H3; scene_cbn_in H4;
    scene_cbn_in H5; scene_cbn_in H6; scene_cbn_in H7.
  destruct (spawn_keeps s7) as (_ & S2 & S3 & S4 & S5 & S6 & S7 & _ & S9).
  rewrite S2, S3, S4, S5, S6, S7, S9, H1, H2, H3, H4, H5, H6, H7,
    E2, E3, E4, E6, E8, E9.
  repeat split; try reflexivity.
  - eexists. split; [reflexivity | apply spawned_health].
  - match goal with
    | |- exists l, ((_ ++ [?c]) ++ lh) ++ _ = _ => exists (c :: lh)
    end.
    rewrite <- !app_assoc. reflexivity.
Qed.

(** The enemy phase changes no enemy's health. *)
Lemma step_enemy_health pos dt e :
  Enemy.health (step_enemy pos dt e) = Enemy.health e.
Proof.
  unfold step_enemy. destruct (Enemy.is_alive e); [|reflexivity].
  unfold Enemy.update. destruct (Enemy.pursue _ e) as [[vx f] st]. reflexivity.
Qed.

Lemma alive_healths_step pos dt es :
  map Enemy.health (filter Enemy.is_alive (map (step_enemy pos dt) es))
  = map Enemy.health (filter Enemy.is_alive es).
Proof.
  induction es as [|e rest IH]; cbn; [reflexivity|].
  unfold Enemy.is_alive at 1. rewrite step_enemy_health.
  fold (Enemy.is_alive e).
  destruct (Enemy.is_alive e); cbn; rewrite ?step_enemy_health, IH; reflexivity.
Qed.

Lemma enemy_phase_healths dt s :
  map Enemy.health (filter Enemy.is_alive (enemies (enemy_phase dt s)))
  = map Enemy.health (filter Enemy.is_alive (enemies s)).
Proof.
  unfold enemy_phase.
  destruct (player s) as [p|]; [|reflexivity].
  destruct (Player.is_alive p); [|reflexivity].
  pose proof (enemy_loop_enemies (Player.x p, Player.y p) dt (enemies s) s) as H.
  destruct (enemy_loop _ dt (enemies s) s) as [es' s']. cbn in H.
  scene_cbn. rewrite H. apply alive_healths_step.
Qed.

Lemma get_attack_rect_cooldown c p :
  Player.get_attack_rect (Player.set_attack_cooldown c p)
  = Player.get_attack_rect p.
Proof. reflexivity. Qed.

(** A frame whose attack lands: the scene that reaches the enemy loop
    is the kill applied to the scene that polled the keys. *)
Lemma attack_kills keys dt s p before target after :
  player s = Some p ->
  Player.is_alive p = true ->
  K_SPACE keys || K_x keys = true ->
  Player.attack_cooldown (Player.update keys dt p) <= 0 ->
  enemies s = before ++ target :: after ->
  Forall (fun e => struck (Player.get_attack_rect (Player.update keys dt p)) e
                   = false) before ->
  struck (Player.get_attack_rect (Player.update keys dt p)) target = true ->
  (Enemy.health target <= 1)%Z ->
  at_enemies keys dt s
  = on_kill (Enemy.set_health 0 target)
      (set_enemies (before ++ Enemy.set_health 0 target :: after)
         (set_player
            (Some (Player.set_attack_cooldown 800 (Player.update keys dt p)))
            (at_attack keys dt p s))).
Proof.
  intros Hp Ha Hk Hc He Hb Ht Hh.
  rewrite (at_enemies_alive keys dt s p Hp Ha).
  destruct (at_attack_fields keys dt p s) as (A1 & A2 & _).
  revert A1 A2. generalize (at_attack keys dt p s). intros a A1 A2.
  rewrite (attack_phase_success keys a _ Hk A1 Hc).
  apply resolve_attack_kill
    with (q := Player.set_attack_cooldown 800 (Player.update keys dt p)).
  - reflexivity.
  - scene_cbn. rewrite A2. exact He.
  - rewrite get_attack_rect_cooldown. exact Hb.
  - rewrite get_attack_rect_cooldown. exact Ht.
  - exact Hh.
Qed.

Lemma filter_survivors before dead after replacement :
  Enemy.is_alive dead = false ->
  Enemy.is_alive replacement = true ->
  filter Enemy.is_alive ((before ++ dead :: after) ++ [replacement])
  = filter Enemy.is_alive (before ++ after) ++ [replacement].
Proof.
  intros Hd Hr. rewrite !filter_app. cbn. rewrite Hd, Hr. reflexivity.
Qed.

Lemma health_one_alive e : Enemy.health e = 1%Z -> Enemy.is_alive e = true.
Proof. unfold Enemy.is_alive. intros ->. reflexivity. Qed.

Lemma filter_all_alive es :
  Forall (fun e => Enemy.health e = 1%Z) es -> filter Enemy.is_alive es = es.
Proof.
  induction 1 as [|e rest He _ IH]; cbn; [reflexivity|].
  rewrite (health_one_alive e He), IH. reflexivity.
Qed.

(** The enemy list through a frame whose attack lands. *)
Lemma kill_frame_enemies (keys : Keys) (dt : Q) (s : GameScene.t)
    (p : Player.t) (before : list Enemy.t) (target : Enemy.t)
    (after : list Enemy.t) :
  Scene.live s ->
  GameScene.player s = Some p ->
  Player.is_alive p = true ->
  K_SPACE keys || K_x keys = true ->
  Player.attack_cooldown (Player.update keys dt p) <= 0 ->
  GameScene.enemies s = before ++ target :: after ->
  Forall (fun e => struck (Player.get_attack_rect (Player.update keys dt p)) e
                   = false) before ->
  struck (Player.get_attack_rect (Player.update keys dt p)) target = true ->
  (Enemy.health target <= 1)%Z ->
  let m := Scene.at_enemies keys dt s in
  let s' := fst (GameScene.update keys dt s) in
  exists replacement extra,
    GameScene.enemies m
    = before ++ Enemy.set_health 0 target :: after ++ [replacement] /\
    Enemy.health (Enemy.set_health 0 target) = 0%Z /\
    Enemy.health replacement = 1%Z /\
    map Enemy.health (GameScene.enemies s')
    = map Enemy.health
        (filter Enemy.is_alive (before ++ after) ++ replacement :: extra) /\
    Forall (fun e => Enemy.health e = 1%Z) extra.
Proof.
  intros Hlive Hp Ha Hk Hc He Hb Ht Hh m s'.
  assert (Hs' : s' = Scene.finish dt (GameScene.enemy_phase dt m)).
  { unfold s'. rewrite update_live by exact Hlive. apply simulate_eq. }
  pose proof (attack_kills keys dt s p before target after
                Hp Ha Hk Hc He Hb Ht Hh) as Hm.
  fold m in Hm.
  clearbody m s'. revert Hm.
  generalize (Scene.at_attack keys dt p s). intros a Hm.
  destruct (on_kill_fields (Enemy.set_health 0 target)
              (GameScene.set_enemies
                 (before ++ Enemy.set_health 0 target :: after)
                 (GameScene.set_player
                    (Some (Player.set_attack_cooldown 800
                             (Player.update keys dt p))) a)))
    as (_ & _ & _ & _ & _ & (replacement & K6 & K7) & _).
  rewrite <- Hm in K6. clear Hm.
  cbn [GameScene.enemies GameScene.set_enemies] in K6.
  destruct (finish_keeps dt (GameScene.enemy_phase dt m))
    as (_ & _ & _ & _ & _ & _ & _ & _ & (extra & F9 & F10)).
  rewrite <- Hs' in F9. clear Hs'.
  exists replacement, extra.
  split; [rewrite K6, <- app_assoc; reflexivity|].
  split; [reflexivity|]. split; [exact K7|]. split; [|exact F10].
  rewrite F9, !map_app, enemy_phase_healths, K6.
  rewrite (filter_survivors before (Enemy.set_health 0 target) after
             replacement eq_refl (health_one_alive _ K7)).
  rewrite !map_app, <- app_assoc. reflexivity.
Qed.

(** [Player.update] leaves the health alone. *)
Lemma update_health keys dt p :
  Player.health (Player.update keys dt p) = Player.health p /\
  Player.max_health (Player.update keys dt p) = Player.max_health p.
Proof.
  assert (Hb : Player.health (Player.before_move keys dt p) = Player.health p /\
               Player.max_health (Player.before_move keys dt p)
               = Player.max_health p).
  { unfold Player.before_move, Player.tick_dash_timers, Player.start_dash.
    repeat match goal with
      | |- context [if ?c then _ else _] => destruct c
      end; split; reflexivity. }
  destruct Hb as [Hb1 Hb2]. unfold Player.update.
  destruct (Player.is_dashing (Player.before_move keys dt p)).
  - destruct (dash_move_fields dt (Player.before_move keys dt p))
      as [(H1 & H2 & _) _]. split; congruence.
  - destruct (normal_move_fields keys dt (Player.before_move keys dt p))
      as ((H1 & H2 & _) & _). split; congruence.
Qed.

(** The tenth kill: on top of what every kill sets off, the player is
    healed and a green burst is emitted, between the blood and the
    spawn. *)
Lemma on_kill_milestone e s q :
  score s = 9%Z ->
  player s = Some q ->
  let q' := Player.set_health
              (Z.min (Player.max_health q) (Player.health q + 10)) q in
  player (on_kill e s) = Some q' /\
  log (on_kill e s)
  = log s
    ++ [CallEmit (Enemy.x e + inject_Z (r_width (Enemy.rect e) / 2))
                 (Enemy.y e + inject_Z (r_height (Enemy.rect e) / 2))
                 20 RED 8 Particles.Blood;
        CallEmit (Player.x q) (Player.y q) 15 GREEN 4 Particles.Dust;
        CallSpawn] /\
  (exists front heal,
      particle_system (on_kill e s) = front ++ heal /\
      burst_of GREEN (Player.x q) (Player.y q) 15 heal).
Proof.
  intros Hs Hp q'.
  unfold on_kill. cbv zeta.
  match goal with
  | |- context [emit ?a ?b ?n ?c ?sp ?k ?x] =>
      pose proof (emit_keeps a b n c sp k x) as E; revert E;
      generalize (emit a b n c sp k x)
  end.
  intros s3 (E1 & _ & E3 & _ & _ & _ & _ & _ & E9 & _).
  scene_cbn_in E1; scene_cbn_in E3; scene_cbn_in E9.
  unfold heal_on_milestone. scene_cbn. rewrite E3, Hs, E1, Hp.
  change ((0 <? 9 + 1)%Z && ((9 + 1) mod 10 =? 0)%Z) with true.
  cbv iota. fold q'.
  change (Player.x q') with (Player.x q).
  change (Player.y q') with (Player.y q).
  match goal with
  | |- context [emit ?a ?b ?n ?c ?sp ?k ?x] =>
      pose proof (emit_keeps a b n c sp k x) as H; revert H;
      generalize (emit a b n c sp k x)
  end.
  intros s7 (H1 & _ & _ & _ & _ & _ & _ & _ & H9 & (heal & H10 & Hburst)).
  scene_cbn_in H1; scene_cbn_in H9.
  destruct (spawn_keeps s7) as (S1 & _ & _ & _ & _ & _ & _ & S8 & S9).
  rewrite S1, S8, S9, H1, H9, H10, E9.
  split; [reflexivity|]. split.
  - rewrite <- !app_assoc. reflexivity.
  - eexists. exists heal. split; [reflexivity | exact Hburst].
Qed.

End Attack.

(** C1. In a simulated frame with a living player, an attack key held
    and the attack cooldown run out, let [target] be the first live
    enemy, in the order of the list, whose box the attack hitbox
    overlaps, whatever live enemies overlap it further down the list.
    Then the attack leaves every enemy before and after [target] as it
    was, brings the health of [target] alone to 0, and appends the
    replacement; and at the end of the frame the enemies are the
    survivors with their health unchanged, the replacement, and
    whatever the periodic spawn added. *)
Theorem one_kill_per_attack (keys : Keys) (dt : Q) (s : GameScene.t)
    (p : Player.t) (before : list Enemy.t) (target : Enemy.t)
    (after : list Enemy.t) :
  Scene.live s ->
  GameScene.player s = Some p ->
  Player.is_alive p = true ->
  K_SPACE keys || K_x keys = true ->
  Player.attack_cooldown (Player.update keys dt p) <= 0 ->
  GameScene.enemies s = before ++ target :: after ->
  Forall (fun e => struck (Player.get_attack_rect (Player.update keys dt p)) e
                   = false) before ->
  struck (Player.get_attack_rect (Player.update keys dt p)) target = true ->
  (Enemy.health target <= 1)%Z ->
  let m := Scene.at_enemies keys dt s in
  let s' := fst (GameScene.update keys dt s) in
  exists replacement extra,
    GameScene.enemies m
    = before ++ Enemy.set_health 0 target :: after ++ [replacement] /\
    Enemy.health (Enemy.set_health 0 target) = 0%Z /\
    Enemy.health replacement = 1%Z /\
    map Enemy.health (GameScene.enemies s')
    = map Enemy.health
        (filter Enemy.is_alive (before ++ after) ++ replacement :: extra) /\
    Forall (fun e => Enemy.health e = 1%Z) extra.
Proof.
  intros Hlive Hp Ha Hk Hc He Hb Ht Hh.
  exact (kill_frame_enemies keys dt s p before target after
           Hlive Hp Ha Hk Hc He Hb Ht Hh).
Qed.

(** A witness of [one_kill_per_attack]: two live enemies overlap the
    hitbox of the fresh player; the first one dies, the second one
    stays as it was. *)
Lemma one_kill_per_attack_witness :
  struck (Player.get_attack_rect
            (Player.update Scene.attack_keys 1 (Player.init 512 622)))
         (Enemy.init 520 622 None) = true /\
  struck (Player.get_attack_rect
            (Player.update Scene.attack_keys 1 (Player.init 512 622)))
         (Enemy.init 600 622 None) = true /\
  exists replacement extra,
    GameScene.enemies (Scene.at_enemies Scene.attack_keys 1 Scene.melee)
    = [] ++ Enemy.set_health 0 (Enemy.init 520 622 None)
         :: [Enemy.init 600 622 None] ++ [replacement] /\
    Enemy.health (Enemy.set_health 0 (Enemy.init 520 622 None)) = 0%Z /\
    Enemy.health replacement = 1%Z /\
    map Enemy.health
      (GameScene.enemies
         (fst (GameScene.update Scene.attack_keys 1 Scene.melee)))
    = map Enemy.health
        (filter Enemy.is_alive ([] ++ [Enemy.init 600 622 None])
         ++ replacement :: extra) /\
    Forall (fun e => Enemy.health e = 1%Z) extra.
Proof.
  split; [vm_compute; reflexivity|]. split; [vm_compute; reflexivity|].
  apply (one_kill_per_attack Scene.attack_keys 1 Scene.melee
           (Player.init 512 622) [] (Enemy.init 520 622 None)
           [Enemy.init 600 622 None]).
  - repeat split; vm_compute; congruence.
  - vm_compute. reflexivity.
  - vm_compute. reflexivity.
  - reflexivity.
  - vm_compute. discriminate.
  - vm_compute. reflexivity.
  - constructor.
  - vm_compute. reflexivity.
  - vm_compute. discriminate.
Defined.

(** C3. Kill triggers heal: a simulated frame that starts with the
    score at 9 and the player at health 50 of 100, and in which the
    attack lands on an overlapping live enemy, ends with the score at
    10, the player at health 60, fifteen green particles emitted at
    the player's position, the screen shake at 10, the hit-stop at 3
    frames, the combo count one above what the frame's timer left and
    the combo timer back at its timeout, and with a replacement spawn
    called right after the two bursts of the kill. *)
Theorem kill_triggers_heal (keys : Keys) (dt : Q) (s : GameScene.t)
    (p : Player.t) (before : list Enemy.t) (target : Enemy.t)
    (after : list Enemy.t) :
  Scene.live s ->
  GameScene.score s = 9%Z ->
  GameScene.player s = Some p ->
  Player.health p = 50%Z ->
  Player.max_health p = 100%Z ->
  K_SPACE keys || K_x keys = true ->
  Player.attack_cooldown (Player.update keys dt p) <= 0 ->
  GameScene.enemies s = before ++ target :: after ->
  Forall (fun e => struck (Player.get_attack_rect (Player.update keys dt p)) e
                   = false) before ->
  struck (Player.get_attack_rect (Player.update keys dt p)) target = true ->
  (Enemy.health target <= 1)%Z ->
  let p1 := Player.update keys dt p in
  let s' := fst (GameScene.update keys dt s) in
  GameScene.score s' = 10%Z /\
  GameScene.player s'
  = Some (Player.set_health 60 (Player.set_attack_cooldown 800 p1)) /\
  GameScene.screen_shake s' = 10 /\
  GameScene.hit_stop_duration s' = 3%Z /\
  GameScene.combo_count s'
  = (GameScene.combo_count (Scene.tick_effects dt s) + 1)%Z /\
  GameScene.combo_timer s' = GameScene.combo_timeout s /\
  (exists front heal,
      GameScene.particle_system s' = front ++ heal /\
      Scene.burst_of GREEN (Player.x p1) (Player.y p1) 15 heal) /\
  (exists l0 l1,
      GameScene.log s'
      = GameScene.log s ++ l0
        ++ [GameScene.CallEmit
              (Enemy.x target + inject_Z (r_width (Enemy.rect target) / 2))
              (Enemy.y target + inject_Z (r_height (Enemy.rect target) / 2))
              20 RED 8 Particles.Blood;
            GameScene.CallEmit (Player.x p1) (Player.y p1) 15 GREEN 4
              Particles.Dust;
            GameScene.CallSpawn]
        ++ l1) /\
  (exists replacement extra,
      Enemy.health replacement = 1%Z /\
      map Enemy.health (GameScene.enemies s')
      = map Enemy.health
          (filter Enemy.is_alive (before ++ after) ++ replacement :: extra)).
Proof.
  intros Hlive Hscore Hp Hh Hmax Hk Hc He Hb Ht Hth p1 s'.
  destruct (kill_frame_enemies keys dt s p before target after
              Hlive Hp (proj2 (Z.ltb_lt 0 (Player.health p))
                          ltac:(rewrite Hh; reflexivity))
              Hk Hc He Hb Ht Hth)
    as (replacement & extra & _ & _ & R3 & R4 & _).
  fold s' in R4.
  assert (Ha : Player.is_alive p = true).
  { unfold Player.is_alive. rewrite Hh. reflexivity. }
  assert (Hs' : s' = Scene.finish dt
                       (GameScene.enemy_phase dt (Scene.at_enemies keys dt s))).
  { unfold s'. rewrite update_live by exact Hlive. apply simulate_eq. }
  rewrite (attack_kills keys dt s p before target after
             Hp Ha Hk Hc He Hb Ht Hth) in Hs'.
  fold p1 in Hs'.
  destruct (update_health keys dt p) as [Uh Um]. fold p1 in Uh, Um.
  clearbody s'.
  destruct (at_attack_fields keys dt p s)
    as (_ & _ & A3 & A4 & A5 & (l0 & A6)).
  revert Hs' A3 A4 A5 A6.
  generalize (Scene.at_attack keys dt p s). intros a Hs' A3 A4 A5 A6.
  set (q := Player.set_attack_cooldown 800 p1) in *.
  set (dead := Enemy.set_health 0 target) in *.
  set (c := GameScene.set_enemies (before ++ dead :: after)
              (GameScene.set_player (Some q) a)) in *.
  assert (C1 : GameScene.score c = 9%Z) by (rewrite <- Hscore, <- A3; reflexivity).
  assert (C2 : GameScene.player c = Some q) by reflexivity.
  assert (C3 : GameScene.combo_count c = GameScene.combo_count a) by reflexivity.
  assert (C4 : GameScene.combo_timeout c = GameScene.combo_timeout a)
    by reflexivity.
  assert (C5 : GameScene.log c = GameScene.log a) by reflexivity.
  clearbody c.
  destruct (on_kill_fields dead c) as (K1 & K2 & K3 & K4 & K5 & _ & _).
  destruct (on_kill_milestone dead c q C1 C2) as (M1 & M2 & M3).
  assert (Hq : Player.set_health
                 (Z.min (Player.max_health q) (Player.health q + 10)) q
               = Player.set_health 60 q).
  { change (Player.max_health q) with (Player.max_health p1).
    change (Player.health q) with (Player.health p1).
    rewrite Uh, Um, Hh, Hmax. reflexivity. }
  rewrite Hq in M1.
  change (Player.x q) with (Player.x p1) in M2, M3.
  change (Player.y q) with (Player.y p1) in M2, M3.
  change (Enemy.x dead) with (Enemy.x target) in M2.
  change (Enemy.y dead) with (Enemy.y target) in M2.
  change (Enemy.rect dead) with (Enemy.rect target) in M2.
  revert Hs' K1 K2 K3 K4 K5 M1 M2 M3.
  generalize (GameScene.on_kill dead c).
  intros m Hs' K1 K2 K3 K4 K5 M1 M2 M3.
  rewrite (enemy_phase_alive dt m (Player.set_health 60 q) M1 eq_refl) in Hs'.
  rewrite (enemy_loop_invincible _ dt (GameScene.enemies m) m
             (Player.set_health 60 q) M1) in Hs'
    by (left; reflexivity).
  revert Hs'.
  generalize (map (Scene.step_enemy
                     (Player.x (Player.set_health 60 q),
                      Player.y (Player.set_health 60 q)) dt)
                  (GameScene.enemies m)).
  intros es Hs'.
  destruct (finish_keeps dt (GameScene.set_enemies es m))
    as (F1 & F2 & F3 & F4 & F5 & F6 & F7 & (l1 & F8) & _).
  rewrite <- Hs' in F1, F2, F3, F4, F5, F6, F7, F8. clear Hs'.
  cbn [GameScene.player GameScene.score GameScene.screen_shake
       GameScene.hit_stop_duration GameScene.combo_count
       GameScene.combo_timer GameScene.particle_system GameScene.log
       GameScene.set_enemies] in F1, F2, F3, F4, F5, F6, F7, F8.
  split; [rewrite F2, K1, C1; reflexivity|].
  split; [rewrite F1; exact M1|].
  split; [rewrite F3; exact K2|].
  split; [rewrite F4; exact K3|].
  split; [rewrite F5, K4, C3, A4; reflexivity|].
  split; [rewrite F6, K5, C4, A5; reflexivity|].
  split; [rewrite F7; exact M3|].
  split.
  - exists l0, l1. rewrite F8, M2, C5, A6, <- !app_assoc. reflexivity.
  - exists replacement, extra. split; [exact R3 | exact R4].
Qed.

(** A witness of [kill_triggers_heal]: nine kills on the board, the
    player at 50 of 100, two enemies in reach and the space bar held. *)
Lemma kill_triggers_heal_witness :
  let p := Player.set_health 50 (Player.init 512 622) in
  let target := Enemy.init 520 622 None in
  let p1 := Player.update Scene.attack_keys 1 p in
  let s' := fst (GameScene.update Scene.attack_keys 1 Scene.milestone) in
  GameScene.score s' = 10%Z /\
  GameScene.player s'
  = Some (Player.set_health 60 (Player.set_attack_cooldown 800 p1)) /\
  GameScene.screen_shake s' = 10 /\
  GameScene.hit_stop_duration s' = 3%Z /\
  GameScene.combo_count s'
  = (GameScene.combo_count (Scene.tick_effects 1 Scene.milestone) + 1)%Z /\
  GameScene.combo_timer s' = GameScene.combo_timeout Scene.milestone /\
  (exists front heal,
      GameScene.particle_system s' = front ++ heal /\
      Scene.burst_of GREEN (Player.x p1) (Player.y p1) 15 heal) /\
  (exists l0 l1,
      GameScene.log s'
      = GameScene.log Scene.milestone ++ l0
        ++ [GameScene.CallEmit
              (Enemy.x target + inject_Z (r_width (Enemy.rect target) / 2))
              (Enemy.y target + inject_Z (r_height (Enemy.rect target) / 2))
              20 RED 8 Particles.Blood;
            GameScene.CallEmit (Player.x p1) (Player.y p1) 15 GREEN 4
              Particles.Dust;
            GameScene.CallSpawn]
        ++ l1) /\
  (exists replacement extra,
      Enemy.health replacement = 1%Z /\
      map Enemy.health (GameScene.enemies s')
      = map Enemy.health
          (filter Enemy.is_alive ([] ++ [Enemy.init 600 622 None])
           ++ replacement :: extra)).
Proof.
  cbv zeta.
  apply (kill_triggers_heal Scene.attack_keys 1 Scene.milestone
           (Player.set_health 50 (Player.init 512 622))
           [] (Enemy.init 520 622 None) [Enemy.init 600 622 None]).
  - repeat split; vm_compute; congruence.
  - reflexivity.
  - reflexivity.
  - reflexivity.
  - reflexivity.
  - reflexivity.
  - vm_compute. discriminate.
  - reflexivity.
  - constructor.
  - vm_compute. reflexivity.
  - vm_compute. discriminate.
Defined.

(** * The scene: the periodic spawn *)

Section SpawnClock.
Import GameScene Scene.

Ltac scene_cbn :=
  cbn [player enemies score max_enemies_on_screen spawn_timer spawn_interval
       particle_system screen_shake hit_stop_duration combo_count combo_timer
       combo_timeout paused game_over rng disk log
       set_player set_enemies set_score set_max_enemies_on_screen
       set_spawn_timer set_particle_system set_screen_shake
       set_hit_stop_duration set_combo_count set_combo_timer set_paused
       set_game_over set_rng set_disk set_log].



































End SpawnClock.




(** * The enemies' health stays at most 1

    Enemies are built with health 1 and only ever lose health, so the
    bound the theorems above ask of the struck enemy holds in every
    scene the game reaches. *)

Section EnemyHealth.
Import GameScene Scene.

Lemma take_damage_bounded e :
  (Enemy.health e <= 1)%Z -> (Enemy.health (Enemy.take_damage 1 e) <= 1)%Z.
Proof.
  intro H. unfold Enemy.take_damage. cbn.
  destruct (Enemy.health e - 1 <? 0)%Z; lia.
Qed.

Lemma strike_bounded hitbox es :
  bounded es ->
  forall es' hit, strike hitbox es = Some (es', hit) -> bounded es'.
Proof.
  unfold bounded. induction 1 as [|e rest He Hrest IH]; intros es' hit Hs;
    cbn in Hs; [discriminate|].
  destruct (Enemy.is_alive e && check_collision hitbox (Enemy.rect e)).
  - injection Hs as <- _. constructor; [apply take_damage_bounded, He | exact Hrest].
  - destruct (strike hitbox rest) as [[rest' hit']|]; [|discriminate].
    injection Hs as <- _. constructor; [exact He | apply (IH rest' hit' eq_refl)].
Qed.

Lemma attack_phase_bounded keys x :
  bounded (enemies x) -> bounded (enemies (attack_phase keys x)).
Proof.
  intro H. unfold attack_phase.
  destruct (K_SPACE keys || K_x keys); [|exact H].
  destruct (player x) as [p|]; [|exact H].
  destruct (Player.attack p) as [p' ok].
  destruct ok; [|exact H].
  unfold resolve_attack.
  cbn [player enemies set_player].
  destruct (strike _ (enemies x)) as [[es' hit]|] eqn:Hs; [|exact H].
  pose proof (strike_bounded _ _ H _ _ Hs) as Hes'.
  destruct (negb (Enemy.is_alive hit)); [|exact Hes'].
  destruct (on_kill_fields hit (set_enemies es' (set_player (Some p') x)))
    as (_ & _ & _ & _ & _ & (replacement & K1 & K2) & _).
  rewrite K1. cbn [enemies set_enemies].
  apply Forall_app. split; [exact Hes'|].
  constructor; [lia | constructor].
Qed.

Lemma at_enemies_bounded keys dt s :
  bounded (enemies s) -> bounded (enemies (at_enemies keys dt s)).
Proof.
  intro H. unfold at_enemies, player_phase.
  destruct (tick_effects_keeps dt s) as (_ & T2 & _).
  rewrite <- T2 in H. revert H. generalize (tick_effects dt s). intros y H.
  destruct (player y) as [p|]; [|exact H].
  destruct (Player.is_alive p); [|exact H].
  apply attack_phase_bounded.
  destruct (dash_particles_keeps
              (set_player (Some (Player.update keys dt p)) y))
    as (_ & D2 & _).
  rewrite D2. exact H.
Qed.

Lemma enemy_phase_bounded dt x :
  bounded (enemies x) -> bounded (enemies (enemy_phase dt x)).
Proof.
  intro H. unfold enemy_phase.
  destruct (player x) as [p|]; [|exact H].
  destruct (Player.is_alive p); [|exact H].
  pose proof (enemy_loop_enemies (Player.x p, Player.y p) dt (enemies x) x)
    as Hl.
  destruct (enemy_loop _ dt (enemies x) x) as [es' x']. cbn [fst] in Hl.
  cbn [enemies set_enemies]. rewrite Hl.
  unfold bounded in *. apply Forall_map.
  eapply Forall_impl; [|exact H].
  intros e He. cbv beta. rewrite step_enemy_health. exact He.
Qed.

(** X29. No enemy's health is above 1: [start] leaves only such
    enemies, and every update keeps the bound. *)
Lemma enemy_health_invariant :
  (forall s, bounded (enemies (start_new_game s))) /\
  (forall keys dt s,
      bounded (enemies s) -> bounded (enemies (fst (update keys dt s)))).
Proof.
  split.
  - intro s. unfold start_new_game, _maintain_enemies. cbv zeta.
    destruct (_ <? _)%Z.
    + rewrite spawn_eq. cbn [enemies set_enemies set_log set_rng app].
      constructor; [rewrite spawned_health; lia | constructor].
    + constructor.
  - intros keys dt s H. unfold update.
    destruct (paused s || game_over s); [exact H|].
    destruct (0 <? hit_stop_duration s)%Z; [exact H|].
    cbn [fst]. rewrite simulate_eq.
    pose proof (enemy_phase_bounded dt _ (at_enemies_bounded keys dt s H)) as Hb.
    revert Hb. generalize (enemy_phase dt (at_enemies keys dt s)). intros y Hb.
    destruct (finish_keeps dt y) as (_ & _ & _ & _ & _ & _ & _ & _ & (es & F & Fes)).
    rewrite F. apply Forall_app. split.
    + unfold bounded in *. rewrite Forall_forall in *.
      intros e He. apply filter_In in He. apply Hb, He.
    + eapply Forall_impl; [|exact Fes]. intros e He. cbv beta in *. lia.
Qed.

End EnemyHealth.

(** * The hit-stop

    A frame under hit-stop only counts the hit-stop down: the three
    frames after a kill change nothing else of the scene. *)

Section HitStop.
Import GameScene Scene.

Lemma hit_stop_frame keys dt s :
  paused s = false -> game_over s = false ->
  (0 < hit_stop_duration s)%Z ->
  update keys dt s
  = (set_hit_stop_duration (hit_stop_duration s - 1) s, None).
Proof.
  intros Hp Hg Hh. unfold update. rewrite Hp, Hg.
  apply Z.ltb_lt in Hh. rewrite Hh. reflexivity.
Qed.

Lemma hit_stop_three_frames k1 d1 k2 d2 k3 d3 s :
  paused s = false -> game_over s = false ->
  hit_stop_duration s = 3%Z ->
  run [(k1, d1); (k2, d2); (k3, d3)] s = set_hit_stop_duration 0 s /\
  live (run [(k1, d1); (k2, d2); (k3, d3)] s).
Proof.
  intros Hp Hg Hh. cbn [run].
  rewrite (hit_stop_frame k1 d1 s Hp Hg) by (rewrite Hh; reflexivity).
  cbn [fst]. rewrite Hh.
  rewrite (hit_stop_frame k2 d2 (set_hit_stop_duration (3 - 1) s) Hp Hg)
    by reflexivity.
  cbn [fst hit_stop_duration set_hit_stop_duration].
  rewrite (hit_stop_frame k3 d3
             (set_hit_stop_duration (3 - 1 - 1)
                (set_hit_stop_duration (3 - 1) s)) Hp Hg)
    by reflexivity.
  cbn [fst hit_stop_duration set_hit_stop_duration].
  split; [destruct s; reflexivity|].
  repeat split; cbn; [exact Hp | exact Hg | lia].
Qed.

End HitStop.

(** * More of the player

    Properties of [entities/player.py] beyond the claims. *)

Section MorePlayer.
Import More.

Lemma take_damage_dashing a p :
  Player.is_dashing (Player.take_damage a p) = Player.is_dashing p.
Proof.
  unfold Player.take_damage. destruct (Player.is_dashing p) eqn:E;
    [exact E | exact E].
Qed.

Lemma take_damage_floor a p :
  (0 <= Player.health p)%Z ->
  (0 <= Player.health (Player.take_damage a p))%Z /\
  ((0 <= a)%Z ->
   (Player.health (Player.take_damage a p) <= Player.health p)%Z).
Proof.
  intro H. unfold Player.take_damage.
  destruct (Player.is_dashing p); [split; [exact H | intros _; lia]|].
  cbn. destruct (Player.health p - a <? 0)%Z eqn:E.
  - split; [lia | intros _; exact H].
  - apply Z.ltb_ge in E. split; [exact E | intro; lia].
Qed.

Lemma before_move_kept keys dt p :
  Player.rect (Player.before_move keys dt p) = Player.rect p /\
  Player.x (Player.before_move keys dt p) = Player.x p /\
  Player.y (Player.before_move keys dt p) = Player.y p /\
  Player.on_ground (Player.before_move keys dt p) = Player.on_ground p.
Proof.
  unfold Player.before_move, Player.tick_dash_timers, Player.start_dash.
  repeat match goal with
    | |- context [if ?c then _ else _] => destruct c
    end; repeat split; reflexivity.
Qed.

(** The player as the ground check leaves it on the normal path. *)
Lemma landed_fields keys dt p :
  let q := Player.ground_collision
             (Player.integrate dt
                (Player.apply_gravity
                   (Player.jump_input keys
                      (Player.horizontal_input keys p)))) in
  Player.rect q = Player.rect p /\
  Player.y q <= inject_Z PLAYER_GROUND_Y.
Proof.
  cbv zeta. unfold Player.ground_collision.
  match goal with
  | |- context [Player.integrate dt ?a] =>
      assert (Hr : Player.rect (Player.integrate dt a) = Player.rect p)
  end.
  { unfold Player.integrate, Player.apply_gravity, Player.jump_input,
      Player.horizontal_input.
    repeat match goal with
      | |- context [if ?c then _ else _] => destruct c
      end; reflexivity. }
  revert Hr.
  match goal with
  | |- context [Player.integrate dt ?a] => generalize (Player.integrate dt a)
  end.
  intros q Hr.
  case_cmp (Py.leb (inject_Z PLAYER_GROUND_Y) (Player.y q)).
  - destruct (Player.state _); cbn; (split; [exact Hr | apply Qle_refl]).
  - split; [exact Hr | apply Qlt_le_weak; exact E].
Qed.

(** The end of the normal path: clamp, rectangle, cooldown, animation. *)
Lemma normal_move_tail keys dt p :
  let q := Player.ground_collision
             (Player.integrate dt
                (Player.apply_gravity
                   (Player.jump_input keys
                      (Player.horizontal_input keys p)))) in
  let r := Player.normal_move keys dt p in
  Player.x r = Player.x (Player.clamp_x q) /\
  Player.y r = Player.y q /\
  Player.rect r
  = mkRect (Py.int (Player.x r)) (Py.int (Player.y r))
           (r_width (Player.rect q)) (r_height (Player.rect q)).
Proof.
  cbv zeta. unfold Player.normal_move. cbv zeta.
  generalize (Player.ground_collision
                (Player.integrate dt
                   (Player.apply_gravity
                      (Player.jump_input keys
                         (Player.horizontal_input keys p))))).
  intro q. unfold Player.tick_attack_cooldown.
  match goal with
  | |- context [if ?c then _ else _] => destruct c
  end; repeat split; reflexivity.
Qed.

Lemma before_move_velocity_y keys dt p :
  Player.velocity_y (Player.before_move keys dt p) = Player.velocity_y p.
Proof.
  unfold Player.before_move, Player.tick_dash_timers, Player.start_dash.
  repeat match goal with
    | |- context [if ?c then _ else _] => destruct c
    end; reflexivity.
Qed.

(** The x of an updated player is on the screen. *)
Lemma update_x_range keys dt p :
  0 <= Player.x (Player.update keys dt p)
    <= inject_Z (WINDOW_WIDTH - PLAYER_WIDTH).
Proof.
  assert (Hw : 0 <= inject_Z (WINDOW_WIDTH - PLAYER_WIDTH))
    by (vm_compute; discriminate).
  unfold Player.update.
  destruct (Player.is_dashing _).
  - unfold Player.dash_move, Player.clamp_x. cbn. apply clamp_range, Hw.
  - unfold Player.normal_move, Player.tick_attack_cooldown.
    match goal with |- context [Py.ltb 0 ?c] => destruct (Py.ltb 0 c) end;
      cbn; apply clamp_range, Hw.
Qed.

(** How far up one frame can take the player. *)
Lemma landed_lower keys dt p :
  0 <= dt <= 2 ->
  Qabs (Player.y p) <= 1000000 ->
  Qabs (Player.velocity_y p) <= 1000000 ->
  - (3000030) <= Player.y
                   (Player.ground_collision
                      (Player.integrate dt
                         (Player.apply_gravity
                            (Player.jump_input keys
                               (Player.horizontal_input keys p))))).
Proof.
  intros Hdt Hy Hv.
  apply Qabs_Qle_condition in Hy. apply Qabs_Qle_condition in Hv.
  destruct Hy as [Hy1 Hy2], Hv as [Hv1 Hv2].
  match goal with
  | |- context [Player.integrate dt ?a] =>
      assert (Ha : Player.y a = Player.y p /\
                   - (1000015) <= Player.velocity_y a)
  end.
  { unfold Player.apply_gravity, Player.jump_input, Player.horizontal_input,
      PLAYER_JUMP_STRENGTH, PLAYER_GRAVITY.
    repeat match goal with
      | |- context [if ?c then _ else _] => destruct c
      end; cbn; (split; [reflexivity | lra]). }
  revert Ha.
  match goal with
  | |- context [Player.integrate dt ?a] => generalize a
  end.
  intros a [Ha1 Ha2]. unfold Player.ground_collision.
  case_cmp (Py.leb (inject_Z PLAYER_GROUND_Y)
              (Player.y (Player.integrate dt a))).
  - destruct (Player.state _); cbn; vm_compute; discriminate.
  - unfold Player.integrate. cbn. rewrite Ha1. nra.
Qed.

(** [int] stays within integer bounds on either side of 0. *)
Lemma int_range q lo hi :
  (lo <= 0 <= hi)%Z -> inject_Z lo <= q <= inject_Z hi ->
  (lo <= Py.int q <= hi)%Z.
Proof.
  intros Hz [H1 H2]. unfold Py.int. destruct q as [n d].
  unfold Qle in H1, H2. cbn in H1, H2 |- *.
  rewrite Z.mul_1_r in H1, H2.
  destruct (Z_le_gt_dec 0 n) as [Hn | Hn].
  - rewrite Z.quot_div_nonneg by lia. split.
    + pose proof (Z.div_pos n (Z.pos d) Hn ltac:(lia)). lia.
    + apply Z.div_le_upper_bound; lia.
  - replace n with (- (- n))%Z by lia.
    rewrite Z.quot_opp_l by lia.
    rewrite Z.quot_div_nonneg by lia.
    pose proof (Z.div_pos (- n) (Z.pos d) ltac:(lia) ltac:(lia)).
    assert ((- n) / Z.pos d <= - lo)%Z
      by (apply Z.div_le_upper_bound; lia).
    lia.
Qed.

End MorePlayer.


(** X1. Health floor and dash immunity: through any sequence of
    [take_damage] calls the player's health never goes below 0, never
    rises when the amounts are not negative, and stays at 0 once
    there; a dashing player is not changed at all. *)
Theorem damage_never_negative (amounts : list Z) (p : Player.t) :
  (0 <= Player.health p)%Z ->
  Forall (fun a => (0 <= a)%Z) amounts ->
  (0 <= Player.health (More.take_hits amounts p) <= Player.health p)%Z /\
  (Player.health p = 0%Z ->
   Player.health (More.take_hits amounts p) = 0%Z) /\
  (Player.is_dashing p = true -> More.take_hits amounts p = p).
Proof.
  intros Hp Ha.
  assert (Hrange : (0 <= Player.health (More.take_hits amounts p)
                    <= Player.health p)%Z).
  { revert p Hp. induction Ha as [|a rest Ha _ IH]; intros p Hp; cbn; [lia|].
    destruct (take_damage_floor a p Hp) as [H0 H1].
    specialize (IH _ H0). specialize (H1 Ha). lia. }
  split; [exact Hrange|]. split; [intro; lia|].
  clear Hrange Hp Ha. revert p.
  induction amounts as [|a rest IH]; intros p Hd; cbn; [reflexivity|].
  assert (Hsame : Player.take_damage a p = p).
  { unfold Player.take_damage. rewrite Hd. reflexivity. }
  rewrite Hsame. apply IH, Hd.
Qed.

(** A witness of [damage_never_negative]: three hits on a player of
    health 2. *)
Lemma damage_never_negative_witness :
  (0 <= Player.health
          (More.take_hits [1; 1; 1]%Z
             (Player.set_health 2 (Player.init 512 622)))
   <= Player.health (Player.set_health 2 (Player.init 512 622)))%Z.
Proof.
  apply (damage_never_negative [1; 1; 1]%Z
           (Player.set_health 2 (Player.init 512 622))).
  - cbn. lia.
  - repeat constructor; lia.
Defined.

(** X2. The player's bounding box is never stale: for a delta time
    between 0 and 2 and a player whose height and vertical velocity
    are at most a million in magnitude, the truncations of the new
    position are C ints, so that pygame accepts them, and after the
    update, on either path, the box sits at them with the width and
    height it had. *)
Theorem player_rect_follows (keys : Keys) (dt : Q) (p : Player.t) :
  0 <= dt <= 2 ->
  Qabs (Player.y p) <= 1000000 ->
  Qabs (Player.velocity_y p) <= 1000000 ->
  let r := Player.update keys dt p in
  Player.rect r
  = mkRect (Py.int (Player.x r)) (Py.int (Player.y r))
           (r_width (Player.rect p)) (r_height (Player.rect p)) /\
  CInt.in_range (Py.int (Player.x r)) /\
  CInt.in_range (Py.int (Player.y r)).
Proof.
  intros Hdt Hy Hv. cbv zeta.
  assert (Hx : CInt.in_range (Py.int (Player.x (Player.update keys dt p)))).
  { pose proof (update_x_range keys dt p) as [Hx1 Hx2].
    assert (H : (0 <= Py.int (Player.x (Player.update keys dt p)) <= 928)%Z).
    { apply int_range; [lia|]. split; [exact Hx1 | exact Hx2]. }
    unfold CInt.in_range. lia. }
  split; [|split; [exact Hx|]].
  - unfold Player.update.
    destruct (before_move_kept keys dt p) as (Hr & _).
    revert Hr. generalize (Player.before_move keys dt p). intros q Hr.
    destruct (Player.is_dashing q).
    + unfold Player.dash_move. cbn. rewrite Hr. reflexivity.
    + destruct (normal_move_tail keys dt q) as (_ & _ & Ht).
      destruct (landed_fields keys dt q) as (Hl & _).
      cbv zeta in Ht, Hl. rewrite Ht, Hl, Hr. reflexivity.
  - assert (H : (-3000030 <= Py.int (Player.y (Player.update keys dt p))
                 <= 1000000)%Z).
    { apply int_range; [lia|].
      unfold Player.update.
      destruct (before_move_kept keys dt p) as (_ & _ & Hby & _).
      pose proof (before_move_velocity_y keys dt p) as Hbv.
      rewrite <- Hby in Hy. rewrite <- Hbv in Hv. clear Hby Hbv.
      revert Hy Hv. generalize (Player.before_move keys dt p).
      intros q Hy Hv.
      destruct (Player.is_dashing q).
      - unfold Player.dash_move. cbn.
        apply Qabs_Qle_condition in Hy. destruct Hy as [Hy1 Hy2].
        change (inject_Z (-3000030)) with (- (3000030)).
        change (inject_Z 1000000) with 1000000.
        split; lra.
      - destruct (normal_move_tail keys dt q) as (_ & Hny & _).
        destruct (landed_fields keys dt q) as (_ & Hl).
        pose proof (landed_lower keys dt q Hdt Hy Hv) as Hlow.
        cbv zeta in Hny, Hl. rewrite Hny.
        assert (Hg : inject_Z PLAYER_GROUND_Y <= 1000000)
          by (vm_compute; discriminate).
        change (inject_Z (-3000030)) with (- (3000030)).
        change (inject_Z 1000000) with 1000000.
        split; lra. }
    unfold CInt.in_range. lia.
Qed.

(** A witness of [player_rect_follows]: the fresh player, one frame. *)
Lemma player_rect_follows_witness :
  let r := Player.update no_keys 1 (Player.init 512 622) in
  Player.rect r
  = mkRect (Py.int (Player.x r)) (Py.int (Player.y r))
           (r_width (Player.rect (Player.init 512 622)))
           (r_height (Player.rect (Player.init 512 622))) /\
  CInt.in_range (Py.int (Player.x r)) /\
  CInt.in_range (Py.int (Player.y r)).
Proof.
  apply (player_rect_follows no_keys 1 (Player.init 512 622)).
  - split; vm_compute; discriminate.
  - vm_compute. discriminate.
  - vm_compute. discriminate.
Defined.

(** X3. No jump in the air: for a player that is not on the ground,
    holding a jump key changes nothing; the update is the one the same
    keys without the jump keys give. *)
Theorem no_jump_in_the_air (keys : Keys) (dt : Q) (p : Player.t) :
  Player.on_ground p = false ->
  Player.update keys dt p = Player.update (More.without_jump keys) dt p.
Proof.
  intro Hg. unfold Player.update.
  assert (Hb : Player.before_move (More.without_jump keys) dt p
               = Player.before_move keys dt p) by reflexivity.
  rewrite Hb.
  destruct (before_move_kept keys dt p) as (_ & _ & _ & Ho).
  rewrite Hg in Ho. revert Ho.
  generalize (Player.before_move keys dt p). intros q Ho.
  destruct (Player.is_dashing q); [reflexivity|].
  unfold Player.normal_move.
  assert (Hh : Player.horizontal_input (More.without_jump keys) q
               = Player.horizontal_input keys q) by reflexivity.
  rewrite Hh.
  assert (Hog : Player.on_ground (Player.horizontal_input keys q) = false).
  { unfold Player.horizontal_input.
    repeat match goal with
      | |- context [if ?c then _ else _] => destruct c eqn:?
      end; cbn in *; congruence. }
  revert Hog. generalize (Player.horizontal_input keys q). intros h Hog.
  unfold Player.jump_input. rewrite Hog, !andb_false_r. reflexivity.
Qed.

(** A witness of [no_jump_in_the_air]: the fresh player, not yet on the
    ground, with the up key held. *)
Lemma no_jump_in_the_air_witness :
  Player.update
    (mkKeys false false false false true false false false false false)
    1 (Player.init 512 622)
  = Player.update
      (More.without_jump
         (mkKeys false false false false true false false false false false))
      1 (Player.init 512 622).
Proof.
  apply (no_jump_in_the_air
           (mkKeys false false false false true false false false false false)
           1 (Player.init 512 622)).
  reflexivity.
Defined.

(** X4. The player never sinks below the ground line: an update keeps
    [y] at or above it (screen [y] grows downward), and a dashing
    update leaves [y] as it was with no vertical velocity. *)
Theorem player_stays_above_ground (keys : Keys) (dt : Q) (p : Player.t) :
  Player.y p <= inject_Z PLAYER_GROUND_Y ->
  let r := Player.update keys dt p in
  Player.y r <= inject_Z PLAYER_GROUND_Y /\
  (Player.is_dashing r = true ->
   Player.y r = Player.y p /\ Player.velocity_y r = 0).
Proof.
  intro Hy. cbv zeta. unfold Player.update.
  destruct (before_move_kept keys dt p) as (_ & _ & Hby & _).
  rewrite <- Hby in Hy |- *. clear Hby.
  generalize dependent (Player.before_move keys dt p). intros q Hy.
  destruct (Player.is_dashing q) eqn:Hd.
  - split; [exact Hy|]. intros _. split; reflexivity.
  - destruct (normal_move_tail keys dt q) as (_ & Hny & _).
    destruct (landed_fields keys dt q) as (_ & Hl).
    destruct (normal_move_fields keys dt q) as ((_ & _ & _ & _ & Hnd & _) & _).
    cbv zeta in Hny, Hl. rewrite Hny. split; [exact Hl|].
    intro H. rewrite Hnd, Hd in H. discriminate.
Qed.

(** A witness of [player_stays_above_ground]: the fresh player. *)
Lemma player_stays_above_ground_witness :
  Player.y (Player.update no_keys 1 (Player.init 512 622))
  <= inject_Z PLAYER_GROUND_Y.
Proof.
  apply (player_stays_above_ground no_keys 1 (Player.init 512 622)).
  vm_compute. discriminate.
Defined.

(** * More of the enemies

    Properties of [entities/enemy.py] beyond the claims. *)

Section MoreEnemy.


Lemma pursue_state px e :
  let st := snd (Enemy.pursue px e) in
  st = Run \/ st = Idle \/ (Enemy.on_ground e = false /\ st = Enemy.state e).
Proof.
  cbv zeta. unfold Enemy.pursue.
  repeat match goal with
    | |- context [if Py.ltb ?a ?b then _ else _] => destruct (Py.ltb a b)
    end; cbn; destruct (Enemy.on_ground e); auto.
Qed.

Lemma enemy_update_fields px py dt e :
  let e' := Enemy.update (px, py) dt e in
  Enemy.x e'
  = Py.max 0 (Py.min (Enemy.x e + fst (fst (Enemy.pursue px e)) * dt)
                     (inject_Z (WINDOW_WIDTH - ENEMY_WIDTH))) /\
  Enemy.state e' = snd (Enemy.pursue px e) /\
  Enemy.velocity_x e' = fst (fst (Enemy.pursue px e)) /\
  Enemy.facing_right e' = snd (fst (Enemy.pursue px e)).
Proof.
  cbv zeta. unfold Enemy.update. cbn [fst].
  destruct (Enemy.pursue px e) as [[vx f] st]. repeat split; reflexivity.
Qed.

End MoreEnemy.

(** X5. An updated enemy stands on the ground line with no vertical
    velocity, keeps its health and speed, has its bounding box at the
    truncation of its new position, and is running or idle: it can be
    in another state only if it was in it and off the ground, which no
    enemy is after its first update. *)
Theorem enemy_update_grounded (pos1 pos2 : Q * Q) (dt1 dt2 : Q)
    (e : Enemy.t) :
  let e1 := Enemy.update pos1 dt1 e in
  let e2 := Enemy.update pos2 dt2 e1 in
  Enemy.y e1 = inject_Z PLAYER_GROUND_Y /\
  Enemy.velocity_y e1 = 0 /\
  Enemy.on_ground e1 = true /\
  Enemy.health e1 = Enemy.health e /\
  Enemy.speed e1 = Enemy.speed e /\
  Enemy.rect e1
  = mkRect (Py.int (Enemy.x e1)) PLAYER_GROUND_Y
           (r_width (Enemy.rect e)) (r_height (Enemy.rect e)) /\
  (Enemy.state e1 = Run \/ Enemy.state e1 = Idle \/
   (Enemy.on_ground e = false /\ Enemy.state e1 = Enemy.state e)) /\
  (Enemy.state e2 = Run \/ Enemy.state e2 = Idle).
Proof.
  cbv zeta.
  assert (H1 : forall pos dt a,
             Enemy.y (Enemy.update pos dt a) = inject_Z PLAYER_GROUND_Y /\
             Enemy.velocity_y (Enemy.update pos dt a) = 0 /\
             Enemy.on_ground (Enemy.update pos dt a) = true /\
             Enemy.health (Enemy.update pos dt a) = Enemy.health a /\
             Enemy.speed (Enemy.update pos dt a) = Enemy.speed a /\
             Enemy.rect (Enemy.update pos dt a)
             = mkRect (Py.int (Enemy.x (Enemy.update pos dt a)))
                      PLAYER_GROUND_Y
                      (r_width (Enemy.rect a)) (r_height (Enemy.rect a))).
  { intros pos dt a. unfold Enemy.update.
    destruct (Enemy.pursue (fst pos) a) as [[vx f] st].
    repeat split; reflexivity. }
  assert (H2 : forall pos dt a,
             Enemy.state (Enemy.update pos dt a) = Run \/
             Enemy.state (Enemy.update pos dt a) = Idle \/
             (Enemy.on_ground a = false /\
              Enemy.state (Enemy.update pos dt a) = Enemy.state a)).
  { intros [px py] dt a.
    destruct (enemy_update_fields px py dt a) as (_ & Hs & _).
    cbv zeta in Hs. rewrite Hs. apply pursue_state. }
  destruct (H1 pos1 dt1 e) as (A1 & A2 & A3 & A4 & A5 & A6).
  repeat (split; [assumption|]). split; [apply H2|].
  destruct (H2 pos2 dt2 (Enemy.update pos1 dt1 e)) as [H | [H | [H _]]];
    [left; exact H | right; exact H | congruence].
Qed.



(** X7. Enemy damage: health never goes below 0, and damage of at
    least the enemy's health kills it; one point kills an enemy as
    [Enemy.__init__] builds it. *)
Theorem enemy_damage_floor (amount : Z) (e : Enemy.t) :
  (0 <= Enemy.health e)%Z ->
  (0 <= Enemy.health (Enemy.take_damage amount e))%Z /\
  ((Enemy.health e <= amount)%Z ->
   Enemy.is_alive (Enemy.take_damage amount e) = false) /\
  ((0 <= amount < Enemy.health e)%Z ->
   Enemy.health (Enemy.take_damage amount e) = (Enemy.health e - amount)%Z /\
   Enemy.is_alive (Enemy.take_damage amount e) = true) /\
  (forall x y speed,
      Enemy.is_alive (Enemy.take_damage 1 (Enemy.init x y speed)) = false).
Proof.
  intro H. unfold Enemy.take_damage, Enemy.is_alive. cbn.
  destruct (Enemy.health e - amount <? 0)%Z eqn:E.
  - apply Z.ltb_lt in E. split; [lia|]. split; [reflexivity|].
    split; [intro; lia | reflexivity].
  - apply Z.ltb_ge in E. split; [exact E|]. split; [|split].
    + intro Hle. apply Z.ltb_ge. lia.
    + intro Hlt. split; [reflexivity | apply Z.ltb_lt; lia].
    + reflexivity.
Qed.

(** A witness of [enemy_damage_floor]: a fresh enemy takes one point. *)
Lemma enemy_damage_floor_witness :
  (0 <= Enemy.health (Enemy.take_damage 1 (Enemy.init 100 622 None)))%Z.
Proof.
  apply (enemy_damage_floor 1 (Enemy.init 100 622 None)). cbn. lia.
Defined.

(** * More of the helpers

    Properties of [utils/helpers.py] beyond the claims. *)



(** X9. [clamp] lands between its bounds when they are in order, leaves
    a value between them as it is, and clamping twice is clamping
    once. *)
Theorem clamp_in_range (value min_value max_value : Q) :
  min_value <= max_value ->
  min_value <= Helpers.clamp value min_value max_value <= max_value /\
  (min_value <= value <= max_value ->
   Helpers.clamp value min_value max_value == value) /\
  Helpers.clamp (Helpers.clamp value min_value max_value)
                min_value max_value
  == Helpers.clamp value min_value max_value.
Proof.
  intro H. unfold Helpers.clamp, Py.max, Py.min.
  case_cmp (Py.ltb max_value value).
  - case_cmp (Py.ltb min_value max_value).
    + rewrite (proj2 (ltb_false max_value max_value)) by apply Qle_refl.
      rewrite (proj2 (ltb_true min_value max_value)) by exact E0.
      split; [lra|]. split; [intro; lra | reflexivity].
    + case_cmp (Py.ltb max_value min_value).
      * rewrite (proj2 (ltb_false min_value max_value)) by exact E0.
        split; [lra|]. split; [intro; lra | lra].
      * rewrite (proj2 (ltb_false min_value min_value)) by apply Qle_refl.
        split; [lra|]. split; [intro; lra | reflexivity].
  - case_cmp (Py.ltb min_value value).
    + rewrite (proj2 (ltb_false max_value value)) by exact E.
      rewrite (proj2 (ltb_true min_value value)) by exact E0.
      split; [lra|]. split; [intro; reflexivity | reflexivity].
    + case_cmp (Py.ltb max_value min_value).
      * exfalso. lra.
      * rewrite (proj2 (ltb_false min_value min_value)) by apply Qle_refl.
        split; [lra|]. split; [intro; lra | reflexivity].
Qed.

(** A witness of [clamp_in_range]: 1500 clamped to the screen. *)
Lemma clamp_in_range_witness :
  0 <= Helpers.clamp 1500 0 928 <= 928.
Proof.
  apply (clamp_in_range 1500 0 928). vm_compute. discriminate.
Defined.

(** X10. [check_collision] does not depend on the order of its two
    rectangles. *)
Theorem check_collision_symmetric (rect1 rect2 : Rect) :
  check_collision rect1 rect2 = check_collision rect2 rect1.
Proof.
  unfold check_collision, colliderect.
  destruct (r_width rect1 =? 0)%Z, (r_height rect1 =? 0)%Z,
    (r_width rect2 =? 0)%Z, (r_height rect2 =? 0)%Z; cbn; try reflexivity.
  repeat match goal with
    | |- context [(?a <? ?b)%Z] => destruct (a <? b)%Z
    end; reflexivity.
Qed.

(** X11. For rectangles of positive size that pygame can hold and
    compare (fields and far edges within the C ints),
    [check_collision] is the strict overlap of the two boxes on both
    axes: a box that starts at the other's right edge does not
    collide. *)
Theorem check_collision_is_overlap (a b : Rect) :
  fits a -> fits b ->
  (0 < r_width a)%Z -> (0 < r_height a)%Z ->
  (0 < r_width b)%Z -> (0 < r_height b)%Z ->
  (check_collision a b = true <->
   (r_x a < r_x b + r_width b /\ r_x b < r_x a + r_width a /\
    r_y a < r_y b + r_height b /\ r_y b < r_y a + r_height a)%Z) /\
  (r_x b = (r_x a + r_width a)%Z -> check_collision a b = false).
Proof.
  intros _ _ Hwa Hha Hwb Hhb.
  assert (Hgen : check_collision a b = true <->
              (r_x a < r_x b + r_width b /\ r_x b < r_x a + r_width a /\
               r_y a < r_y b + r_height b /\ r_y b < r_y a + r_height a)%Z).
  { unfold check_collision, colliderect.
    assert (Ez : ((r_width a =? 0) || (r_height a =? 0) ||
                  (r_width b =? 0) || (r_height b =? 0))%Z = false).
    { rewrite !orb_false_iff. repeat split; apply Z.eqb_neq; lia. }
    rewrite Ez, !andb_true_iff, !Z.ltb_lt. lia. }
  split; [exact Hgen|].
  intro Hedge.
  destruct (check_collision a b); [|reflexivity].
  exfalso. destruct Hgen as [Hg _]. specialize (Hg eq_refl). lia.
Qed.

(** A witness of [check_collision_is_overlap]: the fresh player and an
    enemy standing in it. *)
Lemma check_collision_is_overlap_witness :
  check_collision (Player.rect (Player.init 512 622))
    (Enemy.rect (Enemy.init 520 622 None)) = true <->
  (r_x (Player.rect (Player.init 512 622))
   < r_x (Enemy.rect (Enemy.init 520 622 None))
     + r_width (Enemy.rect (Enemy.init 520 622 None)) /\
   r_x (Enemy.rect (Enemy.init 520 622 None))
   < r_x (Player.rect (Player.init 512 622))
     + r_width (Player.rect (Player.init 512 622)) /\
   r_y (Player.rect (Player.init 512 622))
   < r_y (Enemy.rect (Enemy.init 520 622 None))
     + r_height (Enemy.rect (Enemy.init 520 622 None)) /\
   r_y (Enemy.rect (Enemy.init 520 622 None))
   < r_y (Player.rect (Player.init 512 622))
     + r_height (Player.rect (Player.init 512 622)))%Z.
Proof.
  apply (check_collision_is_overlap (Player.rect (Player.init 512 622))
           (Enemy.rect (Enemy.init 520 622 None)));
    try (vm_compute; reflexivity);
    repeat split; vm_compute; discriminate.
Defined.

(** * More of the particles

    Properties of [utils/particle_system.py] beyond the claims. *)

Section MoreParticles.
Import More.

Lemma floor_in_range x n :
  0 <= x -> x < inject_Z n -> (0 <= Qfloor x < n)%Z.
Proof.
  intros H0 H1. split.
  - change 0%Z with (Qfloor 0). apply Qfloor_resp_le, H0.
  - rewrite Zlt_Qlt. eapply Qle_lt_trans; [apply Qfloor_le | exact H1].
Qed.

(** One draw of [uniform] and of [randint] from a unit tape. *)
Lemma uniform_in_range a b g :
  unit_draws g -> a <= b ->
  a <= fst (Random.uniform a b g) <= b /\
  Random.draws (snd (Random.uniform a b g)) = Random.draws g.
Proof.
  intros Hu Hab. unfold Random.uniform, Random.random. cbn.
  destruct (Hu (Random.cursor g)) as [H0 H1].
  split; [|reflexivity]. split; nra.
Qed.

Lemma randint_in_range a b g :
  unit_draws g -> (a <= b)%Z ->
  (a <= fst (Random.randint a b g) <= b)%Z /\
  Random.draws (snd (Random.randint a b g)) = Random.draws g.
Proof.
  intros Hu Hab. unfold Random.randint, Random.random. cbn [fst snd].
  destruct (Hu (Random.cursor g)) as [H0 H1].
  split; [|reflexivity].
  assert (Hn : 0 < inject_Z (b - a + 1)).
  { change 0 with (inject_Z 0). rewrite <- Zlt_Qlt. lia. }
  destruct (floor_in_range
              (Random.draws g (Random.cursor g) * inject_Z (b - a + 1))
              (b - a + 1)) as [F0 F1].
  - apply Qmult_le_0_compat; [exact H0 | apply Qlt_le_weak, Hn].
  - setoid_replace (inject_Z (b - a + 1))
      with (1 * inject_Z (b - a + 1)) at 2 by ring.
    apply Qmult_lt_compat_r; assumption.
  - lia.
Qed.

Lemma unit_draws_same g g' :
  Random.draws g' = Random.draws g -> unit_draws g -> unit_draws g'.
Proof. unfold unit_draws. intros -> H. exact H. Qed.

Lemma emit_one_fresh x0 y0 c speed kind g :
  unit_draws g ->
  fresh_particle c x0 y0 (fst (Particles.emit_one x0 y0 c speed kind g)) /\
  Random.draws (snd (Particles.emit_one x0 y0 c speed kind g))
  = Random.draws g.
Proof.
  intro Hu. unfold Particles.emit_one.
  assert (Hkeep : forall a b h,
             Random.draws (snd (Random.uniform a b h)) = Random.draws h)
    by reflexivity.
  destruct (Random.uniform 0 _ g) as [u1 g1] eqn:E1.
  assert (D1 : Random.draws g1 = Random.draws g)
    by (rewrite <- (Hkeep 0 ((314159 # 100000) * 2) g), E1; reflexivity).
  destruct (Random.uniform 1 speed g1) as [u2 g2] eqn:E2.
  assert (D2 : Random.draws g2 = Random.draws g)
    by (rewrite <- D1, <- (Hkeep 1 speed g1), E2; reflexivity).
  assert (Hvel : forall a b a' b',
             exists vx vy g4,
               (let '(vx, g3) := Random.uniform a b g2 in
                let '(vy, g4) := Random.uniform a' b' g3 in (vx, vy, g4))
               = (vx, vy, g4) /\ Random.draws g4 = Random.draws g).
  { intros a b a' b'.
    destruct (Random.uniform a b g2) as [vx g3] eqn:E3.
    destruct (Random.uniform a' b' g3) as [vy g4] eqn:E4.
    exists vx, vy, g4. split; [reflexivity|].
    rewrite <- D2, <- (Hkeep a b g2), E3. cbn [snd].
    rewrite <- (Hkeep a' b' g3), E4. reflexivity. }
  assert (Hv : exists vx vy g4,
             match kind with
             | Particles.Blood =>
                 let '(vx, g3) := Random.uniform (- speed) speed g2 in
                 let '(vy, g4) := Random.uniform (- speed) (-1) g3 in
                 (vx, vy, g4)
             | Particles.Dust =>
                 let '(vx, g3) := Random.uniform (-1) 1 g2 in
                 let '(vy, g4) := Random.uniform (- (1 # 2)) (1 # 2) g3 in
                 (vx, vy, g4)
             | Particles.Explosion =>
                 let '(vx, g3) := Random.uniform (- speed) speed g2 in
                 let '(vy, g4) := Random.uniform (- speed) speed g3 in
                 (vx, vy, g4)
             end = (vx, vy, g4) /\ Random.draws g4 = Random.draws g)
    by (destruct kind; apply Hvel).
  destruct Hv as (vx & vy & g4 & -> & D4).
  pose proof (uniform_in_range 20 40 g4 (unit_draws_same g g4 D4 Hu)) as HL.
  destruct (Random.uniform 20 40 g4) as [life g5] eqn:E5.
  destruct HL as [HL D5]; [vm_compute; discriminate|]. cbn [fst snd] in HL, D5.
  pose proof (randint_in_range 2 4 g5) as HS.
  destruct (Random.randint 2 4 g5) as [sz g6] eqn:E6.
  destruct HS as [HS D6];
    [eapply unit_draws_same; [|exact Hu]; congruence | lia |].
  cbn [fst snd] in *.
  split; [|congruence].
  unfold fresh_particle, Particles.init. cbn.
  repeat split; try reflexivity; try apply HL; try apply HS.
Qed.

Lemma emit_fresh x0 y0 n c speed kind :
  forall ps g,
    unit_draws g ->
    exists burst,
      fst (Particles.emit x0 y0 n c speed kind ps g) = ps ++ burst /\
      List.length burst = n /\
      Forall (fresh_particle c x0 y0) burst.
Proof.
  induction n as [|n IH]; intros ps g Hu.
  - exists []. cbn. rewrite app_nil_r. repeat split. constructor.
  - change (Particles.emit x0 y0 (S n) c speed kind ps g)
      with (let '(q, g1) := Particles.emit_one x0 y0 c speed kind g in
            Particles.emit x0 y0 n c speed kind (ps ++ [q]) g1).
    destruct (emit_one_fresh x0 y0 c speed kind g Hu) as [Hq Hd].
    destruct (Particles.emit_one x0 y0 c speed kind g) as [q g1].
    cbn [fst snd] in Hq, Hd.
    destruct (IH (ps ++ [q]) g1 (unit_draws_same g g1 Hd Hu))
      as (burst & Hb & Hlen & Hall).
    exists (q :: burst). rewrite Hb, <- app_assoc.
    split; [reflexivity|]. split; [cbn; congruence|].
    constructor; assumption.
Qed.

Lemma update_particle_lifetime dt q :
  Particles.lifetime (Particles.update_particle dt q)
  = Float.sub (Particles.lifetime q) (Float.mul dt 10).
Proof. reflexivity. Qed.

(** [update] as one filter on the particles before the update. *)
Lemma update_as_filter dt ps :
  Particles.update dt ps
  = map (Particles.update_particle dt) (filter (More.survives dt) ps).
Proof.
  unfold Particles.update, More.survives.
  induction ps as [|q rest IH]; [reflexivity|].
  cbn [map filter].
  destruct (Py.ltb 0 (Particles.lifetime (Particles.update_particle dt q)));
    cbn [map]; rewrite IH; reflexivity.
Qed.

(** The new lifetime is the exact difference up to the rounding. *)
Lemma lifetime_close dt q :
  0 <= dt <= 2 -> Qabs (Particles.lifetime q) <= 2000 ->
  Qabs (Particles.lifetime (Particles.update_particle dt q)
        - (Particles.lifetime q - dt * 10)) <= Float.tick_error.
Proof.
  intros Hdt Hq. rewrite update_particle_lifetime.
  apply tick_close; [lra | exact Hdt | exact Hq].
Qed.

End MoreParticles.

(** X12. [emit] keeps the particles there are and appends exactly
    [count] new ones, each of the colour and at the position asked
    for, with a lifetime (equal to its [max_lifetime]) between 20 and
    40, a size from 2 to 4 and gravity 0.2, when the draws of the
    generator are in the unit interval. *)
Theorem emit_appends_fresh_particles (x0 y0 : Q) (count : nat) (c : Color)
    (speed : Q) (kind : Particles.Kind) (ps : Particles.System)
    (g : Random.t) :
  More.unit_draws g ->
  exists burst,
    fst (Particles.emit x0 y0 count c speed kind ps g) = ps ++ burst /\
    List.length burst = count /\
    Forall (More.fresh_particle c x0 y0) burst.
Proof.
  intro Hu. exact (emit_fresh x0 y0 count c speed kind ps g Hu).
Qed.

(** A witness of [emit_appends_fresh_particles]: a burst of blood from
    the tape of zeros. *)
Lemma emit_appends_fresh_particles_witness :
  exists burst,
    fst (Particles.emit 10 20 3 RED 8 Particles.Blood [] Scene.tape0)
    = [] ++ burst /\
    List.length burst = 3%nat /\
    Forall (More.fresh_particle RED 10 20) burst.
Proof.
  apply (emit_appends_fresh_particles 10 20 3 RED 8 Particles.Blood []
           Scene.tape0).
  intro n. split; vm_compute; [discriminate | reflexivity].
Defined.

(** X13. [ParticleSystem.update] keeps the particles whose new
    lifetime is above 0, each moved on by [Particle.update]: for a
    delta time between 0 and 2 these are the particles whose lifetime
    exceeds [dt * 10], up to the rounding of the float subtraction (a
    lifetime within [2 ^ -40] of [dt * 10] can go either way); so no
    particle left in the system has a lifetime of 0 or less, and the
    system never grows. *)
Theorem particles_update_drops_expired (dt : Q) (ps : Particles.System) :
  0 <= dt <= 2 ->
  Forall (fun q => Qabs (Particles.lifetime q) <= 2000) ps ->
  Particles.update dt ps
  = map (Particles.update_particle dt) (filter (More.survives dt) ps) /\
  Forall (fun q =>
            (dt * 10 + Float.tick_error < Particles.lifetime q ->
             More.survives dt q = true) /\
            (Particles.lifetime q < dt * 10 - Float.tick_error ->
             More.survives dt q = false)) ps /\
  Forall (fun q => 0 < Particles.lifetime q) (Particles.update dt ps) /\
  (List.length (Particles.update dt ps) <= List.length ps)%nat.
Proof.
  intros Hdt Hall.
  split; [apply update_as_filter|]. split; [|split].
  - eapply Forall_impl; [|exact Hall]. intros q Hq. cbv beta in Hq.
    pose proof (lifetime_close dt q Hdt Hq) as Hc.
    apply Qabs_Qle_condition in Hc. destruct Hc as [Hc1 Hc2].
    unfold More.survives. split; intro H.
    + apply ltb_true. lra.
    + apply ltb_false. lra.
  - unfold Particles.update. apply Forall_forall. intros q Hq.
    apply filter_In in Hq. apply ltb_true, Hq.
  - rewrite update_as_filter, length_map. apply filter_length_le.
Qed.

(** A witness of [particles_update_drops_expired]: one update of
    [dt = 1] on a particle of lifetime 25 and one of lifetime 5. *)
Lemma particles_update_drops_expired_witness :
  List.length
    (Particles.update 1 [Particles.init 0 0 RED (1, 1) 25 3;
                         Particles.init 0 0 RED (1, 1) 5 3])
  = 1%nat.
Proof.
  destruct (particles_update_drops_expired 1
              [Particles.init 0 0 RED (1, 1) 25 3;
               Particles.init 0 0 RED (1, 1) 5 3])
    as (H & _).
  - split; vm_compute; discriminate.
  - repeat constructor; vm_compute; discriminate.
  - rewrite H. vm_compute. reflexivity.
Defined.

(** X14. Particles expire: with a delta time between 0 and 2, if
    every lifetime is at most [L] (and at most 2000 in magnitude) and
    [n + 1] updates count at least [L] at 10 per unit of [dt], with
    [2 ^ -40] per update to spare for the rounding, the system is empty
    after them. *)
Theorem particles_expire (n : nat) (dt L : Q) (ps : Particles.System) :
  0 <= dt <= 2 ->
  Forall (fun q => -2000 <= Particles.lifetime q <= L) ps ->
  L + inject_Z (Z.of_nat (S n)) * Float.tick_error <= 2000 ->
  L + inject_Z (Z.of_nat (S n)) * Float.tick_error
  <= inject_Z (Z.of_nat (S n)) * (dt * 10) ->
  More.age (S n) dt ps = [].
Proof.
  intro Hdt. revert L ps.
  assert (He : 0 < Float.tick_error) by reflexivity.
  assert (Hclose : forall L q,
             -2000 <= Particles.lifetime q <= L -> L <= 2000 ->
             Particles.lifetime (Particles.update_particle dt q)
             <= L - dt * 10 + Float.tick_error).
  { intros L q Hq HL.
    pose proof (lifetime_close dt q Hdt) as Hc.
    assert (Hm : Qabs (Particles.lifetime q) <= 2000)
      by (apply Qabs_Qle_condition; lra).
    specialize (Hc Hm). apply Qabs_Qle_condition in Hc. lra. }
  induction n as [|n IH]; intros L ps Hall Hmag HL.
  - cbn [More.age]. rewrite update_as_filter.
    change (inject_Z (Z.of_nat 1)) with 1 in Hmag, HL.
    induction Hall as [|q rest Hq _ IHr]; [reflexivity|].
    cbn [filter]. unfold More.survives at 1.
    pose proof (Hclose L q Hq ltac:(lra)) as Hq'.
    rewrite (proj2 (ltb_false 0 _)) by lra.
    exact IHr.
  - change (More.age (S (S n)) dt ps)
      with (More.age (S n) dt (Particles.update dt ps)).
    rewrite Nat2Z.inj_succ in Hmag, HL.
    rewrite <- Z.add_1_r, inject_Z_plus in Hmag, HL.
    change (inject_Z 1) with 1 in Hmag, HL.
    assert (Hn : 0 <= inject_Z (Z.of_nat (S n))).
    { change 0 with (inject_Z 0). rewrite <- Zle_Qle. lia. }
    apply (IH (L - dt * 10 + Float.tick_error)).
    + rewrite update_as_filter. apply Forall_map.
      induction Hall as [|q rest Hq _ IHr]; [constructor|].
      cbn [filter]. unfold More.survives at 1.
      case_cmp (Py.ltb 0 (Particles.lifetime
                            (Particles.update_particle dt q)));
        [|exact IHr].
      constructor; [|exact IHr].
      pose proof (Hclose L q Hq ltac:(nra)) as Hq'. lra.
    + nra.
    + nra.
Qed.

(** A witness of [particles_expire]: a particle of lifetime 25 is gone
    after three updates of [dt = 1]. *)
Lemma particles_expire_witness :
  More.age 3 1 [Particles.init 0 0 RED (1, 1) 25 3] = [].
Proof.
  apply (particles_expire 2 1 25 [Particles.init 0 0 RED (1, 1) 25 3]).
  - split; vm_compute; discriminate.
  - repeat constructor; vm_compute; discriminate.
  - vm_compute. discriminate.
  - vm_compute. discriminate.
Defined.

(** * The main loop, the splash screen and the menu

    Properties of [main.py], [scenes/splash_screen.py] and
    [scenes/main_menu.py]. *)

Section Menu.
Import MainMenu.

Lemma move_up_valid m : valid (move_up m).
Proof.
  unfold valid, move_up. cbn [selected_option save_exists].
  pose proof (Z.mod_pos_bound (selected_option m - 1) 3 ltac:(lia)) as Hb.
  destruct (((selected_option m - 1) mod 3 =? 1)%Z) eqn:E.
  - apply Z.eqb_eq in E. rewrite E.
    destruct (save_exists m); cbn; split; try lia; intro; discriminate.
  - apply Z.eqb_neq in E. cbn [andb]. split; [lia | intros _; exact E].
Qed.

Lemma move_down_valid m : valid (move_down m).
Proof.
  unfold valid, move_down. cbn [selected_option save_exists].
  pose proof (Z.mod_pos_bound (selected_option m + 1) 3 ltac:(lia)) as Hb.
  destruct (((selected_option m + 1) mod 3 =? 1)%Z) eqn:E.
  - apply Z.eqb_eq in E. rewrite E.
    destruct (save_exists m); cbn; split; try lia; intro; discriminate.
  - apply Z.eqb_neq in E. cbn [andb]. split; [lia | intros _; exact E].
Qed.

End Menu.

(** X15. The delta time of a frame: when the clock has not gone back
    it is between 0 and 2, and it is the cap 2 from 34 ms on. *)
Theorem frame_dt_capped (current_time last_time : Z) :
  (last_time <= current_time)%Z ->
  0 <= Game.frame_dt current_time last_time <= 2 /\
  ((34 <= current_time - last_time)%Z <->
   Game.frame_dt current_time last_time == 2).
Proof.
  intro Hle. unfold Game.frame_dt. cbv zeta.
  set (n := (current_time - last_time)%Z).
  assert (Hn : 0 <= inject_Z n).
  { change 0 with (inject_Z 0). rewrite <- Zle_Qle. lia. }
  assert (Hd : inject_Z n / (1667 # 100) == inject_Z n * (100 # 1667)).
  { unfold Qdiv. reflexivity. }
  assert (H34 : (34 <= n)%Z <-> 34 <= inject_Z n).
  { change 34 with (inject_Z 34). rewrite Zle_Qle. reflexivity. }
  assert (H33 : (n <= 33)%Z <-> inject_Z n <= 33).
  { change 33 with (inject_Z 33). rewrite Zle_Qle. reflexivity. }
  unfold Py.min. case_cmp (Py.ltb 2 (inject_Z n / (1667 # 100))).
  - split; [lra|]. split; [reflexivity|]. intros _.
    destruct (Z_le_gt_dec 34 n) as [G|G]; [exact G|].
    exfalso. assert (inject_Z n <= 33) by (apply H33; lia). lra.
  - split; [lra|]. split.
    + intro G. apply H34 in G. lra.
    + intro G. destruct (Z_le_gt_dec 34 n) as [G'|G']; [exact G'|].
      exfalso. assert (inject_Z n <= 33) by (apply H33; lia). lra.
Qed.

(** A witness of [frame_dt_capped]: a frame of 16 ms. *)
Lemma frame_dt_capped_witness :
  0 <= Game.frame_dt 1016 1000 <= 2 /\
  ((34 <= 1016 - 1000)%Z <-> Game.frame_dt 1016 1000 == 2).
Proof.
  apply (frame_dt_capped 1016 1000). lia.
Defined.

(** X16. The fade-in of the splash screen: [n] updates after [start],
    whatever the tick counts, [alpha] is [min(255, 3 * n)]. *)
Theorem splash_fade_in (t0 : Z) (ticks : list Z) :
  SplashScreen.alpha
    (SplashScreen.updates ticks (SplashScreen.start t0 SplashScreen.init))
  = Z.min 255 (3 * Z.of_nat (List.length ticks)).
Proof.
  assert (G : forall ticks s k,
             SplashScreen.fade_speed s = 3%Z ->
             SplashScreen.alpha s = Z.min 255 (3 * Z.of_nat k) ->
             SplashScreen.alpha (SplashScreen.updates ticks s)
             = Z.min 255 (3 * Z.of_nat (k + List.length ticks))).
  { clear. induction ticks as [|now rest IH]; intros s k Hf Ha.
    - cbn. rewrite Nat.add_0_r. exact Ha.
    - cbn [SplashScreen.updates List.length].
      replace (k + S (List.length rest))%nat
        with (S k + List.length rest)%nat by lia.
      apply IH.
      + unfold SplashScreen.update.
        destruct (SplashScreen.alpha s <? 255)%Z;
          destruct (SplashScreen.SPLASH_DURATION <=? _)%Z; cbn; exact Hf.
      + unfold SplashScreen.update.
        destruct (SplashScreen.alpha s <? 255)%Z eqn:E;
          destruct (SplashScreen.SPLASH_DURATION <=? _)%Z;
          cbn [fst SplashScreen.alpha];
          try (apply Z.ltb_lt in E); try (apply Z.ltb_ge in E); lia. }
  apply (G ticks (SplashScreen.start t0 SplashScreen.init) 0%nat);
    reflexivity.
Qed.

(** X17. The splash screen asks for the main menu from [update]
    exactly when its start time is set, is not 0, and lies 3000 ms or
    more back; a start at tick 0 counts as no start, and the screen
    then never times out. *)
Theorem splash_timeout (now : Z) (s : SplashScreen.t) :
  (snd (SplashScreen.update now s) = Some "main_menu"%string <->
   exists t0, SplashScreen.start_time s = Some t0 /\ t0 <> 0%Z /\
              (3000 <= now - t0)%Z) /\
  (snd (SplashScreen.update now s) = None <->
   ~ exists t0, SplashScreen.start_time s = Some t0 /\ t0 <> 0%Z /\
                (3000 <= now - t0)%Z).
Proof.
  assert (Hex : (SplashScreen.SPLASH_DURATION <=?
                 match SplashScreen.start_time s with
                 | Some t0 => if (t0 =? 0)%Z then 0 else now - t0
                 | None => 0
                 end)%Z = true <->
                exists t0, SplashScreen.start_time s = Some t0 /\
                           t0 <> 0%Z /\ (3000 <= now - t0)%Z).
  { unfold SplashScreen.SPLASH_DURATION.
    destruct (SplashScreen.start_time s) as [t0|].
    - destruct (t0 =? 0)%Z eqn:E.
      + apply Z.eqb_eq in E. split; [intro H; discriminate H|].
        intros (t1 & H1 & H2 & _). congruence.
      + apply Z.eqb_neq in E. rewrite Z.leb_le. split.
        * intro H. exists t0. auto.
        * intros (t1 & H1 & _ & H3). congruence.
    - split; [intro H; discriminate H|].
      intros (t1 & H1 & _). discriminate H1. }
  unfold SplashScreen.update. cbv zeta.
  destruct (SplashScreen.SPLASH_DURATION <=? _)%Z; cbn [snd]; split.
  - split; [intros _; apply Hex; reflexivity | reflexivity].
  - split; [intro H; discriminate H|].
    intro H. exfalso. apply H, Hex. reflexivity.
  - split; [intro H; discriminate H|].
    intro H. apply Hex in H. discriminate H.
  - split; [|reflexivity]. intros _ H. apply Hex in H. discriminate H.
Qed.

(** X18. The menu's selection stays one it can show: after any event
    that [handle_event] handles without an error, the selection of a
    valid menu is still in range and not on "Continue" when there is
    no save. *)
Theorem menu_selection_stays_valid (d : Save.Disk) (event : MainMenu.Event)
    (m m' : MainMenu.t) (tr : MainMenu.Transition) :
  MainMenu.valid m ->
  MainMenu.handle_event d event m = MainMenu.Ok (m', tr) ->
  MainMenu.valid m' /\ MainMenu.save_exists m' = MainMenu.save_exists m.
Proof.
  intros Hv H. destruct event as [key|]; [destruct key|]; cbn in H;
    try (injection H as <- _; first
           [ split; [apply move_up_valid | reflexivity]
           | split; [apply move_down_valid | reflexivity]
           | split; [exact Hv | reflexivity] ]).
  all: destruct (MainMenu._select_option d m); [|discriminate H];
    injection H as <- _; split; [exact Hv | reflexivity].
Qed.

(** A witness of [menu_selection_stays_valid]: the key Up on a fresh
    menu without a save wraps to "Exit". *)
Lemma menu_selection_stays_valid_witness :
  MainMenu.valid (MainMenu.mk 2 false) /\
  MainMenu.save_exists (MainMenu.mk 2 false)
  = MainMenu.save_exists (MainMenu.mk 0 false).
Proof.
  apply (menu_selection_stays_valid Scene.disk0
           (MainMenu.KEYDOWN MainMenu.K_UP) (MainMenu.mk 0 false)
           (MainMenu.mk 2 false) MainMenu.Stay).
  - split; [cbn; lia | intros _; discriminate].
  - reflexivity.
Defined.

(** X19. Without a save, selecting never continues a game and never
    reads the disk: on a valid menu with [save_exists] false the
    selection starts a new game from level 0 or exits. *)
Theorem select_without_save (d : Save.Disk) (m : MainMenu.t) :
  MainMenu.valid m ->
  MainMenu.save_exists m = false ->
  MainMenu._select_option d m
  = MainMenu.Ok (if (MainMenu.selected_option m =? 0)%Z
                 then MainMenu.ToGame "new_game" (Save.PyInt 0)
                 else MainMenu.ExitGame).
Proof.
  intros [Hr Hc] Hs. specialize (Hc Hs).
  assert (Hsel : MainMenu.selected_option m = 0%Z \/
                 MainMenu.selected_option m = 2%Z) by lia.
  unfold MainMenu._select_option.
  destruct Hsel as [-> | ->]; reflexivity.
Qed.

(** A witness of [select_without_save]: "Exit" selected. *)
Lemma select_without_save_witness :
  MainMenu._select_option Scene.disk0 (MainMenu.mk 2 false)
  = MainMenu.Ok (if (MainMenu.selected_option (MainMenu.mk 2 false) =? 0)%Z
                 then MainMenu.ToGame "new_game" (Save.PyInt 0)
                 else MainMenu.ExitGame).
Proof.
  apply (select_without_save Scene.disk0 (MainMenu.mk 2 false)).
  - split; [cbn; lia | intros _; discriminate].
  - reflexivity.
Defined.

(** X20. The save written at game over never enables "Continue": the
    scene saves level 0, and [check_save_file] then finds
    [save_exists] false, whatever the score. *)
Theorem continue_not_offered_after_save (d : Save.Disk) (score : Z)
    (m : MainMenu.t) :
  Save.read_only d = false ->
  MainMenu.check_save_file
    (fst (Save.save_savegame d SAVEGAME_PATH 0 100 score)) m
  = MainMenu.Ok (MainMenu.mk (MainMenu.selected_option m) false).
Proof.
  intro Hw. unfold MainMenu.check_save_file.
  rewrite (load_after_save d SAVEGAME_PATH 0 100 score Hw eq_refl).
  reflexivity.
Qed.

(** A witness of [continue_not_offered_after_save]: a score of 42 saved
    on the empty disk. *)
Lemma continue_not_offered_after_save_witness :
  MainMenu.check_save_file
    (fst (Save.save_savegame Scene.disk0 SAVEGAME_PATH 0 100 42))
    (MainMenu.mk 0 true)
  = MainMenu.Ok
      (MainMenu.mk (MainMenu.selected_option (MainMenu.mk 0 true)) false).
Proof.
  apply (continue_not_offered_after_save Scene.disk0 42 (MainMenu.mk 0 true)).
  reflexivity.
Defined.

(** * More of the game scene

    Properties of [scenes/game_scene.py] beyond the claims. *)

Section Unchanged.
Import GameScene Scene.

(** An observation of the scene that the setters of the combat do not
    touch. *)
Variable A : Type.
Variable f : t -> A.
Hypothesis f_player : forall v x, f (set_player v x) = f x.
Hypothesis f_enemies : forall v x, f (set_enemies v x) = f x.
Hypothesis f_score : forall v x, f (set_score v x) = f x.
Hypothesis f_particle_system :
  forall v x, f (set_particle_system v x) = f x.
Hypothesis f_screen_shake : forall v x, f (set_screen_shake v x) = f x.
Hypothesis f_hit_stop_duration :
  forall v x, f (set_hit_stop_duration v x) = f x.
Hypothesis f_combo_count : forall v x, f (set_combo_count v x) = f x.
Hypothesis f_combo_timer : forall v x, f (set_combo_timer v x) = f x.
Hypothesis f_rng : forall v x, f (set_rng v x) = f x.
Hypothesis f_log : forall v x, f (set_log v x) = f x.

Lemma keep_emit x0 y0 n c speed kind x :
  f (emit x0 y0 n c speed kind x) = f x.
Proof.
  rewrite emit_eq, f_log, f_rng, f_particle_system. reflexivity.
Qed.

Lemma keep_spawn x : f (_spawn_single_enemy x) = f x.
Proof. rewrite spawn_eq, f_log, f_rng, f_enemies. reflexivity. Qed.

Lemma keep_maintain x : f (_maintain_enemies x) = f x.
Proof.
  unfold _maintain_enemies. cbv zeta.
  destruct (_ <? _)%Z; [rewrite keep_spawn|]; apply f_log.
Qed.

Lemma keep_heal x : f (heal_on_milestone x) = f x.
Proof.
  unfold heal_on_milestone.
  destruct (_ && _); [|reflexivity].
  destruct (player x); [|reflexivity].
  rewrite keep_emit. apply f_player.
Qed.

Lemma keep_on_kill e x : f (on_kill e x) = f x.
Proof.
  unfold on_kill. cbv zeta.
  rewrite keep_spawn, keep_heal, f_combo_timer, f_combo_count,
    f_hit_stop_duration, keep_emit, f_screen_shake, f_score.
  reflexivity.
Qed.









End Unchanged.

(** Instances of the lemmas above for one field. *)
Ltac untouched lemma field :=
  apply lemma with (f := field); intros; reflexivity.

Section GameOver.
Import GameScene Scene.



Lemma frozen_update keys dt s :
  paused s || game_over s = true -> update keys dt s = (s, None).
Proof. intro H. unfold update. rewrite H. reflexivity. Qed.

End GameOver.

(** X21. A paused scene and a scene at game over are frozen: no run
    of updates changes anything of them. *)
Theorem frozen_scene (frames : list Frame) (s : GameScene.t) :
  GameScene.paused s || GameScene.game_over s = true ->
  Scene.run frames s = s.
Proof.
  intro H. induction frames as [|[keys dt] rest IH]; [reflexivity|].
  cbn [Scene.run]. rewrite (frozen_update keys dt s H). exact IH.
Qed.

(** A witness of [frozen_scene]: the fresh game at game over, two
    frames with the attack key held. *)
Lemma frozen_scene_witness :
  Scene.run [(Scene.attack_keys, 1); (Scene.attack_keys, 1)]
    (GameScene.set_game_over true Scene.fresh)
  = GameScene.set_game_over true Scene.fresh.
Proof.
  apply (frozen_scene [(Scene.attack_keys, 1); (Scene.attack_keys, 1)]
           (GameScene.set_game_over true Scene.fresh)).
  reflexivity.
Defined.

(** X22. The hit-stop counts frames, not time: with [n] frames of
    hit-stop left, the next [n] updates, whatever their keys and delta
    times, only bring the counter to 0. *)
Theorem hit_stop_counts_down (frames : list Frame) (s : GameScene.t) :
  GameScene.paused s = false -> GameScene.game_over s = false ->
  GameScene.hit_stop_duration s = Z.of_nat (List.length frames) ->
  Scene.run frames s = GameScene.set_hit_stop_duration 0 s.
Proof.
  revert s. induction frames as [|[keys dt] rest IH]; intros s Hp Hg Hh.
  - cbn in Hh |- *. destruct s. cbn in Hh. subst. reflexivity.
  - cbn [Scene.run].
    rewrite (hit_stop_frame keys dt s Hp Hg)
      by (rewrite Hh; cbn [List.length]; lia).
    cbn [fst]. rewrite IH.
    + reflexivity.
    + exact Hp.
    + exact Hg.
    + cbn [GameScene.hit_stop_duration GameScene.set_hit_stop_duration].
      rewrite Hh. cbn [List.length]. lia.
Qed.

(** A witness of [hit_stop_counts_down]: the three frames after a
    kill. *)
Lemma hit_stop_counts_down_witness :
  Scene.run [(Scene.attack_keys, 1); (no_keys, 2); (Scene.attack_keys, 1)]
    (GameScene.set_hit_stop_duration 3 Scene.fresh)
  = GameScene.set_hit_stop_duration 0
      (GameScene.set_hit_stop_duration 3 Scene.fresh).
Proof.
  apply (hit_stop_counts_down
           [(Scene.attack_keys, 1); (no_keys, 2); (Scene.attack_keys, 1)]
           (GameScene.set_hit_stop_duration 3 Scene.fresh));
    reflexivity.
Defined.

Section Restart.
Import GameScene Scene.

Ltac scene_cbn :=
  cbn [player enemies score max_enemies_on_screen spawn_timer spawn_interval
       particle_system screen_shake hit_stop_duration combo_count combo_timer
       combo_timeout paused game_over rng disk log
       set_player set_enemies set_score set_max_enemies_on_screen
       set_spawn_timer set_particle_system set_screen_shake
       set_hit_stop_duration set_combo_count set_combo_timer set_paused
       set_game_over set_rng set_disk set_log].

(** What [start] resets, and what it leaves as the last game left
    it. *)
Lemma start_new_game_fields s :
  let s' := start_new_game s in
  player s' = Some (Player.init (WINDOW_WIDTH / 2) PLAYER_GROUND_Y) /\
  score s' = 0%Z /\ combo_count s' = 0%Z /\ screen_shake s' = 0 /\
  paused s' = false /\ game_over s' = false /\
  Z.of_nat (List.length (enemies s'))
  = (if (0 <? max_enemies_on_screen s)%Z then 1 else 0)%Z /\
  bounded (enemies s') /\
  max_enemies_on_screen s' = max_enemies_on_screen s /\
  spawn_timer s' = spawn_timer s /\
  hit_stop_duration s' = hit_stop_duration s /\
  combo_timer s' = combo_timer s /\
  particle_system s' = particle_system s /\
  disk s' = disk s.
Proof.
  cbv zeta. unfold start_new_game, _maintain_enemies. cbv zeta. scene_cbn.
  cbn [List.length Z.of_nat].
  destruct (0 <? max_enemies_on_screen s)%Z.
  - rewrite spawn_eq. scene_cbn. cbn [app List.length].
    repeat split; try reflexivity.
    constructor; [rewrite spawned_health; lia | constructor].
  - scene_cbn. repeat split; try reflexivity. constructor.
Qed.




End Restart.



(** X24. The key R at game over restarts the game through [start]: a
    new player at the middle of the ground, score, combo and shake at
    0, the flags cleared, the enemies replaced by at most one new one;
    the spawn cap and timer, the hit-stop, the combo timer, the
    particles and the disk stay as the last game left them. *)
Theorem restart_after_game_over (s : GameScene.t) :
  GameScene.game_over s = true ->
  let s' := fst (GameScene.handle_event
                   (GameScene.KEYDOWN GameScene.K_r) s) in
  snd (GameScene.handle_event (GameScene.KEYDOWN GameScene.K_r) s) = None /\
  GameScene.player s'
  = Some (Player.init (WINDOW_WIDTH / 2) PLAYER_GROUND_Y) /\
  GameScene.score s' = 0%Z /\ GameScene.combo_count s' = 0%Z /\
  GameScene.screen_shake s' = 0 /\
  GameScene.paused s' = false /\ GameScene.game_over s' = false /\
  Z.of_nat (List.length (GameScene.enemies s'))
  = (if (0 <? GameScene.max_enemies_on_screen s)%Z then 1 else 0)%Z /\
  Scene.bounded (GameScene.enemies s') /\
  GameScene.max_enemies_on_screen s' = GameScene.max_enemies_on_screen s /\
  GameScene.spawn_timer s' = GameScene.spawn_timer s /\
  GameScene.hit_stop_duration s' = GameScene.hit_stop_duration s /\
  GameScene.combo_timer s' = GameScene.combo_timer s /\
  GameScene.particle_system s' = GameScene.particle_system s /\
  GameScene.disk s' = GameScene.disk s.
Proof.
  intro Hg. cbv zeta.
  assert (E : GameScene.handle_event (GameScene.KEYDOWN GameScene.K_r) s
              = (GameScene.start_new_game s, None)).
  { unfold GameScene.handle_event. cbn [GameScene.key_eqb andb].
    rewrite Hg. reflexivity. }
  rewrite E. cbn [fst snd]. split; [reflexivity|].
  exact (start_new_game_fields s).
Qed.

(** A witness of [restart_after_game_over]: a game lost with a cap of
    10 enemies and two frames of hit-stop left. *)
Lemma restart_after_game_over_witness :
  GameScene.max_enemies_on_screen
    (fst (GameScene.handle_event (GameScene.KEYDOWN GameScene.K_r)
            (GameScene.set_game_over true
               (GameScene.set_max_enemies_on_screen 10
                  (GameScene.set_hit_stop_duration 2 Scene.fresh)))))
  = 10%Z /\
  GameScene.hit_stop_duration
    (fst (GameScene.handle_event (GameScene.KEYDOWN GameScene.K_r)
            (GameScene.set_game_over true
               (GameScene.set_max_enemies_on_screen 10
                  (GameScene.set_hit_stop_duration 2 Scene.fresh)))))
  = 2%Z.
Proof.
  pose proof (restart_after_game_over
                (GameScene.set_game_over true
                   (GameScene.set_max_enemies_on_screen 10
                      (GameScene.set_hit_stop_duration 2 Scene.fresh)))
                eq_refl) as H.
  cbv zeta in H.
  destruct H as (_ & _ & _ & _ & _ & _ & _ & _ & _ & H1 & _ & H2 & _).
  split; [exact H1 | exact H2].
Defined.

Section Population.
Import GameScene Scene More.

Ltac scene_cbn :=
  cbn [player enemies score max_enemies_on_screen spawn_timer spawn_interval
       particle_system screen_shake hit_stop_duration combo_count combo_timer
       combo_timeout paused game_over rng disk log
       set_player set_enemies set_score set_max_enemies_on_screen
       set_spawn_timer set_particle_system set_screen_shake
       set_hit_stop_duration set_combo_count set_combo_timer set_paused
       set_game_over set_rng set_disk set_log].














End Population.




Section Spawn.
Import GameScene Scene More.



End Spawn.



Section PlayerHealth.
Import GameScene Scene More.

Ltac scene_cbn :=
  cbn [player enemies score max_enemies_on_screen spawn_timer spawn_interval
       particle_system screen_shake hit_stop_duration combo_count combo_timer
       combo_timeout paused game_over rng disk log
       set_player set_enemies set_score set_max_enemies_on_screen
       set_spawn_timer set_particle_system set_screen_shake
       set_hit_stop_duration set_combo_count set_combo_timer set_paused
       set_game_over set_rng set_disk set_log].

Lemma drift_same o : in_range o -> in_range o /\ drift 0 10 o o.
Proof.
  intro H. split; [exact H|]. destruct o as [p|]; cbn; [|exact I].
  split; [reflexivity | lia].
Qed.

Lemma drift_trans a b c d o1 o2 o3 :
  drift a b o1 o2 -> drift c d o2 o3 -> drift (a + c) (b + d) o1 o3.
Proof.
  destruct o1 as [p1|], o2 as [p2|], o3 as [p3|]; cbn; try tauto.
  intros (M1 & H1) (M2 & H2). split; [congruence | lia].
Qed.

(** A player of the same health and maximum. *)
Lemma drift_to p q :
  Player.health q = Player.health p ->
  Player.max_health q = Player.max_health p ->
  in_range (Some p) -> in_range (Some q) /\ drift 0 10 (Some p) (Some q).
Proof. cbn. intros H1 H2 H. rewrite H1, H2. repeat split; lia. Qed.

(** The heal never leaves the range and never takes health away. *)
Lemma heal_player x :
  in_range (player x) ->
  in_range (player (heal_on_milestone x)) /\
  drift 0 10 (player x) (player (heal_on_milestone x)).
Proof.
  unfold heal_on_milestone.
  destruct (_ && _); [|apply drift_same].
  destruct (player x) as [p|] eqn:Hp; [|rewrite Hp; apply drift_same].
  match goal with
  | |- context [emit ?a ?b ?n ?c ?sp ?k ?z] =>
      rewrite (proj1 (emit_keeps a b n c sp k z))
  end.
  cbn [player set_player in_range drift
       Player.health Player.max_health Player.set_health].
  intro H. repeat split; lia.
Qed.

Lemma on_kill_player e x :
  in_range (player x) ->
  in_range (player (on_kill e x)) /\
  drift 0 10 (player x) (player (on_kill e x)).
Proof.
  unfold on_kill. cbv zeta.
  match goal with
  | |- context [_spawn_single_enemy ?z] =>
      rewrite (proj1 (spawn_keeps z))
  end.
  match goal with
  | |- context [emit ?a ?b ?n ?c ?sp ?k ?z] =>
      pose proof (proj1 (emit_keeps a b n c sp k z)) as E; revert E;
      generalize (emit a b n c sp k z)
  end.
  intros s3 E. cbn [player set_screen_shake set_score] in E.
  rewrite <- E.
  match goal with
  | |- context [heal_on_milestone ?z] =>
      change (player s3) with (player z); generalize z
  end.
  intro z. apply heal_player.
Qed.

Lemma attack_player p :
  Player.health (fst (Player.attack p)) = Player.health p /\
  Player.max_health (fst (Player.attack p)) = Player.max_health p.
Proof.
  unfold Player.attack. destruct (Py.leb _ 0); split; reflexivity.
Qed.

Lemma attack_phase_player keys x :
  in_range (player x) ->
  in_range (player (attack_phase keys x)) /\
  drift 0 10 (player x) (player (attack_phase keys x)).
Proof.
  unfold attack_phase.
  destruct (K_SPACE keys || K_x keys); [|apply drift_same].
  destruct (player x) as [p|] eqn:Hp; [|rewrite Hp; apply drift_same].
  destruct (attack_player p) as [A1 A2].
  destruct (Player.attack p) as [p' ok]. cbn [fst] in A1, A2.
  destruct ok; [|cbn [player set_player]; apply drift_to; assumption].
  unfold resolve_attack. cbn [player enemies set_player].
  destruct (strike _ (enemies x)) as [[es' hit]|];
    [|cbn [player set_player]; apply drift_to; assumption].
  destruct (negb (Enemy.is_alive hit));
    [|cbn [player set_player set_enemies]; apply drift_to; assumption].
  intro H.
  destruct (drift_to p p' A1 A2 H) as [H1 D1].
  pose proof (on_kill_player hit (set_enemies es' (set_player (Some p') x)))
    as K.
  cbn [player set_player set_enemies] in K.
  destruct (K H1) as [H2 D2].
  split; [exact H2|].
  revert D2. clear K H2.
  generalize (player (on_kill hit (set_enemies es' (set_player (Some p') x)))).
  intros [q|]; cbn in *; [|tauto].
  intros (M & Hq). split; [congruence | lia].
Qed.

End PlayerHealth.

Section PlayerHealthFrame.
Import GameScene Scene More.

Lemma at_enemies_player keys dt s :
  in_range (player s) ->
  in_range (player (at_enemies keys dt s)) /\
  drift 0 10 (player s) (player (at_enemies keys dt s)).
Proof.
  unfold at_enemies, player_phase.
  destruct (tick_effects_keeps dt s) as (T1 & _).
  rewrite <- T1. generalize (tick_effects dt s). intro y.
  destruct (player y) as [p|] eqn:Hp; [|rewrite Hp; apply drift_same].
  destruct (Player.is_alive p); [|rewrite Hp; apply drift_same].
  intro H.
  destruct (update_health keys dt p) as [U1 U2].
  destruct (drift_to p (Player.update keys dt p) U1 U2 H) as [H1 D1].
  pose proof (attack_phase_player keys
                (dash_particles
                   (set_player (Some (Player.update keys dt p)) y))) as K.
  destruct (dash_particles_keeps
              (set_player (Some (Player.update keys dt p)) y)) as (P & _).
  cbn [player set_player] in P. rewrite P in K.
  destruct (K H1) as [H2 D2].
  split; [exact H2|].
  revert D2. clear K H2 P.
  generalize (player
                (attack_phase keys
                   (dash_particles
                      (set_player (Some (Player.update keys dt p)) y)))).
  intros [q|]; cbn in *; [|tauto].
  intros (M & Hq). split; [congruence | lia].
Qed.

(** The enemy loop hits at most once: the window the first hit arms
    covers the rest of the loop. *)
Lemma enemy_loop_cases pos dt es :
  forall x p,
    player x = Some p ->
    snd (enemy_loop pos dt es x) = x \/
    (Player.is_dashing p = false /\
     snd (enemy_loop pos dt es x) = hit_scene p x).
Proof.
  induction es as [|e rest IH]; intros x p Hp; cbn; [left; reflexivity|].
  destruct (Enemy.is_alive e).
  - assert (Hc : contact (Enemy.update pos dt e) x = x \/
                 (Player.is_dashing p = false /\
                  contact (Enemy.update pos dt e) x = hit_scene p x)).
    { unfold contact. rewrite Hp.
      destruct (check_collision _ _); [|left; reflexivity].
      destruct (Py.leb (Player.attack_cooldown p) 0); cbn [andb];
        [|left; reflexivity].
      destruct (Player.is_dashing p); cbn [negb];
        [left; reflexivity | right; split; reflexivity]. }
    destruct Hc as [Hc | [Hd Hc]]; rewrite Hc.
    + specialize (IH x p Hp). destruct (enemy_loop pos dt rest x). exact IH.
    + right. split; [exact Hd|].
      pose proof (enemy_loop_invincible pos dt rest
                    (hit_scene p x) (after_hit p) (hit_scene_player p x)) as Hs.
      destruct (enemy_loop pos dt rest (hit_scene p x)). apply Hs.
      left. reflexivity.
  - specialize (IH x p Hp). destruct (enemy_loop pos dt rest x). exact IH.
Qed.

Lemma enemy_phase_player dt x :
  in_range (player x) ->
  in_range (player (enemy_phase dt x)) /\
  drift 1 0 (player x) (player (enemy_phase dt x)).
Proof.
  assert (Hsame : forall o, in_range o -> in_range o /\ drift 1 0 o o).
  { intros [p|] H; cbn; [|tauto]. repeat split; try lia; apply H. }
  unfold enemy_phase.
  destruct (player x) as [p|] eqn:Hp; [|rewrite Hp; apply Hsame].
  destruct (Player.is_alive p) eqn:Ha; [|rewrite Hp; apply Hsame].
  pose proof (enemy_loop_cases (Player.x p, Player.y p) dt (enemies x) x p Hp)
    as Hl.
  destruct (enemy_loop _ dt (enemies x) x) as [es' x']. cbn [snd] in Hl.
  cbn [player set_enemies].
  destruct Hl as [-> | [Hd ->]]; [rewrite Hp; apply Hsame|].
  rewrite hit_scene_player.
  destruct (after_hit_fields p Ha Hd) as (F1 & _).
  assert (F2 : Player.max_health (after_hit p) = Player.max_health p).
  { unfold after_hit, Player.take_damage. rewrite Hd. reflexivity. }
  unfold Player.is_alive in Ha. apply Z.ltb_lt in Ha.
  cbn [in_range drift]. rewrite F1, F2. intro H. repeat split; lia.
Qed.

Lemma simulate_player keys dt s :
  in_range (player s) ->
  in_range (player (simulate keys dt s)) /\
  drift 1 10 (player s) (player (simulate keys dt s)).
Proof.
  intro H. rewrite simulate_eq.
  rewrite (proj1 (finish_keeps dt (enemy_phase dt (at_enemies keys dt s)))).
  destruct (at_enemies_player keys dt s H) as [H1 D1].
  destruct (enemy_phase_player dt _ H1) as [H2 D2].
  split; [exact H2|].
  exact (drift_trans 0 10 1 0 _ _ _ D1 D2).
Qed.

End PlayerHealthFrame.

(** X28. The player's health over one update: a health between 0 and
    the maximum stays there, the maximum does not change, and the
    health goes down by at most 1 (one enemy hit per frame: the first
    hit arms the invincibility window) and up by at most 10 (one heal
    per frame). *)
Theorem player_health_per_frame (keys : Keys) (dt : Q) (s : GameScene.t) :
  More.health_ok s ->
  let s' := fst (GameScene.update keys dt s) in
  More.health_ok s' /\
  More.drift 1 10 (GameScene.player s) (GameScene.player s').
Proof.
  intro H. cbv zeta.
  change (More.in_range (GameScene.player s)) in H.
  change (More.in_range (GameScene.player (fst (GameScene.update keys dt s))) /\
          More.drift 1 10 (GameScene.player s)
            (GameScene.player (fst (GameScene.update keys dt s)))).
  assert (Hsame : More.in_range (GameScene.player s) /\
                  More.drift 1 10 (GameScene.player s) (GameScene.player s)).
  { split; [exact H|]. destruct (GameScene.player s) as [p|]; cbn; [|tauto].
    split; [reflexivity | lia]. }
  unfold GameScene.update.
  destruct (GameScene.paused s || GameScene.game_over s); [exact Hsame|].
  destruct (0 <? GameScene.hit_stop_duration s)%Z; [exact Hsame|].
  cbn [fst]. exact (simulate_player keys dt s H).
Qed.

(** A witness of [player_health_per_frame]: the fresh game, one
    frame. *)
Lemma player_health_per_frame_witness :
  let s' := fst (GameScene.update Scene.attack_keys 1 Scene.fresh) in
  More.health_ok s' /\
  More.drift 1 10 (GameScene.player Scene.fresh) (GameScene.player s').
Proof.
  apply (player_health_per_frame Scene.attack_keys 1 Scene.fresh).
  vm_compute. split; discriminate.
Defined.

Section Effects.
Import GameScene Scene More.

Ltac scene_cbn :=
  cbn [player enemies score max_enemies_on_screen spawn_timer spawn_interval
       particle_system screen_shake hit_stop_duration combo_count combo_timer
       combo_timeout paused game_over rng disk log
       set_player set_enemies set_score set_max_enemies_on_screen
       set_spawn_timer set_particle_system set_screen_shake
       set_hit_stop_duration set_combo_count set_combo_timer set_paused
       set_game_over set_rng set_disk set_log].

Lemma ok_same x y :
  screen_shake y = screen_shake x -> combo_count y = combo_count x ->
  combo_timer y = combo_timer x -> combo_timeout y = combo_timeout x ->
  effects_ok x -> effects_ok y.
Proof. unfold effects_ok. intros -> -> -> ->. exact (fun H => H). Qed.

Lemma ok_set_enemies v x : effects_ok x -> effects_ok (set_enemies v x).
Proof. exact (fun H => H). Qed.

Lemma ok_set_player v x : effects_ok x -> effects_ok (set_player v x).
Proof. exact (fun H => H). Qed.

Lemma ok_set_particle_system v x :
  effects_ok x -> effects_ok (set_particle_system v x).
Proof. exact (fun H => H). Qed.

Lemma ok_decay_shake dt x : effects_ok x -> effects_ok (decay_shake dt x).
Proof.
  unfold decay_shake, effects_ok. intros (H1 & H2 & H3 & H4).
  destruct (Py.ltb 0 (screen_shake x)); [|repeat split; assumption].
  cbv zeta. scene_cbn.
  case_cmp (Py.ltb (screen_shake x - dt * 20) 0);
    repeat split; try assumption; lra.
Qed.

Lemma ok_decay_combo dt x : effects_ok x -> effects_ok (decay_combo dt x).
Proof.
  unfold decay_combo, effects_ok. intros (H1 & H2 & H3 & H4).
  destruct (0 <? combo_count x)%Z; [|repeat split; assumption].
  cbv zeta. scene_cbn.
  case_cmp (Py.leb (combo_timer x - dt * 1000) 0); scene_cbn.
  - repeat split; try assumption; lia.
  - repeat split; try assumption. intros _. exact E.
Qed.

Lemma ok_tick_effects dt x : effects_ok x -> effects_ok (tick_effects dt x).
Proof.
  intro H. unfold tick_effects. cbv zeta.
  apply ok_set_particle_system, ok_decay_combo, ok_decay_shake, H.
Qed.

Lemma ok_on_kill e x : effects_ok x -> effects_ok (on_kill e x).
Proof.
  intros (H1 & H2 & H3 & H4).
  destruct (on_kill_fields e x) as (_ & K2 & _ & K4 & K5 & _).
  assert (K6 : combo_timeout (on_kill e x) = combo_timeout x)
    by (untouched keep_on_kill combo_timeout).
  unfold effects_ok. rewrite K2, K4, K5, K6.
  repeat split; try assumption; try lia; try lra.
Qed.

Lemma ok_attack_phase keys x :
  effects_ok x -> effects_ok (attack_phase keys x).
Proof.
  intro H. unfold attack_phase.
  destruct (K_SPACE keys || K_x keys); [|exact H].
  destruct (player x) as [p|]; [|exact H].
  destruct (Player.attack p) as [p' ok].
  destruct ok; [|apply ok_set_player, H].
  unfold resolve_attack. cbn [player enemies set_player].
  destruct (strike _ (enemies x)) as [[es' hit]|]; [|apply ok_set_player, H].
  destruct (negb (Enemy.is_alive hit)).
  - apply ok_on_kill, ok_set_enemies, ok_set_player, H.
  - apply ok_set_enemies, ok_set_player, H.
Qed.

Lemma ok_at_enemies keys dt s :
  effects_ok s -> effects_ok (at_enemies keys dt s).
Proof.
  intro H. unfold at_enemies, player_phase.
  pose proof (ok_tick_effects dt s H) as Hy.
  revert Hy. generalize (tick_effects dt s). intros y Hy.
  destruct (player y) as [p|]; [|exact Hy].
  destruct (Player.is_alive p); [|exact Hy].
  apply ok_attack_phase.
  destruct (dash_particles_keeps
              (set_player (Some (Player.update keys dt p)) y))
    as (_ & _ & _ & D4 & _ & D6 & D7 & D8 & _).
  exact (ok_same (set_player (Some (Player.update keys dt p)) y) _
           D4 D6 D7 D8
           (ok_set_player (Some (Player.update keys dt p)) y Hy)).
Qed.

Lemma ok_hit_scene p x : effects_ok x -> effects_ok (hit_scene p x).
Proof.
  intros (H1 & H2 & H3 & H4). unfold hit_scene. cbv zeta.
  match goal with
  | |- context [emit ?a ?b ?n ?c ?sp ?k ?z] =>
      pose proof (emit_keeps a b n c sp k z) as E; revert E;
      generalize (emit a b n c sp k z)
  end.
  intros s3 (_ & _ & _ & E4 & _ & _ & E7 & E8 & _).
  cbn [screen_shake combo_timer combo_timeout set_screen_shake set_player]
    in E4, E7, E8.
  unfold effects_ok. scene_cbn. rewrite E4, E7, E8.
  repeat split; try assumption; try lia; try lra.
Qed.

Lemma ok_enemy_phase dt x : effects_ok x -> effects_ok (enemy_phase dt x).
Proof.
  intro H. unfold enemy_phase.
  destruct (player x) as [p|] eqn:Hp; [|exact H].
  destruct (Player.is_alive p); [|exact H].
  pose proof (enemy_loop_cases (Player.x p, Player.y p) dt (enemies x) x p Hp)
    as Hl.
  destruct (enemy_loop _ dt (enemies x) x) as [es' x']. cbn [snd] in Hl.
  destruct Hl as [-> | [_ ->]].
  - apply ok_set_enemies, H.
  - apply ok_set_enemies, ok_hit_scene, H.
Qed.

Lemma ok_finish dt y : effects_ok y -> effects_ok (finish dt y).
Proof.
  intro H.
  destruct (finish_keeps dt y) as (_ & _ & F3 & _ & F5 & F6 & _).
  assert (F7 : combo_timeout (finish dt y) = combo_timeout y).
  { unfold finish, death_check.
    assert (P : combo_timeout (periodic_spawn dt (cull y)) = combo_timeout y).
    { unfold periodic_spawn. cbv zeta.
      destruct (Py.ltb _ _); [|reflexivity].
      cbn [combo_timeout set_max_enemies_on_screen set_spawn_timer].
      transitivity (combo_timeout
                      (set_spawn_timer (spawn_timer (cull y) + dt * 10)
                         (cull y)));
        [untouched keep_maintain combo_timeout | reflexivity]. }
    rewrite <- P. generalize (periodic_spawn dt (cull y)). intro z.
    destruct (player z) as [q|]; [|reflexivity].
    destruct (negb (Player.is_alive q)); [|reflexivity].
    cbv zeta. destruct (Save.save_savegame _ _ _ _ _). reflexivity. }
  exact (ok_same y _ F3 F5 F6 F7 H).
Qed.

End Effects.

(** X30. The game feel stays sane over every update: the screen shake
    is never negative, the combo count is never negative, and a
    running combo always has time left on its timer, for any keys and
    any delta time. *)
Theorem effects_stay_sane (keys : Keys) (dt : Q) (s : GameScene.t) :
  More.effects_ok s ->
  More.effects_ok (fst (GameScene.update keys dt s)).
Proof.
  intro H. unfold GameScene.update.
  destruct (GameScene.paused s || GameScene.game_over s); [exact H|].
  destruct (0 <? GameScene.hit_stop_duration s)%Z; [exact H|].
  cbn [fst]. rewrite simulate_eq.
  apply ok_finish, ok_enemy_phase, ok_at_enemies, H.
Qed.

(** A witness of [effects_stay_sane]: the fresh game, one frame. *)
Lemma effects_stay_sane_witness :
  More.effects_ok (fst (GameScene.update Scene.attack_keys 1 Scene.fresh)).
Proof.
  apply (effects_stay_sane Scene.attack_keys 1 Scene.fresh).
  repeat split; vm_compute; try reflexivity; try discriminate.
Defined.
